(** * Verification of the SMF-110 analysis notebook and the word-count notebook

    The repository holds two Jupyter notebooks (Python 3 on pandas, NumPy and
    the standard library).  Each code cell is embedded here as a function on
    an explicit notebook state; the library calls a cell makes (boolean-mask
    row selection, [groupby(...).sum()], [pivot_table], [str.split],
    [Counter.most_common], ...) are embedded as the list functions their
    documentation describes.

    Conventions of the embedding:
    - a Python [str] is a list of code points in the word-count notebook and
      a [string] in the SMF notebook;
    - a float64 is an IEEE 754 binary64 number with the operations of the
      standard library's specification of floating-point arithmetic
      ([SpecFloat]): every addition and division rounds to nearest, ties to
      even; NaN, [None] and [NaT] are the cell [Null];
    - a sum of floats adds them one by one, in row order;
    - an int64 is a [Z], kept in range by the conversions that produce it;
    - a Python [dict] is an association list in insertion order;
    - a raised exception is the [Raise] case of a result type.

    Not covered: the dtype of a column (a cell carries its own type; the
    [.str] accessor, which pandas refuses on a column without strings, is
    refused on a column that has rows and no string among them); the order
    in which Spark delivers the rows of a join; plots and printed output. *)

From Stdlib Require Import ZArith QArith Qround String Ascii List Permutation Lia.
From Stdlib Require SpecFloat.
From Stdlib Require Import Sorting.Sorted.
From Stdlib Require OrderedTypeEx.
From stdpp Require Import base option list sorting gmap strings.
Import ListNotations.

Set Default Proof Using "Type".

(** ** Python dictionaries

    [dict] keeps its keys in insertion order (CPython 3.6, the kernel of both
    notebooks); assigning to a present key keeps the key's position. *)
Section pydict.
Context {K V : Type} `{EqDecision K}.

Fixpoint dict_get (d : list (K * V)) (k : K) (default : V) : V :=
  match d with
  | [] => default
  | (k', v) :: d' => if decide (k' = k) then v else dict_get d' k default
  end.

Fixpoint dict_set (d : list (K * V)) (k : K) (v : V) : list (K * V) :=
  match d with
  | [] => [(k, v)]
  | (k', v') :: d' =>
      if decide (k' = k) then (k', v) :: d' else (k', v') :: dict_set d' k v
  end.

Definition dict_keys (d : list (K * V)) : list K := d.*1.

End pydict.

(** ** The word-count notebook

    One computing cell:
    [word_c = Counter(' '.join(df['text']).split()).most_common()]. *)
Module WordCount.

(** A Python 3 [str]: a sequence of Unicode code points. *)
Definition char := N.
Definition str := list char.

Definition of_string (s : string) : str :=
  fmap N_of_ascii (list_ascii_of_string s).

(** [str.isspace] on one code point: the characters [str.split()] treats
    as separators. *)
Definition isspace (c : char) : bool :=
  ((9 <=? c) && (c <=? 13) || (28 <=? c) && (c <=? 32) || (c =? 133)
   || (c =? 160) || (c =? 5760) || (8192 <=? c) && (c <=? 8202)
   || (c =? 8232) || (c =? 8233) || (c =? 8239) || (c =? 8287)
   || (c =? 12288))%N.

(** [sep.join(lines)]. *)
Fixpoint join (sep : str) (lines : list str) : str :=
  match lines with
  | [] => []
  | [x] => x
  | x :: rest => x ++ sep ++ join sep rest
  end.

(** [s.split()]: scan left to right, [tok] being the word read so far;
    a separator closes a non-empty word, runs of separators yield nothing. *)
Fixpoint split_go (tok : str) (s : str) : list str :=
  match s with
  | [] => match tok with [] => [] | _ => [tok] end
  | c :: s' =>
      if isspace c
      then match tok with [] => split_go [] s' | _ => tok :: split_go [] s' end
      else split_go (tok ++ [c]) s'
  end.

Definition split (s : str) : list str := split_go [] s.

(** [Counter(iterable)]: [self[elem] = self.get(elem, 0) + 1] for each
    element, in order. *)
Definition count_elements (d : list (str * nat)) (l : list str) : list (str * nat) :=
  fold_left (λ d w, dict_set d w (dict_get d w 0 + 1)) l d.

Definition Counter (l : list str) : list (str * nat) := count_elements [] l.

(** [most_common()] is [sorted(self.items(), key=itemgetter(1), reverse=True)]:
    a stable sort by decreasing count. *)
Fixpoint insert_by_count (x : str * nat) (l : list (str * nat)) : list (str * nat) :=
  match l with
  | [] => [x]
  | y :: l' => if x.2 <? y.2 then y :: insert_by_count x l' else x :: y :: l'
  end.

Definition most_common (d : list (str * nat)) : list (str * nat) :=
  foldr insert_by_count [] d.

(** The cell. *)
Definition word_c (text : list str) : list (str * nat) :=
  most_common (Counter (split (join (of_string " ") text))).

(** What it means for [toks] to be the whitespace-separated tokens of [s]:
    [s] is blanks, then a non-empty blank-free word, then a rest that is
    empty or starts with a blank, and so on. *)
Definition blank (s : str) : Prop := Forall (λ c, isspace c = true) s.
Definition solid (s : str) : Prop := Forall (λ c, isspace c = false) s.
Definition starts_blank (s : str) : Prop :=
  match s with [] => True | c :: _ => isspace c = true end.

Inductive tokens_of : str → list str → Prop :=
  | tokens_blank s : blank s → tokens_of s []
  | tokens_word pre w rest toks :
      blank pre → w ≠ [] → solid w → starts_blank rest →
      tokens_of rest toks → tokens_of (pre ++ w ++ rest) (w :: toks).

Definition non_increasing (l : list (str * nat)) : Prop :=
  ∀ i j x y, i < j → l !! i = Some x → l !! j = Some y → y.2 ≤ x.2.

(** The number of times [w] occurs in a list of tokens. *)
Definition occurrences (w : str) (toks : list str) : nat :=
  length (filter (λ x, x = w) toks).

(** *** The statistics cell and the lists of the plot

    The cell after the count prints [len(word_c)] and [word_c[0:10]], builds
    [word_d = dict(word_c)] and prints [word_d['thou']], [word_d['thee']] and
    [word_d['Hamlet']]; the plot cell takes [words] and [counts] from
    [word_c[0:10]]. *)

(** [dict(pairs)]: every pair assigned, in order. *)
Definition dict_of (pairs : list (str * nat)) : list (str * nat) :=
  fold_left (λ d kv, dict_set d kv.1 kv.2) pairs [].

Inductive outcome (A : Type) : Type :=
  | Returns (a : A)
  | KeyError (key : str).
Arguments Returns {A} a.
Arguments KeyError {A} key.

(** [d[key]]. *)
Fixpoint dict_getitem (d : list (str * nat)) (key : str) : outcome nat :=
  match d with
  | [] => KeyError key
  | (k, v) :: d' => if decide (k = key) then Returns v else dict_getitem d' key
  end.

(** What the statistics cell prints, one constructor per [print]. *)
Inductive printed : Type :=
  | unique_words (n : nat)
  | top_header
  | top_words (l : list (str * nat))
  | thou_thee (thou thee : nat)
  | hamlet (n : nat).

(** The statistics cell: what it has printed, and whether it returned. *)
Definition cell_stats (word_c : list (str * nat)) : list printed * outcome unit :=
  let out := [unique_words (length word_c); top_header; top_words (take 10 word_c)] in
  let word_d := dict_of word_c in
  match dict_getitem word_d (of_string "thou") with
  | KeyError k => (out, KeyError k)
  | Returns thou =>
      match dict_getitem word_d (of_string "thee") with
      | KeyError k => (out, KeyError k)
      | Returns thee =>
          let out := out ++ [thou_thee thou thee] in
          match dict_getitem word_d (of_string "Hamlet") with
          | KeyError k => (out, KeyError k)
          | Returns n => (out ++ [hamlet n], Returns tt)
          end
      end
  end.

(** [words = [w[0] for w in word_c[0:10]]],
    [counts = [int(c[1]) for c in word_c[0:10]]] and
    [y_pos = np.arange(len(counts))]. *)
Definition words (word_c : list (str * nat)) : list str :=
  fmap (λ w, w.1) (take 10 word_c).

Definition counts (word_c : list (str * nat)) : list nat :=
  fmap (λ c, c.2) (take 10 word_c).

Definition y_pos (counts : list nat) : list nat := seq 0 (length counts).

(** The distinct elements of a list, in the order of their first
    occurrence. *)
Fixpoint first_seen (seen l : list str) : list str :=
  match l with
  | [] => []
  | x :: l' => if decide (x ∈ seen) then first_seen seen l' else x :: first_seen (x :: seen) l'
  end.

End WordCount.

(** ** The SMF-110 notebook *)
Module SMF110.

Local Open Scope string_scope.
Local Open Scope list_scope.

(** *** float64

    A binary64 number: a signed zero, a signed infinity, NaN, or a finite
    number [±m * 2^e]; precision 53, largest exponent 1024. *)
Definition float : Type := SpecFloat.spec_float.

#[global] Instance float_eq_dec : EqDecision float.
Proof. solve_decision. Defined.

Definition fadd : float → float → float := SpecFloat.SFadd 53 1024.
Definition fdiv : float → float → float := SpecFloat.SFdiv 53 1024.

Definition fzero : float := SpecFloat.S754_zero false.

(** [float(z)]: the nearest float64. *)
Definition float_of_Z (z : Z) : float := SpecFloat.binary_normalize 53 1024 z 0 false.

(** The float64 nearest to [n / d], for [n] and [d] that are floats
    themselves: what Python reads a decimal literal of that value as. *)
Definition f64 (n : Z) (d : positive) : float :=
  fdiv (float_of_Z n) (float_of_Z (Z.pos d)).

Definition is_nan (f : float) : bool :=
  match f with
  | SpecFloat.S754_nan => true
  | _ => false
  end.

(** The sum of floats, added one by one from the left, every addition
    rounded.  (On long columns NumPy and pandas may add in another order,
    which can change the last bits of the result.) *)
Definition fsum (l : list float) : float := fold_left fadd l fzero.

(** The number a finite float is, exactly. *)
Definition Q_of_float (f : float) : Q :=
  match f with
  | SpecFloat.S754_finite s m e =>
      (inject_Z (if s then Z.neg m else Z.pos m) * Qpower 2 e)%Q
  | _ => 0%Q
  end.

(** Where a float stands among the finite numbers: below for the negative
    infinity, above for the positive one. *)
Definition float_rank (f : float) : Z :=
  match f with
  | SpecFloat.S754_infinity true => -1
  | SpecFloat.S754_infinity false => 1
  | _ => 0
  end.

(** The integer part of a finite float, towards zero and towards minus
    infinity. *)
Definition float_trunc (f : float) : option Z :=
  match f with
  | SpecFloat.S754_zero _ => Some 0%Z
  | SpecFloat.S754_finite s m e =>
      Some (let z := Z.shiftl (Z.pos m) e in if s then (- z)%Z else z)
  | _ => None
  end.

Definition float_floor (f : float) : option Z :=
  match f with
  | SpecFloat.S754_zero _ => Some 0%Z
  | SpecFloat.S754_finite s m e => Some (Z.shiftl (if s then Z.neg m else Z.pos m) e)
  | _ => None
  end.

(** Float comparisons; NaN compares false. *)
Definition feqb : float → float → bool := SpecFloat.SFeqb.
Definition fltb : float → float → bool := SpecFloat.SFltb.

(** int64, and the milliseconds a [Timestamp], which counts nanoseconds in
    an int64, can hold. *)
Definition int64_min : Z := - 2 ^ 63.
Definition in_int64 (z : Z) : bool := (int64_min <=? z)%Z && (z <? 2 ^ 63)%Z.
Definition in_datetime (ms : Z) : bool :=
  (-9223372036854 <=? ms)%Z && (ms <=? 9223372036854)%Z.

(** *** Values and exceptions *)

(** What a DataFrame cell can hold.  [Null] stands for [None], [NaN] and
    [NaT]; a [Datetime] is a pandas [Timestamp], in milliseconds since the
    epoch (the unit the notebook reads them in). *)
Inductive cell : Type :=
  | Null
  | Bool (b : bool)
  | Int (z : Z)
  | Float (f : float)
  | Str (s : string)
  | Datetime (ms : Z).

(** A computed float as a cell: NaN is [Null]. *)
Definition float_cell (f : float) : cell :=
  if is_nan f then Null else Float f.

#[global] Instance cell_eq_dec : EqDecision cell.
Proof. solve_decision. Defined.

Inductive exn : Type :=
  | NameError (name : string)
  | KeyError (key : string)
  | AttributeError (attr : string)
  | TypeError
  | ValueError
  | OSError (path : string)
  | OverflowError
  | OutOfBoundsDatetime
  | AnalysisException (column : string)
  | Py4JJavaError (what : string).

Inductive result (A : Type) : Type :=
  | Ok (a : A)
  | Raise (e : exn).
Arguments Ok {A} a.
Arguments Raise {A} e.

#[global] Instance result_ret : MRet result := λ A a, Ok a.
#[global] Instance result_bind : MBind result :=
  λ A B f m, match m with Ok a => f a | Raise e => Raise e end.

(** [f] applied to every element, left to right; the first exception wins. *)
Fixpoint traverse {A B} (f : A → result B) (l : list A) : result (list B) :=
  match l with
  | [] => Ok []
  | x :: l' => y ← f x; ys ← traverse f l'; mret (y :: ys)
  end.

(** A left fold whose step can raise. *)
Fixpoint fold_result {A B} (f : B → A → result B) (l : list A) (b : B) : result B :=
  match l with
  | [] => Ok b
  | x :: l' => b' ← f b x; fold_result f l' b'
  end.

(** *** DataFrames and Series

    A DataFrame is its column names, in order, and its rows; a row is its
    index label and its cells by column name.  A Series is a list of
    labelled cells. *)
Record DataFrame : Type := mkDataFrame {
  columns : list string;
  rows : list (Z * gmap string cell)
}.

Definition Series : Type := list (Z * cell).

Definition index (df : DataFrame) : list Z := (rows df).*1.

Definition cell_of_row (name : string) (r : Z * gmap string cell) : cell :=
  default Null (r.2 !! name).

Definition tuple_of_row (names : list string) (r : Z * gmap string cell) : list cell :=
  fmap (λ name, cell_of_row name r) names.

Definition column_values (df : DataFrame) (name : string) : Series :=
  fmap (λ r, (r.1, cell_of_row name r)) (rows df).

(** [df[name]]. *)
Definition getitem (df : DataFrame) (name : string) : result Series :=
  if decide (name ∈ columns df) then Ok (column_values df name)
  else Raise (KeyError name).

(** [df.name]. *)
Definition getattr (df : DataFrame) (name : string) : result Series :=
  if decide (name ∈ columns df) then Ok (column_values df name)
  else Raise (AttributeError name).

Fixpoint series_at (s : Series) (label : Z) : option cell :=
  match s with
  | [] => None
  | (l, c) :: s' => if decide (l = label) then Some c else series_at s' label
  end.

(** Index alignment of a Series with the labels [idx] of a frame: as they
    stand when the two indexes are equal, else a reindex, which pandas
    refuses on duplicate labels and which leaves NaN at a missing label. *)
Definition align (s : Series) (idx : list Z) : result (list cell) :=
  if decide (s.*1 = idx) then Ok s.*2
  else if decide (NoDup s.*1)
       then Ok (fmap (λ l, default Null (series_at s l)) idx)
       else Raise ValueError.

(** [df[name] = s]: overwrite the column, or append a new one. *)
Definition setitem (df : DataFrame) (name : string) (s : Series) : result DataFrame :=
  vs ← align s (index df);
  mret {| columns := if decide (name ∈ columns df) then columns df
                     else columns df ++ [name];
          rows := zip_with (λ v r, (r.1, <[name:=v]> r.2)) vs (rows df) |}.

(** Keep the elements whose flag is set. *)
Fixpoint select {A} (bs : list bool) (l : list A) : list A :=
  match bs, l with
  | b :: bs', x :: l' => if b then x :: select bs' l' else select bs' l'
  | _, _ => []
  end.

Definition as_bool (c : cell) : result bool :=
  match c with
  | Bool b => Ok b
  | _ => Raise ValueError
  end.

(** [df[mask]] with a boolean Series: the mask is aligned with the frame,
    must hold booleans only (a NaN is refused), and the result is a new
    frame with the selected rows. *)
Definition getitem_bool (df : DataFrame) (mask : Series) : result DataFrame :=
  vs ← align mask (index df);
  bs ← traverse as_bool vs;
  mret {| columns := columns df; rows := select bs (rows df) |}.

Definition require_column (df : DataFrame) (name : string) : result unit :=
  if decide (name ∈ columns df) then Ok tt else Raise (KeyError name).

(** [df[[c1, ..., cn]]]: the listed columns, in that order. *)
Definition getitem_list (df : DataFrame) (names : list string) : result DataFrame :=
  _ ← traverse (require_column df) names;
  mret {| columns := names; rows := rows df |}.

(** [df.copy(deep=True)]: a new object with the same labels and data. *)
Definition copy_deep (df : DataFrame) : DataFrame :=
  {| columns := columns df; rows := rows df |}.

(** [series.apply(f)] and [series.astype(t)]: element by element. *)
Definition series_apply (f : cell → result cell) (s : Series) : result Series :=
  traverse (λ p, c ← f p.2; mret (p.1, c)) s.

(** *** String predicates *)

Fixpoint startswith (pat s : string) : bool :=
  match pat, s with
  | EmptyString, _ => true
  | String a pat', String b s' => Ascii.eqb a b && startswith pat' s'
  | String _ _, EmptyString => false
  end.

(** [re.search] of a pattern without metacharacters: substring search. *)
Fixpoint contains (pat s : string) : bool :=
  startswith pat s ||
  match s with
  | EmptyString => false
  | String _ s' => contains pat s'
  end.

(** The regular expression ['^Y[1-5]95$|MAP']: the whole string is [Y],
    a digit from 1 to 5, [95] (a final newline is allowed by [$]), or the
    string contains [MAP]. *)
Definition tran_pattern (s : string) : bool :=
  match s with
  | String "Y" (String d (String "9" (String "5" rest))) =>
      (Ascii.leb "1" d && Ascii.leb d "5") &&
      (String.eqb rest "" || String.eqb rest (String "010" ""))
  | _ => false
  end || contains "MAP" s.

(** The regular expression ['CICS3AAB|CICS6AAA']. *)
Definition region_pattern (s : string) : bool :=
  contains "CICS3AAB" s || contains "CICS6AAA" s.

(** [series.str]: pandas gives the accessor for a column of strings (other
    values may be among them) and raises [AttributeError] for a column of
    another kind.  With the dtype not recorded, a column that has rows and
    no string among them is taken to be of another kind, and a column
    without rows to be a column of strings. *)
Definition holds_str (s : Series) : bool :=
  existsb (λ p, match p.2 with Str _ => true | _ => false end) s.

Definition str_accessor (s : Series) : result unit :=
  if holds_str s || bool_decide (s = []) then Ok tt
  else Raise (AttributeError "str").

(** The flags of [contains]: a boolean for a string, NaN for anything
    else. *)
Definition contains_flags (matches : string → bool) (s : Series) : Series :=
  fmap (λ p, (p.1, match p.2 with Str x => Bool (matches x) | _ => Null end)) s.

(** [series.str.contains(pat)]. *)
Definition str_contains (matches : string → bool) (s : Series) : result Series :=
  _ ← str_accessor s;
  mret (contains_flags matches s).

(** Python's [c == True]. *)
Definition is_True (c : cell) : bool :=
  match c with
  | Bool b => b
  | Int z => (z =? 1)%Z
  | Float f => feqb f (float_of_Z 1)
  | _ => false
  end.

(** [series == True]. *)
Definition eq_True (s : Series) : Series := fmap (λ p, (p.1, Bool (is_True p.2))) s.

(** *** Numbers *)

(** The number a cell counts as in a sum of floats; NaN is skipped, text and
    timestamps are refused. *)
Definition number (c : cell) : result (option float) :=
  match c with
  | Null => Ok None
  | Bool b => Ok (Some (float_of_Z (if b then 1 else 0)))
  | Int z => Ok (Some (float_of_Z z))
  | Float f => Ok (Some f)
  | Str _ | Datetime _ => Raise TypeError
  end.

Definition numbers (l : list cell) : result (list float) :=
  fs ← traverse number l; mret (omap id (fs : list (option float))).

(** [series.sum()], [np.sum] on a column of floats. *)
Definition nansum (l : list cell) : result float :=
  fs ← numbers l; mret (fsum fs).

(** [np.mean]: the sum divided by the count, NaN on no data. *)
Definition nanmean (l : list cell) : result cell :=
  fs ← numbers l;
  mret (match fs with
        | [] => Null
        | _ => float_cell (fdiv (fsum fs) (float_of_Z (Z.of_nat (length fs))))
        end).

(** [x / total] on float64: a zero divisor gives an infinity or NaN, not
    an exception. *)
Definition true_divide (x total : float) : cell :=
  float_cell (fdiv x total).

(** *** Group keys

    A group key is the tuple of a row's cells in the key columns.  Rows with
    a missing key are left out; the keys come out sorted, each once. *)
Definition cell_rank (c : cell) : Z :=
  match c with
  | Null => 0
  | Bool _ | Int _ | Float _ => 1
  | Datetime _ => 2
  | Str _ => 3
  end.

Definition cell_number (c : cell) : Q :=
  match c with
  | Bool b => if b then 1%Q else 0%Q
  | Int z => inject_Z z
  | Float f => Q_of_float f
  | Datetime ms => inject_Z ms
  | _ => 0%Q
  end.

Definition cell_infinite (c : cell) : Z :=
  match c with
  | Float f => float_rank f
  | _ => 0
  end.

Definition cell_text (c : cell) : string :=
  match c with
  | Str s => s
  | _ => ""
  end.

Definition lex (c1 c2 : comparison) : comparison :=
  match c1 with
  | Eq => c2
  | _ => c1
  end.

(** Numbers by value, strings by code point, as Python orders them; across
    types (which Python 3 refuses to order) by [cell_rank]. *)
Definition cell_compare (a b : cell) : comparison :=
  lex (Z.compare (cell_rank a) (cell_rank b))
    (lex (Z.compare (cell_infinite a) (cell_infinite b))
       (lex (Qcompare (cell_number a) (cell_number b))
          (String.compare (cell_text a) (cell_text b)))).

(** Tuples compare lexicographically. *)
Fixpoint key_compare (a b : list cell) : comparison :=
  match a, b with
  | [], [] => Eq
  | [], _ :: _ => Lt
  | _ :: _, [] => Gt
  | x :: a', y :: b' => lex (cell_compare x y) (key_compare a' b')
  end.

Definition leb_of {A} (cmp : A → A → comparison) (x y : A) : bool :=
  match cmp x y with
  | Gt => false
  | _ => true
  end.

Definition cell_leb : cell → cell → bool := leb_of cell_compare.
Definition key_leb : list cell → list cell → bool := leb_of key_compare.

(** A stable sort. *)
Fixpoint insert_sorted {A} (leb : A → A → bool) (x : A) (l : list A) : list A :=
  match l with
  | [] => [x]
  | y :: l' => if leb x y then x :: y :: l' else y :: insert_sorted leb x l'
  end.

Definition sorted_by {A} (leb : A → A → bool) (l : list A) : list A :=
  foldr (insert_sorted leb) [] l.

Definition notnull (k : list cell) : bool :=
  forallb (λ c, negb (bool_decide (c = Null))) k.

Definition group_keys (ks : list (list cell)) : list (list cell) :=
  sorted_by key_leb (remove_dups (List.filter notnull ks)).

(** The values of the records whose key is [k], in row order. *)
Definition group {K V} `{EqDecision K} (k : K) (recs : list (K * V)) : list V :=
  (filter (λ r, r.1 = k) recs).*2.

(** [groupby(keys)[value].sum()] on the records (key tuple, value). *)
Definition groupby_sum (recs : list (list cell * cell)) : result (list (list cell * float)) :=
  traverse (λ k, s ← nansum (group k recs); mret (k, s)) (group_keys recs.*1).

(** The records (key tuple, value) of a frame. *)
Definition records (df : DataFrame) (keys : list string) (value : string)
    : result (list (list cell * cell)) :=
  _ ← traverse (require_column df) keys;
  _ ← require_column df value;
  mret (fmap (λ r, (tuple_of_row keys r, cell_of_row value r)) (rows df)).

(** The distinct elements of a list, in the order of their first
    occurrence. *)
Definition distinct {A} `{EqDecision A} (l : list A) : list A :=
  reverse (remove_dups (reverse l)).

(** [series.value_counts()]: how often each value occurs, most frequent
    first, values that occur equally often in the order of their first
    occurrence. *)
Definition value_counts (s : Series) : list (cell * nat) :=
  let vs := List.filter (λ c, negb (bool_decide (c = Null))) s.*2 in
  sorted_by (λ a b, (b.2 <=? a.2)%nat)
    (fmap (λ v, (v, length (filter (λ c, c = v) vs))) (distinct vs)).

(** *** Pivot tables

    One row per index key and one cell per column key, both sorted; the
    cell aggregates the values of the records with that pair of keys and is
    NaN when there is none. *)
Record PivotTable : Type := mkPivotTable {
  p_columns : list cell;
  p_rows : list (list cell * list cell)
}.

Definition pivot (agg : list cell → result cell)
    (recs : list ((list cell * cell) * cell)) : result PivotTable :=
  let recs := List.filter (λ r, notnull r.1.1 && notnull [r.1.2]) recs in
  let cols := sorted_by cell_leb (remove_dups recs.*1.*2) in
  rs ← traverse (λ k,
          cs ← traverse (λ c, match group (k, c) recs with
                              | [] => Ok Null
                              | vs => agg vs
                              end) cols;
          mret (k, cs : list cell))
        (group_keys recs.*1.*1);
  mret {| p_columns := cols; p_rows := rs |}.

(** [aggfunc=len]. *)
Definition agg_len (vs : list cell) : result cell :=
  Ok (Float (float_of_Z (Z.of_nat (length vs)))).

(** [aggfunc=np.sum], [.sum()]. *)
Definition agg_sum (vs : list cell) : result cell :=
  s ← nansum vs; mret (float_cell s).

(** [table.fillna(0)]. *)
Definition fillna0 (p : PivotTable) : PivotTable :=
  {| p_columns := p_columns p;
     p_rows := fmap (λ r : list cell * list cell,
                      (r.1, fmap (λ c, match c with Null => Float fzero | _ => c end) r.2))
                 (p_rows p) |}.

(** [table.index.levels[n]]: the sorted distinct values of one level. *)
Definition level (n : nat) (p : PivotTable) : list cell :=
  sorted_by cell_leb (remove_dups (fmap (λ k, default Null (k !! n)) (p_rows p).*1)).

(** [table.index.get_level_values(n)]: one value per row of the table. *)
Definition get_level_values (n : nat) (p : PivotTable) : list cell :=
  fmap (λ k, default Null (k !! n)) (p_rows p).*1.

(** [table.iloc[start:stop, :]]. *)
Definition iloc (start stop : nat) (p : PivotTable) : list (list cell) :=
  take (stop - start) (drop start (p_rows p).*2).

(** [rows.apply(lambda x : np.mean(x))]: the mean of every column. *)
Definition column_means (ncols : nat) (data : list (list cell)) : result (list cell) :=
  traverse (λ j, nanmean (fmap (λ r, default Null (r !! j)) data)) (seq 0 ncols).

(** *** The transaction-rate loops

    [num_days_cics_regions]: for every system id and every row of the
    table, one more for the pair (system id, region of the row). *)
Definition count_regions (sys_id cics_regions : list cell) : list ((cell * cell) * nat) :=
  fold_left
    (λ d s, fold_left (λ d r, dict_set d (s, r) (dict_get d (s, r) 0 + 1)) cics_regions d)
    sys_id [].

(** The second loop: the pairs in dictionary order, each taking the next
    [count] rows of the table and storing their column means under its
    name.  The accumulator is [start_ind] and [cics_trans_df]. *)
Definition rate_step (p : PivotTable)
    (acc : nat * list ((cell * cell) * list cell)) (entry : (cell * cell) * nat)
    : result (nat * list ((cell * cell) * list cell)) :=
  let end_ind := acc.1 + entry.2 in
  cics_rate ← column_means (length (p_columns p)) (iloc acc.1 end_ind p);
  mret (end_ind, dict_set acc.2 entry.1 cics_rate).

Definition rate_loop (p : PivotTable) (d : list ((cell * cell) * nat))
    : result (nat * list ((cell * cell) * list cell)) :=
  fold_result (rate_step p) d
    (0, fmap (λ k, (k, replicate (length (p_columns p)) Null)) (dict_keys d)).

(** The whole computation of [cics_trans_df] from the filled pivot table:
    one column of rates per pair, one rate per transaction type. *)
Definition cics_trans_table (p : PivotTable) : result (list ((cell * cell) * list cell)) :=
  let sys_id := level 0 p in
  let cics_regions := get_level_values 1 p in
  r ← rate_loop p (count_regions sys_id cics_regions);
  mret r.2.

(** The grouped mean the documentation describes the cell as, written after
    its words and not after the code: the single call
    [table.groupby(level=[0, 1]).mean()], the column means over the rows of
    every (system id, region) pair that occurs, pairs sorted. *)
Definition pair_of_key (k : list cell) : cell * cell :=
  (default Null (k !! 0), default Null (k !! 1)).

Definition pair_leb (a b : cell * cell) : bool :=
  key_leb [a.1; a.2] [b.1; b.2].

Definition grouped_mean (p : PivotTable) : result (list ((cell * cell) * list cell)) :=
  let recs := fmap (λ r, (pair_of_key r.1, r.2)) (p_rows p) in
  traverse (λ k, m ← column_means (length (p_columns p)) (group k recs); mret (k, m))
    (sorted_by pair_leb (remove_dups recs.*1)).

(** *** The outside world

    What the notebook reads: files, the JSON parser, the JDBC source behind
    Spark, and Python's number parsers. *)
Record SparkTable : Type := mkSparkTable {
  s_columns : list string;
  s_rows : list (list cell)
}.

Record World : Type := mkWorld {
  (** [open(path)] followed by [f.readline()] *)
  open_readline : string → result string;
  (** [pd.read_json(path)] *)
  pd_read_json : string → result DataFrame;
  (** [spark.read.format("jdbc")...option("url", url).option("dbtable", t).load()] *)
  jdbc_load : string → string → result SparkTable;
  (** [int(s)] and [float(s)]; [None] is a [ValueError] *)
  py_int : string → option Z;
  py_float : string → option float
}.

(** *** Spark operations *)

(** Spark compares column names without regard to case
    ([spark.sql.caseSensitive] is false unless set).  The letters folded
    here are those of ASCII. *)
Definition lower_ascii (a : ascii) : ascii :=
  let n := nat_of_ascii a in
  if (65 <=? n)%nat && (n <=? 90)%nat then ascii_of_nat (n + 32) else a.

Fixpoint lower (s : string) : string :=
  match s with
  | EmptyString => EmptyString
  | String a s' => String (lower_ascii a) (lower s')
  end.

Definition same_name (a b : string) : bool := String.eqb (lower a) (lower b).

(** The one column a name refers to; no column, or more than one, is an
    [AnalysisException]. *)
Definition resolve (t : SparkTable) (name : string) : result nat :=
  match List.filter (λ j, match s_columns t !! j with
                          | Some c => same_name c name
                          | None => false
                          end)
          (seq 0 (length (s_columns t))) with
  | [j] => Ok j
  | _ => Raise (AnalysisException name)
  end.

(** [a.join(b, col(ka) == col(kb), "inner")]: the pairs of a row of [a] and
    a row of [b] with equal keys, a NULL key matching nothing.  Spark fixes
    no order of the pairs; they are listed here by the rows of [a]. *)
Definition spark_join (a b : SparkTable) (ka kb : string) : result SparkTable :=
  ja ← resolve a ka;
  jb ← resolve b kb;
  mret {| s_columns := s_columns a ++ s_columns b;
          s_rows :=
            flat_map (λ ra,
              fmap (λ rb, ra ++ rb)
                (List.filter (λ rb,
                   match ra !! ja, rb !! jb with
                   | Some x, Some y => bool_decide (x = y) && negb (bool_decide (x = Null))
                   | _, _ => false
                   end) (s_rows b)))
              (s_rows a) |}.

(** [t.select(names)]. *)
Definition spark_select (t : SparkTable) (names : list string) : result SparkTable :=
  js ← traverse (resolve t) names;
  mret {| s_columns := names;
          s_rows := fmap (λ r : list cell,
                      fmap (λ j, default Null (r !! j)) (js : list nat)) (s_rows t) |}.

(** [t.limit(n)]. *)
Definition spark_limit (n : nat) (t : SparkTable) : SparkTable :=
  {| s_columns := s_columns t; s_rows := take n (s_rows t) |}.

(** [t.toPandas()]: the rows collected under a fresh range index. *)
Definition toPandas (t : SparkTable) : DataFrame :=
  {| columns := s_columns t;
     rows := imap (λ i r, (Z.of_nat i,
                           (list_to_map (zip (s_columns t) r) : gmap string cell)))
               (s_rows t) |}.

(** *** Conversions of one cell *)

(** A Python integer as an int64. *)
Definition to_int64 (z : Z) : result cell :=
  if in_int64 z then Ok (Int z) else Raise OverflowError.

(** [astype(int)]: a float is cut at the decimal point, NaN and the
    infinities are refused, and a float beyond the int64 range gives the
    smallest int64 (on x86-64); a timestamp gives its nanoseconds. *)
Definition astype_int (w : World) (c : cell) : result cell :=
  match c with
  | Null => Raise ValueError
  | Bool b => Ok (Int (if b then 1 else 0))
  | Int z => to_int64 z
  | Float f => match float_trunc f with
               | Some z => Ok (Int (if in_int64 z then z else int64_min))
               | None => Raise ValueError
               end
  | Str s => match py_int w s with Some z => to_int64 z | None => Raise ValueError end
  | Datetime ms => to_int64 (ms * 1000000)
  end.

(** [astype(float)]. *)
Definition astype_float (w : World) (c : cell) : result cell :=
  match c with
  | Null => Ok Null
  | Bool b => Ok (Float (float_of_Z (if b then 1 else 0)))
  | Int z => Ok (Float (float_of_Z z))
  | Float f => Ok (Float f)
  | Str s => match py_float w s with Some f => Ok (float_cell f) | None => Raise ValueError end
  | Datetime _ => Raise TypeError
  end.

(** A number of milliseconds since the epoch as a timestamp. *)
Definition timestamp_of (f : float) : result cell :=
  if is_nan f then Ok Null
  else match float_floor f with
       | Some ms => if in_datetime ms then Ok (Datetime ms) else Raise OutOfBoundsDatetime
       | None => Raise OutOfBoundsDatetime
       end.

(** [pd.to_datetime(..., unit='ms')]. *)
Definition to_datetime_ms (w : World) (c : cell) : result cell :=
  match c with
  | Null => Ok Null
  | Bool _ => Raise TypeError
  | Int z => if in_datetime z then Ok (Datetime z) else Raise OutOfBoundsDatetime
  | Float f => timestamp_of f
  | Str s => match py_float w s with
             | Some f => timestamp_of f
             | None => Raise ValueError
             end
  | Datetime ms => Ok (Datetime ms)
  end.

(** [lambda x: x.second]. *)
Definition second_of (c : cell) : result cell :=
  match c with
  | Datetime ms => Ok (Int ((ms / 1000) mod 60))
  | Null => Ok Null
  | _ => Raise (AttributeError "second")
  end.

(** *** The notebook's state

    The kernel's global names, the DataFrame objects they refer to (a
    DataFrame is mutable and reached by reference: assigning a column
    changes the object for every name bound to it), and the calls made to
    the Spark engine. *)
Inductive value : Type :=
  | VSession
  | VStr (s : string)
  | VFrame (ref : nat)
  | VCounts (c : list (cell * nat))
  | VGrouped (g : list (list cell * float))
  | VPivot (p : PivotTable)
  | VLabels (l : list cell)
  | VDict (d : list ((cell * cell) * nat))
  | VInt (n : nat)
  | VTable (t : list ((cell * cell) * list cell))
  | VShares (g : list (list cell * cell)).

Record notebook : Type := mkNotebook {
  heap : list DataFrame;
  globals : gmap string value;
  engine : list string
}.

(** A piece of notebook code: it changes the state and returns or raises.
    What was done before an exception stays done. *)
Definition Py (A : Type) : Type := notebook → notebook * result A.

#[global] Instance Py_ret : MRet Py := λ A a nb, (nb, Ok a).
#[global] Instance Py_bind : MBind Py := λ A B f m nb,
  match m nb with
  | (nb', Ok a) => f a nb'
  | (nb', Raise e) => (nb', Raise e)
  end.

Definition lift {A} (r : result A) : Py A := λ nb, (nb, r).

Definition get_var (x : string) : Py value := λ nb,
  (nb, match globals nb !! x with
       | Some v => Ok v
       | None => Raise (NameError x)
       end).

Definition set_var (x : string) (v : value) : Py unit := λ nb,
  ({| heap := heap nb; globals := <[x:=v]> (globals nb); engine := engine nb |}, Ok tt).

(** The DataFrame a name is bound to, with its reference. *)
Definition frame_var (x : string) : Py (nat * DataFrame) := λ nb,
  (nb, match globals nb !! x with
       | Some (VFrame l) =>
           match heap nb !! l with
           | Some df => Ok (l, df)
           | None => Raise (NameError x)
           end
       | Some _ => Raise TypeError
       | None => Raise (NameError x)
       end).

(** A new DataFrame object. *)
Definition new_frame (df : DataFrame) : Py nat := λ nb,
  ({| heap := heap nb ++ [df]; globals := globals nb; engine := engine nb |},
   Ok (length (heap nb))).

(** A DataFrame object changed in place. *)
Definition store (l : nat) (df : DataFrame) : Py unit := λ nb,
  ({| heap := <[l:=df]> (heap nb); globals := globals nb; engine := engine nb |}, Ok tt).

(** A call into the Spark engine. *)
Definition spark_call (what : string) : Py unit := λ nb,
  ({| heap := heap nb; globals := globals nb; engine := engine nb ++ [what] |}, Ok tt).

(** [df[target] = f(df[source])] as a function of the frame's contents. *)
Definition assign_frame (target source : string) (f : Series → result Series)
    (df : DataFrame) : result DataFrame :=
  s ← getitem df source;
  s' ← f s;
  setitem df target s'.

(** [x[target] = f(x[source])], on the object [x] is bound to. *)
Definition assign_column (x target source : string) (f : Series → result Series) : Py unit :=
  '(l, df) ← frame_var x;
  df' ← lift (assign_frame target source f df);
  store l df'.

Definition update_column (x name : string) (f : Series → result Series) : Py unit :=
  assign_column x name name f.

(** [x = df]: a new object, bound to the name [x]. *)
Definition bind_frame (x : string) (df : DataFrame) : Py unit :=
  l ← new_frame df;
  set_var x (VFrame l).

(** A cell that only prints or plots: it reads columns of a bound frame and
    leaves the state as it is. *)
Definition display (x : string) (names : list string) : Py unit :=
  '(_, df) ← frame_var x;
  _ ← lift (traverse (getitem df) names);
  mret tt.

(** *** The cells, in notebook order *)
Section cells.
Context (w : World).

(** The settings a user fills in; empty in the repository. *)
Definition CREDENTIALS_PATH : string := "".
Definition ZOS_SYSTEM : string := "".
Definition DATASET_NAME : string := "".
Definition SMF110_PATH : string := "".

(** [[3]] [spark = SparkSession.builder...getOrCreate()]. *)
Definition cell_session : Py unit :=
  spark_call "getOrCreate";;
  set_var "spark" VSession.

(** [[4]] [get_credentials] and [password = get_credentials()]. *)
Definition get_credentials : result string :=
  password ← open_readline w CREDENTIALS_PATH;
  mret password.

Definition cell_credentials : Py unit :=
  password ← lift get_credentials;
  set_var "password" (VStr password).

(** [[5]] [get_smf_data] and the pull of the two sections. *)
Definition get_smf_data (dbtable : string) : Py SparkTable :=
  _ ← get_var "spark";
  pw ← get_var "password";
  password ← lift (match pw with VStr s => Ok s | _ => Raise TypeError end);
  spark_call "load";;
  lift (jdbc_load w
          ("jdbc:rs:dv://" +:+ ZOS_SYSTEM +:+
           ";DBTY=DVS;user=PROVIDE-USERNAME-HERE;password=" +:+ password)
          dbtable).

Definition source_columns : list string :=
  ["SMFMNSPN"; "TRAN"; "TRANNUM"; "SMF_SID"; "USRCPUT_TIMER"; "USRCPUT_FLAG";
   "USRCPUT_COUNT"; "SMFMNRSD"; "SMFMNRST"; "DB2REQCT"; "WMQREQCT"].

Definition cell_spark_extract : Py unit :=
  cics_section ← get_smf_data ("SMF_1100P_PERFORMANCE__" +:+ DATASET_NAME);
  product_section ← get_smf_data ("SMF_1100P__" +:+ DATASET_NAME);
  spark_call "join";;
  joined_df ← lift (spark_join cics_section product_section "PARENT_KEY" "CHILD_KEY");
  spark_call "select";;
  filtered_df ← lift (spark_select joined_df source_columns);
  spark_call "limit";;
  spark_call "toPandas";;
  bind_frame "smf110_df" (toPandas (spark_limit 80000 filtered_df)).

(** [[6]] The JSON extraction. *)
Definition cell_json_extract : Py unit :=
  df ← lift (pd_read_json w SMF110_PATH);
  bind_frame "smf110_df" df;;
  update_column "smf110_df" "SMFMNRST" (series_apply (to_datetime_ms w)).

(** [[7]] Data cleaning: the casts, the deep copy, the CICS filter. *)
Definition cics_filter (df : DataFrame) : result DataFrame :=
  s ← getattr df "SMFMNSPN";
  m ← str_contains (contains "CICS") s;
  getitem_bool df (eq_True m).

Definition cell_clean : Py unit :=
  update_column "smf110_df" "TRANNUM" (series_apply (astype_int w));;
  update_column "smf110_df" "USRCPUT_TIMER" (series_apply (astype_float w));;
  update_column "smf110_df" "USRCPUT_COUNT" (series_apply (astype_int w));;
  '(_, df) ← frame_var "smf110_df";
  bind_frame "orig_smf110_df" (copy_deep df);;
  '(_, df) ← frame_var "smf110_df";
  df' ← lift (cics_filter df);
  bind_frame "smf110_df" df'.

(** [[8]] to [[11]]: the regions, the totals, [describe], the histogram. *)
Definition cell_regions : Py unit :=
  '(_, df) ← frame_var "orig_smf110_df";
  _ ← lift (getattr df "SMFMNSPN");
  mret tt.

Definition cell_totals : Py unit :=
  display "smf110_df" ["USRCPUT_TIMER"; "USRCPUT_TIMER"; "DB2REQCT"; "WMQREQCT"].

Definition cell_describe : Py unit := display "smf110_df" [].

Definition cell_hist : Py unit := display "smf110_df" ["USRCPUT_TIMER"].

(** [[12]] [cics_run_per_region = smf110_df['SMFMNSPN'].value_counts()]. *)
Definition cell_runs_per_region : Py unit :=
  '(_, df) ← frame_var "smf110_df";
  s ← lift (getitem df "SMFMNSPN");
  set_var "cics_run_per_region" (VCounts (value_counts s));;
  display "smf110_df" ["SMF_SID"].

(** [[13]] [cpu_time_per_region =
    smf110_df.groupby(['SMFMNSPN'])['USRCPUT_TIMER'].sum()]. *)
Definition cpu_time_per_region_of (df : DataFrame) : result (list (list cell * float)) :=
  recs ← records df ["SMFMNSPN"] "USRCPUT_TIMER";
  groupby_sum recs.

Definition cell_cpu_time_per_region : Py unit :=
  '(_, df) ← frame_var "smf110_df";
  g ← lift (cpu_time_per_region_of df);
  set_var "cpu_time_per_region" (VGrouped g);;
  display "smf110_df" ["SMF_SID"].

(** [[14]], [[15]] The most frequent transactions of one region. *)
Definition cell_top_transactions : Py unit :=
  display "smf110_df" ["SMFMNSPN"; "TRAN"].

(** [[16]] The transactions and regions of interest. *)
Definition cell_filter_tran : Py unit :=
  '(_, df) ← frame_var "smf110_df";
  t ← lift (getitem df "TRAN");
  m ← lift (str_contains tran_pattern t);
  f ← lift (getitem_bool df m);
  bind_frame "smf110_filtered_tran_df" f;;
  '(_, f) ← frame_var "smf110_filtered_tran_df";
  '(_, df) ← frame_var "smf110_df";
  s ← lift (getitem df "SMFMNSPN");
  m ← lift (str_contains region_pattern s);
  f' ← lift (getitem_bool f m);
  bind_frame "smf110_filtered_tran_df" f'.

(** [[17]], [[18]] [smf110_filtered_tran_df.TRAN.unique()] and
    [.SMFMNSPN.unique()]. *)
Definition cell_unique (name : string) : Py unit :=
  '(_, df) ← frame_var "smf110_filtered_tran_df";
  _ ← lift (getattr df name);
  mret tt.

(** [[19]] [cpu_time_per_trans = smf110_filtered_tran_df
    .groupby(['TRAN', 'SMF_SID'])['USRCPUT_TIMER'].sum().unstack()]. *)
Definition cpu_time_per_trans_of (df : DataFrame) : result PivotTable :=
  _ ← traverse (require_column df) ["TRAN"; "SMF_SID"; "USRCPUT_TIMER"];
  pivot agg_sum
    (fmap (λ r, ((tuple_of_row ["TRAN"] r, cell_of_row "SMF_SID" r),
                cell_of_row "USRCPUT_TIMER" r)) (rows df)).

Definition cell_cpu_time_per_trans : Py unit :=
  '(_, df) ← frame_var "smf110_filtered_tran_df";
  p ← lift (cpu_time_per_trans_of df);
  set_var "cpu_time_per_trans" (VPivot p).

(** [[20]] The transaction rate per region and system. *)
Definition trans_rate_pivot (df : DataFrame) : result PivotTable :=
  sub ← getitem_list df ["SMF_SID"; "SMFMNSPN"; "DATETIME_SECOND"; "TRAN"];
  pivot agg_len
    (fmap (λ r, ((tuple_of_row ["SMF_SID"; "SMFMNSPN"; "DATETIME_SECOND"] r,
                 cell_of_row "TRAN" r), Null)) (rows sub)).

Definition cell_trans_rate : Py unit :=
  assign_column "smf110_filtered_tran_df" "DATETIME_SECOND" "SMFMNRST"
    (series_apply second_of);;
  '(_, df) ← frame_var "smf110_filtered_tran_df";
  p ← lift (trans_rate_pivot df);
  set_var "trans_rate_per_region" (VPivot p);;
  let p := fillna0 p in
  set_var "trans_rate_per_region" (VPivot p);;
  let sys_id := level 0 p in
  set_var "sys_id" (VLabels sys_id);;
  let cics_regions := get_level_values 1 p in
  set_var "cics_regions" (VLabels cics_regions);;
  let num_days_cics_regions := count_regions sys_id cics_regions in
  set_var "num_days_cics_regions" (VDict num_days_cics_regions);;
  r ← lift (rate_loop p num_days_cics_regions);
  set_var "start_ind" (VInt r.1);;
  set_var "cics_trans_df" (VTable r.2).

(** [[21]] The share of CPU time per region and system. *)
Definition cpu_sum_per_region_of (df : DataFrame) : result (list (list cell * float)) :=
  sub ← getitem_list df ["SMF_SID"; "SMFMNSPN"; "USRCPUT_TIMER"];
  recs ← records sub ["SMF_SID"; "SMFMNSPN"] "USRCPUT_TIMER";
  groupby_sum recs.

Definition total_cpu_of (orig : DataFrame) : result float :=
  s ← getitem orig "USRCPUT_TIMER";
  nansum s.*2.

Definition cell_cpu_percentage : Py unit :=
  '(_, df) ← frame_var "smf110_filtered_tran_df";
  g ← lift (cpu_sum_per_region_of df);
  set_var "cpu_percentage_per_region" (VGrouped g);;
  '(_, orig) ← frame_var "orig_smf110_df";
  total ← lift (total_cpu_of orig);
  set_var "cpu_percentage_per_region"
    (VShares (fmap (λ kv, (kv.1, true_divide kv.2 total)) g)).

(** The cells below the data-cleaning cell. *)
Definition analysis_cells : list (Py unit) :=
  [cell_regions; cell_totals; cell_describe; cell_hist; cell_runs_per_region;
   cell_cpu_time_per_region; cell_top_transactions; cell_top_transactions;
   cell_filter_tran; cell_unique "TRAN"; cell_unique "SMFMNSPN";
   cell_cpu_time_per_trans; cell_trans_rate; cell_cpu_percentage].

(** Cells run one after the other; an exception stops the run. *)
Fixpoint run (cells : list (Py unit)) : Py unit :=
  match cells with
  | [] => mret tt
  | c :: cells' => c;; run cells'
  end.

End cells.

(** The DataFrame a name refers to. *)
Definition frame_of (nb : notebook) (x : string) : option DataFrame :=
  match globals nb !! x with
  | Some (VFrame l) => heap nb !! l
  | _ => None
  end.

Definition empty_notebook : notebook :=
  {| heap := []; globals := ∅; engine := [] |}.

(** *** Reasoning about cells

    [wp m nb Q R]: run from [nb], [m] either returns [a] in a state with
    [Q a], or raises in a state with [R]. *)
Definition wp {A} (m : Py A) (nb : notebook) (Q : A → notebook → Prop)
    (R : notebook → Prop) : Prop :=
  match m nb with
  | (nb', Ok a) => Q a nb'
  | (nb', Raise _) => R nb'
  end.

(** *** What the analysis cells may do to the state

    The three names bound to DataFrames, and the two whose frames derive
    from the copy kept in [orig_smf110_df]. *)
Definition frame_names : list string :=
  ["orig_smf110_df"; "smf110_df"; "smf110_filtered_tran_df"].

Definition derived_names : list string :=
  ["smf110_df"; "smf110_filtered_tran_df"].

(** [F] keeps, of every source column that [T] has, a part of its labelled
    cells, in order. *)
Definition subframe (F T : DataFrame) : Prop :=
  ∀ c, c ∈ source_columns → c ∈ columns T →
    c ∈ columns F ∧ column_values F c `sublist_of` column_values T c.

(** [F'] has every source column of [F] as [F] has it. *)
Definition extends (F' F : DataFrame) : Prop :=
  ∀ c, c ∈ source_columns → c ∈ columns F →
    c ∈ columns F' ∧ column_values F' c = column_values F c.

Definition is_frame (v : value) : Prop :=
  match v with
  | VFrame _ => True
  | _ => False
  end.

(** One change of state: a result bound to a name that is none of the
    frames'; [smf110_filtered_tran_df] bound to a new object, rows selected
    from a derived frame; the object of [smf110_filtered_tran_df] given
    another column. *)
Inductive effect : notebook → notebook → Prop :=
  | effect_set nb x v :
      x ∉ frame_names → ¬ is_frame v →
      effect nb
        {| heap := heap nb; globals := <[x:=v]> (globals nb); engine := engine nb |}
  | effect_derive nb x G F :
      x ∈ derived_names → frame_of nb x = Some G → subframe F G →
      effect nb
        {| heap := heap nb ++ [F];
           globals := <["smf110_filtered_tran_df":=VFrame (length (heap nb))]> (globals nb);
           engine := engine nb |}
  | effect_mutate nb l F F' :
      globals nb !! "smf110_filtered_tran_df" = Some (VFrame l) →
      heap nb !! l = Some F → extends F' F →
      effect nb
        {| heap := <[l:=F']> (heap nb); globals := globals nb; engine := engine nb |}.

(** No name refers to an object that does not exist. *)
Definition wf_notebook (nb : notebook) : Prop :=
  ∀ x l, globals nb !! x = Some (VFrame l) → l < length (heap nb).

(** [orig_smf110_df] is bound to an object of its own, which holds [T0]. *)
Definition orig_is (T0 : DataFrame) (nb : notebook) : Prop :=
  wf_notebook nb ∧
  ∃ lo, globals nb !! "orig_smf110_df" = Some (VFrame lo) ∧
        heap nb !! lo = Some T0 ∧
        ∀ x l, globals nb !! x = Some (VFrame l) → x ≠ "orig_smf110_df" → l ≠ lo.

(** The derived frames are parts of [T0]. *)
Definition derived_from (T0 : DataFrame) (nb : notebook) : Prop :=
  ∀ x F, x ∈ derived_names → frame_of nb x = Some F → subframe F T0.

(** *** Column types *)
Definition is_int (c : cell) : Prop :=
  match c with
  | Int _ => True
  | _ => False
  end.

(** float64: a number or NaN. *)
Definition is_float (c : cell) : Prop :=
  match c with
  | Float _ | Null => True
  | _ => False
  end.

(** datetime64: a timestamp or NaT. *)
Definition is_datetime (c : cell) : Prop :=
  match c with
  | Datetime _ | Null => True
  | _ => False
  end.

Definition column_holds (P : cell → Prop) (df : DataFrame) (name : string) : Prop :=
  name ∈ columns df ∧ Forall P (column_values df name).*2.

Definition cast_types (df : DataFrame) : Prop :=
  column_holds is_int df "TRANNUM" ∧
  column_holds is_float df "USRCPUT_TIMER" ∧
  column_holds is_int df "USRCPUT_COUNT".

Definition typed (df : DataFrame) : Prop :=
  cast_types df ∧ column_holds is_datetime df "SMFMNRST".

(** A run that changes the state by [effect] steps only, whether it
    returns or raises. *)
Definition effects_only (nb0 : notebook) (m : Py unit) (nb : notebook) : Prop :=
  wp m nb (λ _ nb', rtc effect nb0 nb') (λ nb', rtc effect nb0 nb').

(** *** Reading the frames *)

(** The row filter of the data-cleaning cell: SMFMNSPN is a string that
    contains ["CICS"]. *)
Definition has_cics (r : Z * gmap string cell) : bool :=
  match cell_of_row "SMFMNSPN" r with
  | Str s => contains "CICS" s
  | _ => false
  end.

(** What a cell adds to a sum of floats: its number, nothing for NaN. *)
Definition cell_float (c : cell) : option float :=
  match c with
  | Bool b => Some (float_of_Z (if b then 1 else 0))
  | Int z => Some (float_of_Z z)
  | Float f => Some f
  | _ => None
  end.

(** The CPU times of rows, in their order, without the missing ones. *)
Definition timers (rs : list (Z * gmap string cell)) : list float :=
  omap (λ r, cell_float (cell_of_row "USRCPUT_TIMER" r)) rs.

(** The sum of rationals, and the exact sum of finite floats. *)
Definition Qsum (l : list Q) : Q := foldr Qplus 0%Q l.

Definition exact_sum (l : list float) : Q := Qsum (Q_of_float <$> l).

(** The casts of the data-cleaning cell, as a function of the frame. *)
Definition cast_frame (w : World) (df : DataFrame) : result DataFrame :=
  df ← assign_frame "TRANNUM" "TRANNUM" (series_apply (astype_int w)) df;
  df ← assign_frame "USRCPUT_TIMER" "USRCPUT_TIMER" (series_apply (astype_float w)) df;
  assign_frame "USRCPUT_COUNT" "USRCPUT_COUNT" (series_apply (astype_int w)) df.

(** *** Sample data

    Six records of two systems: three of region CICS3AAB on S1, two of
    region CICS6AAA and one of a region that is not CICS on S2; the last
    record's transaction is not one of interest. *)
Definition sample_row (label : Z) (sid spn tran : string) (timer : float) (ms : Z)
    : Z * gmap string cell :=
  (label,
   list_to_map
     [("SMFMNSPN", Str spn); ("TRAN", Str tran); ("TRANNUM", Int label);
      ("SMF_SID", Str sid); ("USRCPUT_TIMER", Float timer); ("USRCPUT_FLAG", Int 0);
      ("USRCPUT_COUNT", Int 1); ("SMFMNRSD", Int 0); ("SMFMNRST", Int ms);
      ("DB2REQCT", Int 0); ("WMQREQCT", Int 0)]).

Definition sample_frame : DataFrame :=
  {| columns := source_columns;
     rows := [sample_row 0 "S1" "CICS3AAB" "Y195" (f64 1 2) 1000;
              sample_row 1 "S1" "CICS3AAB" "Y195" (f64 1 4) 1500;
              sample_row 2 "S1" "CICS3AAB" "Y295" (f64 1 4) 2000;
              sample_row 3 "S2" "CICS6AAA" "XMAP" (f64 1 1) 1000;
              sample_row 4 "S2" "DB2XPROD" "Y195" (f64 2 1) 1000;
              sample_row 5 "S2" "CICS6AAA" "ZZZZ" (f64 3 1) 1000] |}.


(** A file without USRCPUT_FLAG and SMFMNRSD, and with a column of its own. *)
Definition other_frame : DataFrame :=
  {| columns := ["SMFMNSPN"; "TRAN"; "TRANNUM"; "SMF_SID"; "USRCPUT_TIMER";
                 "USRCPUT_COUNT"; "SMFMNRST"; "DB2REQCT"; "WMQREQCT"; "JOBNAME"];
     rows := [(0%Z, list_to_map
                    [("SMFMNSPN", Str "CICS3AAB"); ("TRAN", Str "Y195"); ("TRANNUM", Int 7);
                     ("SMF_SID", Str "S1"); ("USRCPUT_TIMER", Float (f64 1 1));
                     ("USRCPUT_COUNT", Int 1); ("SMFMNRST", Int 1000);
                     ("DB2REQCT", Int 0); ("WMQREQCT", Int 0); ("JOBNAME", Str "J1")])] |}.

Definition sample_cics_section : SparkTable :=
  {| s_columns := ["PARENT_KEY"; "TRAN"; "TRANNUM"; "USRCPUT_TIMER"; "USRCPUT_FLAG";
                   "USRCPUT_COUNT"; "DB2REQCT"; "WMQREQCT"];
     s_rows := [[Int 1; Str "Y195"; Int 10; Float (f64 1 2); Int 0; Int 1; Int 0; Int 0];
                [Int 2; Str "XMAP"; Int 11; Float (f64 1 1); Int 0; Int 1; Int 2; Int 0];
                [Int 3; Str "Y295"; Int 12; Float (f64 1 1); Int 0; Int 1; Int 0; Int 0]] |}.

Definition sample_product_section : SparkTable :=
  {| s_columns := ["CHILD_KEY"; "SMFMNSPN"; "SMF_SID"; "SMFMNRSD"; "SMFMNRST"];
     s_rows := [[Int 1; Str "CICS3AAB"; Str "S1"; Int 0; Datetime 1000];
                [Int 2; Str "CICS6AAA"; Str "S2"; Int 0; Datetime 2000]] |}.

(** A world whose JSON file holds [file]. *)
Definition world_of (file : DataFrame) : World :=
  {| open_readline := λ _, Ok "secret";
     pd_read_json := λ _, Ok file;
     jdbc_load := λ _ dbtable,
       if String.eqb dbtable "SMF_1100P_PERFORMANCE__" then Ok sample_cics_section
       else if String.eqb dbtable "SMF_1100P__" then Ok sample_product_section
       else Raise (Py4JJavaError dbtable);
     py_int := λ _, None;
     py_float := λ _, None |}.

Definition sample_world : World := world_of sample_frame.

(** The state in which the Spark extraction can run. *)
Definition spark_ready : notebook :=
  (run [cell_session; cell_credentials sample_world] empty_notebook).1.

(** The JSON extraction, the data-cleaning cell and every analysis cell, from
    a fresh kernel. *)
Definition run_all (w : World) : notebook * result unit :=
  run (cell_json_extract w :: cell_clean w :: analysis_cells) empty_notebook.

(** The states of the sample run: after the JSON extraction, after the
    data-cleaning cell, after every analysis cell but the last. *)
Definition sample_loaded : notebook :=
  (cell_json_extract sample_world empty_notebook).1.

Definition sample_cleaned : notebook :=
  (cell_clean sample_world sample_loaded).1.


(** The frame the CICS filter leaves of the sample, its grouped sums, and
    the frame of the transactions of interest. *)
Definition sample_cics : DataFrame :=
  {| columns := source_columns; rows := List.filter has_cics (rows sample_frame) |}.

Definition sample_sums : list (list cell * float) :=
  Eval vm_compute in
    match cpu_time_per_region_of sample_cics with
    | Ok g => g
    | Raise _ => []
    end.

Definition sample_of_interest : DataFrame :=
  Eval vm_compute in
    default sample_frame
      (frame_of (run analysis_cells sample_cleaned).1 "smf110_filtered_tran_df").

(** The pivot table of the sample: one row per system, region and second,
    one column per transaction type. *)
Definition sample_pivot : PivotTable :=
  {| p_columns := [Str "XMAP"; Str "Y195"; Str "Y295"];
     p_rows := [([Str "S1"; Str "CICS3AAB"; Int 1], [Float (f64 0 1); Float (f64 2 1); Float (f64 0 1)]);
                ([Str "S1"; Str "CICS3AAB"; Int 2], [Float (f64 0 1); Float (f64 0 1); Float (f64 1 1)]);
                ([Str "S2"; Str "CICS6AAA"; Int 1], [Float (f64 1 1); Float (f64 0 1); Float (f64 0 1)])] |}.

(** A pivot table of one system with two regions. *)
Definition one_system_pivot : PivotTable :=
  {| p_columns := [Str "XMAP"; Str "Y195"];
     p_rows := [([Str "S1"; Str "CICS3AAB"; Int 1], [Float (f64 0 1); Float (f64 2 1)]);
                ([Str "S1"; Str "CICS3AAB"; Int 2], [Float (f64 0 1); Float (f64 1 1)]);
                ([Str "S1"; Str "CICS6AAA"; Int 1], [Float (f64 3 1); Float (f64 0 1)])] |}.

(** A world without a credentials file. *)
Definition locked_world : World :=
  {| open_readline := λ path, Raise (OSError path);
     pd_read_json := λ path, Raise (OSError path);
     jdbc_load := λ _ dbtable, Raise (Py4JJavaError dbtable);
     py_int := λ _, None;
     py_float := λ _, None |}.

(** *** More of the analysis cells, as functions of the frame they read *)

(** [series == x] for a string [x]. *)
Definition eq_str (x : string) (s : Series) : Series :=
  fmap (λ p, (p.1, Bool (bool_decide (p.2 = Str x)))) s.

(** [[14]], [[15]]
    [smf110_df[smf110_df['SMFMNSPN'] == region]['TRAN'].value_counts().head(5)]. *)
Definition top_transactions_of (region : string) (df : DataFrame)
    : result (list (cell * nat)) :=
  s ← getitem df "SMFMNSPN";
  sub ← getitem_bool df (eq_str region s);
  t ← getitem sub "TRAN";
  mret (take 5 (value_counts t)).

Definition returns {A} (r : result A) : Prop :=
  match r with
  | Ok _ => True
  | Raise _ => False
  end.

(** The cell a conversion gives, NaN where it raises. *)
Definition cast_of (f : cell → result cell) (c : cell) : cell :=
  match f c with
  | Ok c' => c'
  | Raise _ => Null
  end.

(** A number that is not NaN. *)
Definition is_number (c : cell) : Prop :=
  match c with
  | Int _ | Float _ => True
  | _ => False
  end.

Definition is_str (c : cell) : Prop :=
  match c with
  | Str _ => True
  | _ => False
  end.



(** The columns of [t] that the name [name] can stand for. *)
Definition named (t : SparkTable) (name : string) (j : nat) : Prop :=
  ∃ c, s_columns t !! j = Some c ∧ same_name c name = true.

(** The name [x] is bound to the object [l], no other name is, and the
    object holds [T]. *)
Definition bound_at (x : string) (l : nat) (T : DataFrame) (nb : notebook) : Prop :=
  wf_notebook nb ∧
  globals nb !! x = Some (VFrame l) ∧ heap nb !! l = Some T ∧
  ∀ y l', globals nb !! y = Some (VFrame l') → y ≠ x → l' ≠ l.

(** Rows that come in blocks: a block has one key and the values of its
    rows, in order. *)
Definition rows_of_blocks {K V} (bl : list (K * list V)) : list (K * V) :=
  bl ≫= λ b, (λ v, (b.1, v)) <$> b.2.

(** *** More sample data *)

(** The frame [smf110_df] of the sample after the data-cleaning cell. *)
Definition sample_smf110 : DataFrame :=
  Eval vm_compute in default sample_frame (frame_of sample_cleaned "smf110_df").

(** A frame with a record that has no transaction name, and a kernel in
    which [smf110_df] is bound to it. *)
Definition nameless_frame : DataFrame :=
  {| columns := source_columns;
     rows := [sample_row 0 "S1" "CICS3AAB" "Y195" (f64 1 1) 1000;
              (1%Z, <["TRAN":=Null]> (sample_row 1 "S1" "CICS3AAB" "" (f64 1 1) 1000).2)] |}.

Definition nameless_loaded : notebook :=
  (bind_frame "smf110_df" nameless_frame empty_notebook).1.

(** The frame of the sample as the JSON extraction leaves it. *)
Definition sample_extracted : DataFrame :=
  Eval vm_compute in default sample_frame (frame_of sample_loaded "smf110_df").

(** The table [cpu_time_per_trans] of the sample. *)
Definition sample_per_trans : PivotTable :=
  Eval vm_compute in
    match cpu_time_per_trans_of sample_of_interest with
    | Ok p => p
    | Raise _ => mkPivotTable [] []
    end.

(** A file without the column SMFMNRST. *)
Definition stampless_frame : DataFrame :=
  {| columns := ["SMFMNSPN"; "TRAN"];
     rows := [(0%Z, list_to_map [("SMFMNSPN", Str "CICS3AAB"); ("TRAN", Str "Y195")])] |}.

(** The sample on the Spark path: after the extraction, and after the
    data-cleaning cell. *)
Definition spark_loaded : notebook :=
  (cell_spark_extract sample_world spark_ready).1.

Definition spark_cleaned : notebook :=
  (cell_clean sample_world spark_loaded).1.

(** The sample before the transaction-rate cell. *)
Definition before_trans_rate : notebook :=
  (run [cell_regions; cell_totals; cell_describe; cell_hist; cell_runs_per_region;
        cell_cpu_time_per_region; cell_top_transactions; cell_top_transactions;
        cell_filter_tran; cell_unique "TRAN"; cell_unique "SMFMNSPN";
        cell_cpu_time_per_trans] sample_cleaned).1.

(** Records of one system in two regions, with timestamps, and a kernel in
    which [smf110_filtered_tran_df] is bound to them. *)
Definition one_system_frame : DataFrame :=
  {| columns := source_columns;
     rows := [(0%Z, <["SMFMNRST":=Datetime 1000]> (sample_row 0 "S1" "CICS6AAA" "XMAP" (f64 1 1) 0).2);
              (1%Z, <["SMFMNRST":=Datetime 1500]> (sample_row 1 "S1" "CICS3AAB" "Y195" (f64 1 1) 0).2);
              (2%Z, <["SMFMNRST":=Datetime 2000]> (sample_row 2 "S1" "CICS3AAB" "Y195" (f64 1 1) 0).2);
              (3%Z, <["SMFMNRST":=Datetime 61000]> (sample_row 3 "S1" "CICS3AAB" "Y295" (f64 1 1) 0).2)] |}.

Definition one_system_ready : notebook :=
  (bind_frame "smf110_filtered_tran_df" one_system_frame empty_notebook).1.

(** Three records of two regions whose CPU times, 0.1, 0.4 and 0.1, add up
    differently in float64 by region and in row order. *)
Definition rounding_frame : DataFrame :=
  {| columns := source_columns;
     rows := [sample_row 0 "S1" "CICS3AAB" "Y195" (f64 1 10) 1000;
              sample_row 1 "S1" "CICS6AAA" "XMAP" (f64 4 10) 1000;
              sample_row 2 "S1" "CICS3AAB" "Y295" (f64 1 10) 2000] |}.




(** Frames whose SMFMNSPN, or whose TRAN, holds numbers, and kernels in
    which [smf110_df] is bound to them. *)
Definition numeric_region_frame : DataFrame :=
  {| columns := source_columns;
     rows := [(0%Z, <["SMFMNSPN":=Int 3]> (sample_row 0 "S1" "" "Y195" (f64 1 1) 1000).2);
              (1%Z, <["SMFMNSPN":=Int 6]> (sample_row 1 "S1" "" "XMAP" (f64 1 1) 1000).2)] |}.

Definition numeric_region_loaded : notebook :=
  (bind_frame "smf110_df" numeric_region_frame empty_notebook).1.

Definition numeric_tran_frame : DataFrame :=
  {| columns := source_columns;
     rows := [(0%Z, <["TRAN":=Int 195]> (sample_row 0 "S1" "CICS3AAB" "" (f64 1 1) 1000).2);
              (1%Z, <["TRAN":=Int 295]> (sample_row 1 "S1" "CICS3AAB" "" (f64 1 1) 1000).2)] |}.

Definition numeric_tran_loaded : notebook :=
  (bind_frame "smf110_df" numeric_tran_frame empty_notebook).1.

End SMF110.

(** * Theorems *)

(** ** Python dictionaries *)
Section pydict_facts.
Context {K V : Type} `{EqDecision K}.

Lemma dict_get_set_eq (d : list (K * V)) (k : K) (v dflt : V) : dict_get (dict_set d k v) k dflt = v.
Proof.
  induction d as [|[k' v'] d IH]; simpl.
  - by rewrite decide_True.
  - destruct (decide (k' = k)) as [->|Hne]; simpl.
    + by rewrite decide_True.
    + by rewrite decide_False.
Qed.

Lemma dict_get_set_ne (d : list (K * V)) (k k' : K) (v dflt : V) :
  k ≠ k' → dict_get (dict_set d k v) k' dflt = dict_get d k' dflt.
Proof.
  intros Hne. induction d as [|[k0 v0] d IH]; simpl.
  - by rewrite decide_False.
  - destruct (decide (k0 = k)) as [->|Hne0]; simpl.
    + by rewrite !decide_False.
    + destruct (decide (k0 = k')); done.
Qed.

Lemma dict_keys_set (d : list (K * V)) (k : K) (v : V) :
  dict_keys (dict_set d k v) =
    if decide (k ∈ dict_keys d) then dict_keys d else dict_keys d ++ [k].
Proof.
  unfold dict_keys. induction d as [|[k' v'] d IH].
  - rewrite decide_False; [done|]. apply not_elem_of_nil.
  - cbn [dict_set]. rewrite fmap_cons. cbn [fst].
    destruct (decide (k' = k)) as [->|Hne].
    + rewrite decide_True; [done|]. left.
    + rewrite fmap_cons, IH. cbn [fst].
      destruct (decide (k ∈ d.*1)) as [Hin|Hnin].
      * rewrite decide_True; [done|]. by right.
      * rewrite decide_False; [done|].
        intros Hin. apply elem_of_cons in Hin as [->|Hin]; done.
Qed.

Lemma dict_keys_set_NoDup (d : list (K * V)) (k : K) (v : V) :
  NoDup (dict_keys d) → NoDup (dict_keys (dict_set d k v)).
Proof.
  intros Hnd. rewrite dict_keys_set. case_decide; [done|].
  apply NoDup_app. split_and!; [done| |apply NoDup_singleton].
  intros x Hx Hx'. apply list_elem_of_singleton in Hx' as ->. done.
Qed.

Lemma dict_get_elem_of (d : list (K * V)) (k : K) (v dflt : V) :
  NoDup (dict_keys d) → (k, v) ∈ d → dict_get d k dflt = v.
Proof.
  unfold dict_keys. induction d as [|[k' v'] d IH]; simpl; intros Hnd Hin.
  - by apply elem_of_nil in Hin.
  - apply NoDup_cons in Hnd as [Hk' Hnd].
    apply elem_of_cons in Hin as [[= -> ->]|Hin].
    + by rewrite decide_True.
    + rewrite decide_False; [by apply IH|].
      intros ->. apply Hk'. apply list_elem_of_fmap. by exists (k, v).
Qed.
End pydict_facts.

(** ** The word-count notebook *)
Module WordCountFacts.
Import WordCount.

(** *** [split] yields the whitespace-separated tokens *)

Lemma split_go_word s : ∀ tok, tok ≠ [] →
  ∃ w rest, s = w ++ rest ∧ solid w ∧ starts_blank rest ∧
    split_go tok s = (tok ++ w) :: split_go [] rest ∧ length rest ≤ length s.
Proof.
  induction s as [|c s IH]; intros tok Htok.
  - exists [], []. rewrite app_nil_r. destruct tok; [done|].
    split_and!; [done|apply Forall_nil_2|done|by rewrite app_nil_r|done].
  - destruct (isspace c) eqn:Hc.
    + exists [], (c :: s). rewrite app_nil_r. cbn [split_go]. rewrite Hc.
      destruct tok; [done|].
      split_and!; [done|apply Forall_nil_2|done..].
    + destruct (IH (tok ++ [c])) as (w & rest & -> & Hw & Hrest & Heq & Hlen).
      { by destruct tok. }
      exists (c :: w), rest. cbn [split_go]. rewrite Hc, Heq, <-app_assoc.
      split_and!; [done|by apply Forall_cons_2|done..|].
      rewrite !length_cons, !length_app in *. lia.
Qed.

Lemma tokens_of_blank_cons c s toks :
  isspace c = true → tokens_of s toks → tokens_of (c :: s) toks.
Proof.
  intros Hc [s' Hs|pre w rest toks' Hpre Hw Hsolid Hrest Htoks].
  - apply tokens_blank. by constructor.
  - apply (tokens_word (c :: pre)); [by constructor|done..].
Qed.

Lemma split_tokens_of_bounded n : ∀ s, length s ≤ n → tokens_of s (split s).
Proof.
  unfold split. induction n as [|n IH]; intros [|c s] Hlen; simpl in Hlen;
    try (apply tokens_blank; constructor); [lia|].
  cbn [split_go app]. destruct (isspace c) eqn:Hc.
  - apply tokens_of_blank_cons; [done|]. apply IH. lia.
  - destruct (split_go_word s [c]) as (w & rest & -> & Hw & Hrest & -> & Hl); [done|].
    apply (tokens_word [] (c :: w) rest); [constructor|done|by constructor|done|].
    apply IH. rewrite length_app in Hlen. lia.
Qed.

Lemma split_tokens_of s : tokens_of s (split s).
Proof. by apply (split_tokens_of_bounded (length s)). Qed.

(** *** [Counter] counts occurrences *)

Lemma occurrences_cons w x toks :
  occurrences w (x :: toks) = (if decide (x = w) then 1 else 0) + occurrences w toks.
Proof. unfold occurrences. rewrite filter_cons. by case_decide. Qed.

Lemma count_elements_get l : ∀ d w,
  dict_get (count_elements d l) w 0 = dict_get d w 0 + occurrences w l.
Proof.
  unfold count_elements. induction l as [|x l IH]; intros d w; cbn [fold_left].
  - unfold occurrences. simpl. lia.
  - rewrite IH, occurrences_cons. destruct (decide (x = w)) as [->|Hne].
    + rewrite dict_get_set_eq. lia.
    + by rewrite dict_get_set_ne.
Qed.

Lemma count_elements_NoDup l : ∀ d,
  NoDup (dict_keys d) → NoDup (dict_keys (count_elements d l)).
Proof.
  unfold count_elements. induction l as [|x l IH]; intros d Hd; cbn [fold_left]; [done|].
  by apply IH, dict_keys_set_NoDup.
Qed.

Lemma count_elements_keys l : ∀ d w,
  w ∈ dict_keys (count_elements d l) ↔ w ∈ dict_keys d ∨ w ∈ l.
Proof.
  unfold count_elements. induction l as [|x l IH]; intros d w; cbn [fold_left].
  - rewrite elem_of_nil. tauto.
  - rewrite IH, dict_keys_set, elem_of_cons. case_decide as Hx.
    + split; [tauto|]. intros [?|[->|?]]; tauto.
    + rewrite elem_of_app, list_elem_of_singleton. tauto.
Qed.

(** *** [most_common] is a sort by decreasing count *)

Lemma insert_by_count_perm x l : insert_by_count x l ≡ₚ x :: l.
Proof.
  induction l as [|y l IH]; cbn [insert_by_count]; [done|].
  case_match; [|done]. rewrite IH. apply Permutation_swap.
Qed.

Lemma most_common_perm d : most_common d ≡ₚ d.
Proof.
  unfold most_common. induction d as [|x d IH]; cbn [foldr]; [done|].
  by rewrite insert_by_count_perm, IH.
Qed.

Lemma insert_by_count_sorted x l :
  StronglySorted (λ a b, b.2 ≤ a.2) l →
  StronglySorted (λ a b, b.2 ≤ a.2) (insert_by_count x l).
Proof.
  induction 1 as [|y l Hl IH Hy]; cbn [insert_by_count].
  - repeat constructor.
  - destruct (x.2 <? y.2) eqn:Hlt.
    + apply Nat.ltb_lt in Hlt. constructor; [done|].
      rewrite insert_by_count_perm. constructor; [lia|done].
    + apply Nat.ltb_ge in Hlt. constructor; [by constructor|].
      constructor; [done|]. eapply Forall_impl; [exact Hy|]. simpl. lia.
Qed.

Lemma most_common_sorted d : StronglySorted (λ a b, b.2 ≤ a.2) (most_common d).
Proof.
  unfold most_common. induction d as [|x d IH]; cbn [foldr]; [constructor|].
  by apply insert_by_count_sorted.
Qed.

Lemma sorted_non_increasing l :
  StronglySorted (λ a b, b.2 ≤ a.2) l → non_increasing l.
Proof.
  induction 1 as [|a l Hl IH Ha]; intros i j x y Hij Hi Hj.
  - by rewrite lookup_nil in Hi.
  - destruct j as [|j]; [lia|]. cbn in Hj. destruct i as [|i]; cbn in Hi.
    + injection Hi as <-. rewrite Forall_forall in Ha. apply Ha.
      by eapply list_elem_of_lookup_2.
    + eapply (IH i j); [lia|done..].
Qed.

(** C7.  For every input text (the lines of [df['text']]): the tokens that
    [split] finds in the space-joined text are its whitespace-separated
    tokens; every pair of [word_c] carries the number of occurrences of its
    word among them; every token has a pair and no word has two; the counts
    never increase along [word_c]. *)
Theorem word_c_correct (text : list str) :
  let toks := split (join (of_string " ") text) in
  tokens_of (join (of_string " ") text) toks ∧
  (∀ w c, (w, c) ∈ word_c text → c = occurrences w toks ∧ w ∈ toks) ∧
  (∀ w, w ∈ toks → (w, occurrences w toks) ∈ word_c text) ∧
  NoDup (word_c text).*1 ∧
  non_increasing (word_c text).
Proof.
  intros toks. unfold word_c. fold toks.
  assert (Hnd : NoDup (dict_keys (Counter toks))).
  { apply count_elements_NoDup. constructor. }
  assert (Hget : ∀ w c, (w, c) ∈ Counter toks → c = occurrences w toks).
  { intros w c Hin. rewrite <-(dict_get_elem_of _ _ _ 0 Hnd Hin).
    unfold Counter. by rewrite count_elements_get. }
  assert (Hkey : ∀ w, w ∈ dict_keys (Counter toks) ↔ w ∈ toks).
  { intros w. unfold Counter. rewrite count_elements_keys. cbn.
    rewrite elem_of_nil. tauto. }
  split_and!.
  - apply split_tokens_of.
  - intros w c Hin. rewrite most_common_perm in Hin. split; [by apply Hget|].
    apply Hkey, list_elem_of_fmap. by exists (w, c).
  - intros w Hw. rewrite most_common_perm. apply Hkey in Hw.
    apply list_elem_of_fmap in Hw as ([w' c] & -> & Hin). cbn [fst].
    by rewrite <-(Hget _ _ Hin).
  - by rewrite most_common_perm.
  - apply sorted_non_increasing, most_common_sorted.
Qed.

(** *** The tokens are unique: [split] is the only tokenisation *)

Lemma split_go_blank pre s : blank pre → split_go [] (pre ++ s) = split_go [] s.
Proof.
  induction 1 as [|c pre Hc _ IH]; [done|]. cbn [app split_go]. by rewrite Hc.
Qed.

Lemma split_go_solid w : ∀ tok rest,
  solid w → starts_blank rest → tok ++ w ≠ [] →
  split_go tok (w ++ rest) = (tok ++ w) :: split_go [] rest.
Proof.
  induction w as [|c w IH]; intros tok rest Hw Hrest Hne.
  - rewrite app_nil_r in *. cbn [app]. destruct rest as [|c rest]; cbn [split_go].
    + by destruct tok.
    + cbn in Hrest. rewrite Hrest. by destruct tok.
  - apply Forall_cons in Hw as [Hc Hw]. cbn [app split_go]. rewrite Hc.
    rewrite IH; [|done..|].
    + by rewrite <-app_assoc.
    + rewrite <-app_assoc. by destruct tok.
Qed.

Lemma tokens_of_split s toks : tokens_of s toks → toks = split s.
Proof.
  unfold split. induction 1 as [s Hs|pre w rest toks Hpre Hw Hsolid Hrest _ IH].
  - rewrite <-(app_nil_r s), split_go_blank by done. done.
  - rewrite split_go_blank, split_go_solid by done. by rewrite IH.
Qed.

(** The cell on a text of two lines. *)
Example word_c_to_be :
  word_c [of_string "to be or"; of_string "not  to be"] =
    [(of_string "to", 2); (of_string "be", 2); (of_string "or", 1); (of_string "not", 1)].
Proof. reflexivity. Qed.

(** *** The statistics cell and the plot lists *)

Lemma word_c_elem text w c :
  (w, c) ∈ word_c text ↔
  w ∈ split (join (of_string " ") text) ∧
  c = occurrences w (split (join (of_string " ") text)).
Proof.
  unfold word_c. set (toks := split _).
  assert (Hnd : NoDup (dict_keys (Counter toks))).
  { apply count_elements_NoDup. constructor. }
  assert (Hkey : ∀ w, w ∈ dict_keys (Counter toks) ↔ w ∈ toks).
  { intros w'. unfold Counter. rewrite count_elements_keys. cbn.
    rewrite elem_of_nil. tauto. }
  rewrite most_common_perm. split.
  - intros Hin. split.
    + apply Hkey, list_elem_of_fmap. by exists (w, c).
    + rewrite <-(dict_get_elem_of _ _ _ 0 Hnd Hin).
      unfold Counter. by rewrite count_elements_get.
  - intros [Hw ->]. apply Hkey in Hw.
    apply list_elem_of_fmap in Hw as ([w' c] & -> & Hin). cbn [fst].
    rewrite <-(dict_get_elem_of _ _ _ 0 Hnd Hin) in Hin.
    unfold Counter in Hin at 1. by rewrite count_elements_get in Hin.
Qed.

Lemma word_c_NoDup text : NoDup (word_c text).*1.
Proof.
  unfold word_c. rewrite most_common_perm.
  apply (count_elements_NoDup _ []). constructor.
Qed.

Lemma dict_set_fresh (d : list (str * nat)) k v :
  k ∉ d.*1 → dict_set d k v = d ++ [(k, v)].
Proof.
  induction d as [|[k' v'] d IH]; [done|]. cbn. intros Hk.
  apply not_elem_of_cons in Hk as [Hne Hk].
  rewrite decide_False by done. by rewrite IH.
Qed.

Lemma dict_of_NoDup_app (l d : list (str * nat)) :
  NoDup (d ++ l).*1 → fold_left (λ d kv, dict_set d kv.1 kv.2) l d = d ++ l.
Proof.
  revert d. induction l as [|[k v] l IH]; intros d Hnd; cbn.
  - by rewrite app_nil_r.
  - rewrite dict_set_fresh.
    + rewrite IH; rewrite <-app_assoc; [done|]. exact Hnd.
    + rewrite fmap_app in Hnd. apply NoDup_app in Hnd as (_ & Hd & _).
      intros Hk. apply (Hd k Hk). left.
Qed.

Lemma dict_of_NoDup l : NoDup l.*1 → dict_of l = l.
Proof. intros Hnd. unfold dict_of. by rewrite dict_of_NoDup_app. Qed.

Lemma dict_getitem_elem (d : list (str * nat)) k v :
  NoDup d.*1 → (k, v) ∈ d → dict_getitem d k = Returns v.
Proof.
  induction d as [|[k' v'] d IH]; cbn; intros Hnd Hin.
  - by apply elem_of_nil in Hin.
  - apply NoDup_cons in Hnd as [Hk' Hnd].
    apply elem_of_cons in Hin as [[= -> ->]|Hin].
    + by rewrite decide_True.
    + rewrite decide_False; [by apply IH|].
      intros ->. apply Hk', list_elem_of_fmap. by exists (k, v).
Qed.

Lemma dict_getitem_missing (d : list (str * nat)) k :
  k ∉ d.*1 → dict_getitem d k = KeyError k.
Proof.
  induction d as [|[k' v'] d IH]; cbn; [done|]. intros Hk.
  apply not_elem_of_cons in Hk as [Hne Hk].
  rewrite decide_False by done. by apply IH.
Qed.

Lemma word_d_lookup text w :
  dict_getitem (dict_of (word_c text)) w =
    if decide (w ∈ split (join (of_string " ") text))
    then Returns (occurrences w (split (join (of_string " ") text)))
    else KeyError w.
Proof.
  rewrite dict_of_NoDup by apply word_c_NoDup.
  case_decide as Hw.
  - apply dict_getitem_elem; [apply word_c_NoDup|]. by apply word_c_elem.
  - apply dict_getitem_missing. intros ([w' c] & -> & Hin)%list_elem_of_fmap.
    by apply word_c_elem in Hin as [? _].
Qed.

(** [dict(word_c)] loses no pair and keeps the order of [most_common()],
    since no token comes twice in it; so [word_d[w]] is the number of times
    the token [w] occurs in the text, and a [KeyError] for a token that does
    not occur. *)
Theorem word_d_getitem text w :
  let toks := split (join (of_string " ") text) in
  dict_of (word_c text) = word_c text ∧
  dict_getitem (dict_of (word_c text)) w =
    if decide (w ∈ toks) then Returns (occurrences w toks) else KeyError w.
Proof.
  intros toks. split.
  - apply dict_of_NoDup, word_c_NoDup.
  - unfold toks. rewrite dict_of_NoDup by apply word_c_NoDup.
    case_decide as Hw.
    + apply dict_getitem_elem; [apply word_c_NoDup|]. by apply word_c_elem.
    + apply dict_getitem_missing. intros ([w' c] & -> & Hin)%list_elem_of_fmap.
      by apply word_c_elem in Hin as [? _].
Qed.

Lemma length_word_c text :
  length (word_c text) = length (remove_dups (split (join (of_string " ") text))).
Proof.
  rewrite <-(length_fmap fst (word_c text)). apply Permutation_length.
  apply NoDup_Permutation; [apply word_c_NoDup|apply NoDup_remove_dups|].
  intros w. rewrite elem_of_remove_dups, list_elem_of_fmap. split.
  - intros ([w' c] & -> & Hin). by apply word_c_elem in Hin as [? _].
  - intros Hw. exists (w, occurrences w (split (join (of_string " ") text))).
    split; [done|]. by apply word_c_elem.
Qed.

(** The statistics cell returns when the tokens [thou], [thee] and [Hamlet]
    all occur in the text, having printed the number of distinct tokens, the
    first ten pairs and the three counts; otherwise it raises [KeyError] for
    the first of the three that is missing, after what it printed before. *)
Theorem cell_stats_outcome text :
  let toks := split (join (of_string " ") text) in
  let out := [unique_words (length (remove_dups toks)); top_header;
              top_words (take 10 (word_c text))] in
  let thou := of_string "thou" in
  let thee := of_string "thee" in
  let Hamlet := of_string "Hamlet" in
  cell_stats (word_c text) =
    if decide (thou ∈ toks) then
      if decide (thee ∈ toks) then
        if decide (Hamlet ∈ toks) then
          (out ++ [thou_thee (occurrences thou toks) (occurrences thee toks);
                   hamlet (occurrences Hamlet toks)], Returns tt)
        else (out ++ [thou_thee (occurrences thou toks) (occurrences thee toks)],
              KeyError Hamlet)
      else (out, KeyError thee)
    else (out, KeyError thou).
Proof.
  intros toks out thou thee Hamlet. unfold cell_stats.
  rewrite !word_d_lookup, length_word_c.
  fold toks thou thee Hamlet.
  repeat case_decide; done.
Qed.

Lemma sum_list_dict_incr (d : list (str * nat)) w :
  sum_list (dict_set d w (dict_get d w 0 + 1)).*2 = sum_list d.*2 + 1.
Proof.
  induction d as [|[k v] d IH]; cbn; [done|].
  destruct (decide (k = w)) as [->|Hne]; cbn; [lia|]. rewrite IH. lia.
Qed.

Lemma sum_list_count_elements l : ∀ d,
  sum_list (count_elements d l).*2 = sum_list d.*2 + length l.
Proof.
  induction l as [|w l IH]; intros d; cbn [count_elements fold_left length]; [lia|].
  unfold count_elements in IH. rewrite IH, sum_list_dict_incr. lia.
Qed.

(** Every token is counted once: the counts of [word_c] add up to the
    number of tokens of the text, and [word_c] has one pair per distinct
    token. *)
Theorem counts_total text :
  let toks := split (join (of_string " ") text) in
  sum_list (word_c text).*2 = length toks ∧
  length (word_c text) = length (remove_dups toks).
Proof.
  intros toks. split; [|apply length_word_c].
  unfold word_c. fold toks.
  rewrite most_common_perm.
  unfold Counter. by rewrite sum_list_count_elements.
Qed.

Lemma word_c_non_increasing text : non_increasing (word_c text).
Proof. apply sorted_non_increasing, most_common_sorted. Qed.

(** The lists of the plot: [words] and [counts] have the same length, ten or
    the number of distinct tokens if that is less; the words are distinct,
    each with its number of occurrences, in non-increasing order; and no
    token left out occurs more often than a token listed. *)
Theorem top_ten_lists text :
  let toks := split (join (of_string " ") text) in
  let wc := word_c text in
  length (words wc) = length (counts wc) ∧
  length (counts wc) = min 10 (length (remove_dups toks)) ∧
  y_pos (counts wc) = seq 0 (min 10 (length (remove_dups toks))) ∧
  NoDup (words wc) ∧
  (∀ i w c, words wc !! i = Some w → counts wc !! i = Some c →
     w ∈ toks ∧ c = occurrences w toks) ∧
  (∀ i j c c', i < j → counts wc !! i = Some c → counts wc !! j = Some c' → c' ≤ c) ∧
  (∀ w c, w ∈ toks → w ∉ words wc → c ∈ counts wc → occurrences w toks ≤ c).
Proof.
  intros toks wc. unfold words, counts, y_pos.
  assert (Hlen : length (take 10 wc) = min 10 (length (remove_dups toks))).
  { rewrite length_take. unfold wc. by rewrite length_word_c. }
  split_and!.
  - by rewrite !length_fmap.
  - by rewrite length_fmap.
  - by rewrite length_fmap, Hlen.
  - rewrite fmap_take. eapply sublist_NoDup; [apply word_c_NoDup|apply sublist_take].
  - intros i w c Hw Hc. rewrite list_lookup_fmap in Hw. rewrite list_lookup_fmap in Hc.
    destruct (take 10 wc !! i) as [[w' c']|] eqn:Hi; [|done].
    injection Hw as <-. injection Hc as <-.
    apply lookup_take_Some in Hi as [Hi _].
    apply list_elem_of_lookup_2 in Hi. by apply word_c_elem in Hi.
  - intros i j c c' Hij Hc Hc'. rewrite list_lookup_fmap in Hc. rewrite list_lookup_fmap in Hc'.
    destruct (take 10 wc !! i) as [x|] eqn:Hi; [|done].
    destruct (take 10 wc !! j) as [y|] eqn:Hj; [|done].
    injection Hc as <-. injection Hc' as <-.
    apply lookup_take_Some in Hi as [Hi _]. apply lookup_take_Some in Hj as [Hj _].
    by apply (word_c_non_increasing text i j x y).
  - intros w c Hw Hnot Hc.
    apply list_elem_of_fmap in Hc as (x & -> & Hx).
    apply list_elem_of_lookup in Hx as [i Hi].
    apply lookup_take_Some in Hi as [Hi Hi10].
    assert (Hin : (w, occurrences w toks) ∈ wc) by by apply word_c_elem.
    apply list_elem_of_lookup in Hin as [k Hk].
    destruct (decide (k < 10)) as [Hk10|Hk10].
    + exfalso. apply Hnot, list_elem_of_fmap. exists (w, occurrences w toks).
      split; [done|]. apply (list_elem_of_lookup_2 _ k).
      by apply lookup_take_Some.
    + apply (word_c_non_increasing text i k x (w, occurrences w toks)); [lia|done..].
Qed.

(** *** Lines and words *)

Lemma split_go_sep x : ∀ tok c s,
  isspace c = true →
  split_go tok (x ++ c :: s) = split_go tok x ++ split_go [] s.
Proof.
  induction x as [|a x IH]; intros tok c s Hc; cbn.
  - rewrite Hc. by destruct tok.
  - destruct (isspace a); [|by apply IH].
    destruct tok; cbn; by rewrite IH.
Qed.

Lemma occurrences_app w l1 l2 :
  occurrences w (l1 ++ l2) = occurrences w l1 + occurrences w l2.
Proof. unfold occurrences. by rewrite filter_app, length_app. Qed.

(** Joining the lines with a space and splitting the result gives the words
    of the first line, then those of the second, and so on: no word spans
    two lines, a line of blanks adds nothing, and a token occurs as often as
    in all lines together. *)
Theorem split_join_lines (lines : list str) :
  split (join (of_string " ") lines) = concat (split <$> lines) ∧
  ∀ w, occurrences w (split (join (of_string " ") lines)) =
       sum_list ((λ line, occurrences w (split line)) <$> lines).
Proof.
  assert (H : split (join (of_string " ") lines) = concat (split <$> lines)).
  { induction lines as [|x [|y rest] IH].
    - done.
    - cbn. by rewrite app_nil_r.
    - change (join (of_string " ") (x :: y :: rest))
        with (x ++ 32%N :: join (of_string " ") (y :: rest)).
      unfold split at 1. rewrite split_go_sep by done.
      rewrite fmap_cons. cbn [concat]. f_equal. exact IH. }
  split; [done|]. intros w. rewrite H. clear H.
  induction lines as [|x lines IH]; [done|].
  rewrite !fmap_cons. cbn [concat sum_list_with]. by rewrite occurrences_app, IH.
Qed.

(** *** Words with the same count *)

Lemma first_seen_ext l : ∀ seen seen',
  (∀ x, x ∈ seen ↔ x ∈ seen') → first_seen seen l = first_seen seen' l.
Proof.
  induction l as [|x l IH]; intros seen seen' Heq; cbn; [done|].
  destruct (decide (x ∈ seen)) as [Hx|Hx].
  - rewrite decide_True by by apply Heq. by apply IH.
  - rewrite decide_False by (by rewrite <-Heq). f_equal. apply IH.
    intros y. rewrite !elem_of_cons, Heq. tauto.
Qed.

Lemma count_elements_first_seen l : ∀ d,
  dict_keys (count_elements d l) = dict_keys d ++ first_seen (dict_keys d) l.
Proof.
  unfold count_elements. induction l as [|x l IH]; intros d; cbn [fold_left first_seen].
  - by rewrite app_nil_r.
  - rewrite IH, dict_keys_set.
    destruct (decide (x ∈ dict_keys d)) as [Hx|Hx]; [done|].
    rewrite <-app_assoc. cbn. do 2 f_equal. apply first_seen_ext.
    intros y. rewrite elem_of_app, !elem_of_cons, elem_of_nil. tauto.
Qed.

Lemma insert_by_count_filter c x l :
  filter (λ y : str * nat, y.2 = c) (insert_by_count x l) =
  filter (λ y : str * nat, y.2 = c) (x :: l).
Proof.
  induction l as [|y l IH]; [done|]. cbn [insert_by_count].
  destruct (x.2 <? y.2) eqn:Hlt; [|done].
  apply Nat.ltb_lt in Hlt.
  rewrite (filter_cons _ y), IH, !(filter_cons _ x), (filter_cons _ y).
  repeat case_decide; try done; lia.
Qed.

Lemma most_common_filter c d :
  filter (λ y : str * nat, y.2 = c) (most_common d) =
  filter (λ y : str * nat, y.2 = c) d.
Proof.
  induction d as [|x d IH]; [done|].
  change (most_common (x :: d)) with (insert_by_count x (most_common d)).
  by rewrite insert_by_count_filter, !(filter_cons _ x), IH.
Qed.

Lemma Counter_first_seen toks :
  Counter toks = (λ w, (w, occurrences w toks)) <$> first_seen [] toks.
Proof.
  assert (Hnd : NoDup (dict_keys (Counter toks))).
  { apply count_elements_NoDup. constructor. }
  assert (Hkeys : (Counter toks).*1 = first_seen [] toks).
  { unfold Counter. apply (count_elements_first_seen toks []). }
  rewrite <-Hkeys. rewrite <-list_fmap_compose.
  rewrite <-(list_fmap_id (Counter toks)) at 1.
  apply Forall_fmap_ext_1, Forall_forall. intros [w c] Hin. cbn. f_equal.
  rewrite <-(dict_get_elem_of _ _ _ 0 Hnd Hin).
  unfold Counter. by rewrite count_elements_get.
Qed.

(** Among the words with the same count, [word_c] keeps the order in which
    the words first occur in the text. *)
Theorem word_c_ties text c :
  let toks := split (join (of_string " ") text) in
  (filter (λ y : str * nat, y.2 = c) (word_c text)).*1 =
  filter (λ w, occurrences w toks = c) (first_seen [] toks).
Proof.
  intros toks. unfold word_c. fold toks.
  rewrite most_common_filter, Counter_first_seen.
  induction (first_seen [] toks) as [|w l IH]; [done|].
  rewrite fmap_cons, !filter_cons. cbn [snd].
  case_decide; [rewrite fmap_cons; cbn [fst]|]; by rewrite IH.
Qed.

Example word_c_ties_to_be :
  (word_c [of_string "or be to be"; of_string "not to"]).*1 =
    [of_string "be"; of_string "to"; of_string "or"; of_string "not"].
Proof. reflexivity. Qed.

Example cell_stats_missing :
  cell_stats (word_c [of_string "thou art Hamlet,"; of_string "thou and Thee"]) =
    ([unique_words 5; top_header;
      top_words [(of_string "thou", 2); (of_string "art", 1); (of_string "Hamlet,", 1);
                 (of_string "and", 1); (of_string "Thee", 1)]],
     KeyError (of_string "thee")).
Proof. reflexivity. Qed.

End WordCountFacts.

(** ** The SMF-110 notebook *)
Module SMF110Facts.
Import SMF110.

Local Open Scope string_scope.
Local Open Scope list_scope.

(** *** The result monad *)

Lemma bind_Ok_inv {A B} (m : result A) (f : A → result B) (b : B) :
  m ≫= f = Ok b → ∃ a, m = Ok a ∧ f a = Ok b.
Proof. intros H. destruct m as [a|e]; cbn in H; [eauto|done]. Qed.

Lemma bind_Raise_inv {A B} (m : result A) (f : A → result B) (e : exn) :
  m ≫= f = Raise e → m = Raise e ∨ ∃ a, m = Ok a ∧ f a = Raise e.
Proof. intros H. destruct m as [a|e']; cbn in H; [eauto|left; congruence]. Qed.

Ltac inv_result :=
  repeat match goal with
    | H : _ ≫= _ = Ok _ |- _ =>
        let a := fresh "a" in let Ha := fresh "H" a in
        apply bind_Ok_inv in H as (a & Ha & H)
    | H : mret _ = Ok _ |- _ => injection H as H
    | H : Ok _ = Ok _ |- _ => injection H as H
    | H : Raise _ = Ok _ |- _ => discriminate H
    end.

Lemma traverse_Ok {A B} (f : A → result B) (l : list A) (l' : list B) :
  traverse f l = Ok l' → Forall2 (λ x y, f x = Ok y) l l'.
Proof.
  revert l'. induction l as [|x l IH]; intros l' H; cbn in H.
  - injection H as <-. constructor.
  - inv_result. subst l'. constructor; [done|]. by apply IH.
Qed.

Lemma traverse_Ok_fmap {A B} (f : A → result B) (g : A → B) (l : list A) :
  (∀ x, x ∈ l → f x = Ok (g x)) → traverse f l = Ok (g <$> l).
Proof.
  induction l as [|x l IH]; intros H; cbn; [done|].
  rewrite H by left. cbn. rewrite IH; [done|]. intros y Hy. apply H. by right.
Qed.

Lemma traverse_Raise {A B} (f : A → result B) (l : list A) (e : exn) :
  traverse f l = Raise e → ∃ x, x ∈ l ∧ f x = Raise e.
Proof.
  induction l as [|x l IH]; cbn; [done|]. intros H.
  destruct (f x) as [y|e'] eqn:Hx; cbn in H.
  - destruct (traverse f l) as [ys|e'] eqn:Hl; cbn in H; [done|].
    injection H as ->. destruct IH as (z & Hz & Hfz); [done|].
    exists z. split; [by right|done].
  - injection H as ->. exists x. split; [left|done].
Qed.

(** *** Selections *)

Lemma select_sublist {A} (bs : list bool) (l : list A) : select bs l `sublist_of` l.
Proof.
  revert bs. induction l as [|x l IH]; intros [|[] bs]; cbn;
    try apply sublist_nil_l; [by apply sublist_skip|by apply sublist_cons].
Qed.

Lemma select_fmap {A} (p : A → bool) (l : list A) :
  select (p <$> l) l = List.filter p l.
Proof. induction l as [|x l IH]; cbn; [done|]. rewrite IH. by destruct (p x). Qed.

Lemma select_fmap_comm {A B} (f : A → B) (bs : list bool) (l : list A) :
  f <$> select bs l = select bs (f <$> l).
Proof.
  revert bs. induction l as [|x l IH]; intros [|[] bs]; cbn; by rewrite ?IH.
Qed.

(** *** Columns *)

Lemma column_values_index df name : (column_values df name).*1 = index df.
Proof. unfold column_values, index. rewrite <-list_fmap_compose. done. Qed.

Lemma column_values_cells df name :
  (column_values df name).*2 = cell_of_row name <$> rows df.
Proof. unfold column_values. rewrite <-list_fmap_compose. done. Qed.

Lemma getitem_Ok df name s :
  getitem df name = Ok s ↔ name ∈ columns df ∧ s = column_values df name.
Proof.
  unfold getitem. destruct (decide (name ∈ columns df)) as [Hin|Hnin].
  - split; [intros [= <-]; done|intros [_ ->]; done].
  - split; [done|intros [? _]; done].
Qed.

Lemma getitem_Raise df name e :
  getitem df name = Raise e ↔ (name ∉ columns df) ∧ e = KeyError name.
Proof.
  unfold getitem. destruct (decide (name ∈ columns df)) as [Hin|Hnin].
  - split; [done|intros [? _]; done].
  - split; [intros [= <-]; done|intros [_ ->]; done].
Qed.

Lemma getattr_Ok df name s :
  getattr df name = Ok s ↔ name ∈ columns df ∧ s = column_values df name.
Proof.
  unfold getattr. destruct (decide (name ∈ columns df)) as [Hin|Hnin].
  - split; [intros [= <-]; done|intros [_ ->]; done].
  - split; [done|intros [? _]; done].
Qed.

Lemma align_own (s : Series) (idx : list Z) : s.*1 = idx → align s idx = Ok s.*2.
Proof. intros H. unfold align. by rewrite decide_True. Qed.

Lemma align_length s idx vs : align s idx = Ok vs → length vs = length idx.
Proof.
  unfold align. destruct (decide (s.*1 = idx)) as [<-|_].
  - intros [= <-]. by rewrite !length_fmap.
  - destruct (decide (NoDup s.*1)); intros [= <-]. by rewrite length_map.
Qed.

Lemma getitem_bool_Ok df mask df' :
  getitem_bool df mask = Ok df' →
  columns df' = columns df ∧ ∃ bs, rows df' = select bs (rows df).
Proof.
  unfold getitem_bool. intros H. inv_result. subst df'. cbn. eauto.
Qed.

Lemma getitem_bool_own df (p : Z * gmap string cell → bool) (mask : Series) :
  mask.*1 = index df → mask.*2 = (λ r, Bool (p r)) <$> rows df →
  getitem_bool df mask =
    Ok {| columns := columns df; rows := List.filter p (rows df) |}.
Proof.
  intros H1 H2. unfold getitem_bool. rewrite align_own by done. cbn.
  rewrite H2.
  assert (traverse as_bool ((λ r, Bool (p r)) <$> rows df) = Ok (p <$> rows df)) as ->.
  { clear. induction (rows df) as [|r l IH]; cbn; [done|]. by rewrite IH. }
  cbn. by rewrite select_fmap.
Qed.

(** *** Substrings *)

Lemma startswith_spec pat s : startswith pat s = true ↔ ∃ b, s = pat +:+ b.
Proof.
  revert s. induction pat as [|a pat IH]; intros s; cbn.
  - split; [intros _; by exists s|done].
  - destruct s as [|c s]; [split; [done|intros [b [=]]]|].
    rewrite andb_true_iff, Ascii.eqb_eq, IH. split.
    + intros [-> [b ->]]. by exists b.
    + intros [b [= -> ->]]. eauto.
Qed.

Lemma contains_spec pat s : contains pat s = true ↔ ∃ a b, s = a +:+ pat +:+ b.
Proof.
  induction s as [|c s IH]; cbn [contains]; rewrite orb_true_iff, startswith_spec.
  - split.
    + intros [[b ->]|[=]]. by exists "", b.
    + intros ([|? a] & b & H); [left; by exists b|done].
  - rewrite IH. split.
    + intros [[b ->]|(a & b & ->)]; [by exists "", b|by exists (String c a), b].
    + intros ([|c' a] & b & H); [left; by exists b|].
      injection H as -> ->. right. eauto.
Qed.

(** *** Rules for cells *)

Lemma wp_ret {A} (a : A) nb Q R : Q a nb → wp (mret a) nb Q R.
Proof. done. Qed.

Lemma wp_bind {A B} (m : Py A) (f : A → Py B) nb Q R :
  wp m nb (λ a nb', wp (f a) nb' Q R) R → wp (m ≫= f) nb Q R.
Proof.
  unfold wp, mbind, Py_bind. by destruct (m nb) as [nb' [a|e]].
Qed.

Lemma wp_mono {A} (m : Py A) nb (Q Q' : A → notebook → Prop) (R R' : notebook → Prop) :
  wp m nb Q R → (∀ a nb', Q a nb' → Q' a nb') → (∀ nb', R nb' → R' nb') →
  wp m nb Q' R'.
Proof.
  unfold wp. destruct (m nb) as [nb' [a|e]]; eauto.
Qed.

Lemma wp_lift {A} (r : result A) nb Q R :
  (∀ a, r = Ok a → Q a nb) → (∀ e, r = Raise e → R nb) → wp (lift r) nb Q R.
Proof. unfold wp, lift. destruct r; eauto. Qed.

Lemma wp_get_var x nb Q R :
  (∀ v, globals nb !! x = Some v → Q v nb) → (globals nb !! x = None → R nb) →
  wp (get_var x) nb Q R.
Proof. unfold wp, get_var. destruct (globals nb !! x); eauto. Qed.

Lemma wp_frame_var x nb Q R :
  (∀ l df, globals nb !! x = Some (VFrame l) → heap nb !! l = Some df → Q (l, df) nb) →
  R nb → wp (frame_var x) nb Q R.
Proof.
  unfold wp, frame_var. intros HQ HR.
  destruct (globals nb !! x) as [[]|]; try done.
  destruct (heap nb !! ref) eqn:?; eauto.
Qed.

Lemma wp_set_var x v nb Q R :
  Q tt {| heap := heap nb; globals := <[x:=v]> (globals nb); engine := engine nb |} →
  wp (set_var x v) nb Q R.
Proof. done. Qed.

Lemma wp_store l df nb Q R :
  Q tt {| heap := <[l:=df]> (heap nb); globals := globals nb; engine := engine nb |} →
  wp (store l df) nb Q R.
Proof. done. Qed.

Lemma wp_spark_call what nb Q R :
  Q tt {| heap := heap nb; globals := globals nb; engine := engine nb ++ [what] |} →
  wp (spark_call what) nb Q R.
Proof. done. Qed.

Lemma wp_bind_frame x df nb Q R :
  Q tt {| heap := heap nb ++ [df];
          globals := <[x:=VFrame (length (heap nb))]> (globals nb);
          engine := engine nb |} →
  wp (bind_frame x df) nb Q R.
Proof. done. Qed.

Lemma wp_run_eq {A} (m : Py A) nb nb' a Q R :
  wp m nb Q R → m nb = (nb', Ok a) → Q a nb'.
Proof. unfold wp. intros H Heq. by rewrite Heq in H. Qed.

Lemma wp_final {A} (m : Py A) nb (P : notebook → Prop) :
  wp m nb (λ _, P) P → P (m nb).1.
Proof. unfold wp. by destruct (m nb) as [nb' [a|e]]. Qed.

Lemma copy_deep_eq df : copy_deep df = df.
Proof. by destruct df. Qed.

Lemma wp_assign_column x target source f nb Q R :
  R nb →
  (∀ l df df', globals nb !! x = Some (VFrame l) → heap nb !! l = Some df →
     assign_frame target source f df = Ok df' →
     Q tt {| heap := <[l:=df']> (heap nb); globals := globals nb; engine := engine nb |}) →
  wp (assign_column x target source f) nb Q R.
Proof.
  intros HR HQ. unfold assign_column. apply wp_bind, wp_frame_var; [|done].
  intros l df Hl Hdf. apply wp_bind, wp_lift; [|done].
  intros df' Hdf'. apply wp_store. eauto.
Qed.

Lemma wp_display x names nb Q R :
  R nb → Q tt nb → wp (display x names) nb Q R.
Proof.
  intros HR HQ. unfold display. apply wp_bind, wp_frame_var; [|done].
  intros l df _ _. apply wp_bind, wp_lift; [|done]. intros _ _. by apply wp_ret.
Qed.

(** The state the data-cleaning cell ends in. *)
Lemma cell_clean_Ok w nb nb' :
  cell_clean w nb = (nb', Ok tt) →
  ∃ l df T0 F,
    globals nb !! "smf110_df" = Some (VFrame l) ∧ heap nb !! l = Some df ∧
    cast_frame w df = Ok T0 ∧ cics_filter T0 = Ok F ∧
    nb' = {| heap := (<[l:=T0]> (heap nb) ++ [T0]) ++ [F];
             globals := <["smf110_df":=VFrame (S (length (heap nb)))]>
                          (<["orig_smf110_df":=VFrame (length (heap nb))]> (globals nb));
             engine := engine nb |}.
Proof.
  apply (wp_run_eq _ _ _ _ (λ _ nb', _) (λ _, True)).
  unfold cell_clean, update_column.
  apply wp_bind, wp_assign_column; [done|]. intros l df df1 Hl Hdf H1.
  apply wp_bind, wp_assign_column; [done|]. cbn [globals heap engine].
  intros l' df' df2 Hl' Hdf' H2. rewrite Hl in Hl'. injection Hl' as <-.
  assert (Hlen : l < length (heap nb)) by by eapply lookup_lt_Some.
  rewrite list_lookup_insert_eq in Hdf' by done. injection Hdf' as <-.
  rewrite list_insert_insert_eq.
  apply wp_bind, wp_assign_column; [done|]. cbn [globals heap engine].
  intros l' df' T0 Hl' Hdf' H3. rewrite Hl in Hl'. injection Hl' as <-.
  rewrite list_lookup_insert_eq in Hdf' by done. injection Hdf' as <-.
  rewrite list_insert_insert_eq.
  apply wp_bind, wp_frame_var; [|done]. cbn [globals heap engine].
  intros l' df' Hl' Hdf'. rewrite Hl in Hl'. injection Hl' as <-.
  rewrite list_lookup_insert_eq in Hdf' by done. injection Hdf' as <-.
  apply wp_bind, wp_bind_frame. cbn [globals heap engine].
  apply wp_bind, wp_frame_var; [|done]. cbn [globals heap engine].
  intros l' df' Hl' Hdf'. rewrite lookup_insert_ne in Hl' by done.
  rewrite Hl in Hl'. injection Hl' as <-.
  rewrite lookup_app_l in Hdf' by by rewrite length_insert.
  rewrite list_lookup_insert_eq in Hdf' by done. injection Hdf' as <-.
  apply wp_bind, wp_lift; [|done]. intros F HF.
  apply wp_bind_frame. cbn [globals heap engine].
  exists l, df, T0, F. split_and!; try done.
  - unfold cast_frame. rewrite H1. cbn. rewrite H2. cbn. done.
  - rewrite copy_deep_eq, length_app, length_insert. cbn.
    by rewrite Nat.add_1_r.
Qed.

(** *** Frames that derive from one another *)


Lemma subframe_trans F G T : subframe F G → subframe G T → subframe F T.
Proof.
  intros HFG HGT c Hc HcT. destruct (HGT c Hc HcT) as [HcG HsubG].
  destruct (HFG c Hc HcG) as [HcF HsubF]. split; [done|]. by etrans.
Qed.

Lemma extends_subframe F' F T : extends F' F → subframe F T → subframe F' T.
Proof.
  intros Hext Hsub c Hc HcT. destruct (Hsub c Hc HcT) as [HcF HsubF].
  destruct (Hext c Hc HcF) as [HcF' ->]. done.
Qed.

Lemma getitem_bool_subframe F mask F' : getitem_bool F mask = Ok F' → subframe F' F.
Proof.
  intros H c _ Hc. apply getitem_bool_Ok in H as [Hcols [bs Hrows]].
  split; [by rewrite Hcols|]. unfold column_values. rewrite Hrows.
  rewrite select_fmap_comm. apply select_sublist.
Qed.

Lemma series_apply_Ok f s s' :
  series_apply f s = Ok s' →
  s'.*1 = s.*1 ∧ Forall2 (λ c c', f c = Ok c') s.*2 s'.*2.
Proof.
  unfold series_apply. intros H. apply traverse_Ok in H.
  induction H as [|[l c] [l' c'] s s' Hc _ [IH1 IH2]]; cbn; [by split; [|constructor]|].
  cbn in Hc. destruct (f c) as [c0|] eqn:Hfc; cbn in Hc; [|done].
  injection Hc as <- <-. split; [by rewrite IH1|by constructor].
Qed.

Lemma setitem_own df name s :
  s.*1 = index df →
  setitem df name s =
    Ok {| columns := if decide (name ∈ columns df) then columns df
                     else columns df ++ [name];
          rows := zip_with (λ v r, (r.1, <[name:=v]> r.2)) s.*2 (rows df) |}.
Proof. intros H. unfold setitem. by rewrite align_own. Qed.

Lemma setitem_Ok df name s df' :
  setitem df name s = Ok df' →
  ∃ vs, length vs = length (rows df) ∧
    columns df' = (if decide (name ∈ columns df) then columns df
                   else columns df ++ [name]) ∧
    rows df' = zip_with (λ v r, (r.1, <[name:=v]> r.2)) vs (rows df).
Proof.
  unfold setitem. intros H. inv_result. subst df'. exists a. cbn.
  apply align_length in Ha. unfold index in Ha. rewrite length_fmap in Ha. done.
Qed.

Lemma setitem_columns df name s df' c :
  setitem df name s = Ok df' → c ∈ columns df → c ∈ columns df'.
Proof.
  intros (vs & _ & -> & _)%setitem_Ok Hc. case_decide; [done|].
  apply elem_of_app. by left.
Qed.

Lemma zip_with_set_other (name c : string) (vs : list cell) (rs : list (Z * gmap string cell)) :
  c ≠ name → length vs = length rs →
  (λ r, (r.1, cell_of_row c r)) <$> zip_with (λ v r, (r.1, <[name:=v]> r.2)) vs rs =
  (λ r, (r.1, cell_of_row c r)) <$> rs.
Proof.
  intros Hne. revert vs. induction rs as [|r rs IH]; intros [|v vs] Hlen; try done.
  cbn in *. rewrite IH by lia. unfold cell_of_row at 1. cbn.
  by rewrite lookup_insert_ne.
Qed.

Lemma zip_with_set_same (name : string) (vs : list cell) (rs : list (Z * gmap string cell)) :
  length vs = length rs →
  (λ r, (r.1, cell_of_row name r)) <$> zip_with (λ v r, (r.1, <[name:=v]> r.2)) vs rs =
  zip rs.*1 vs.
Proof.
  revert vs. induction rs as [|r rs IH]; intros [|v vs] Hlen; try done.
  cbn in *. rewrite IH by lia. unfold cell_of_row at 1. cbn.
  by rewrite lookup_insert_eq.
Qed.

Lemma setitem_other df name s df' c :
  setitem df name s = Ok df' → c ≠ name →
  column_values df' c = column_values df c.
Proof.
  intros (vs & Hlen & _ & Hrows)%setitem_Ok Hne. unfold column_values.
  rewrite Hrows. by apply zip_with_set_other.
Qed.

Lemma setitem_extends df name s df' :
  setitem df name s = Ok df' → name ∉ source_columns → extends df' df.
Proof.
  intros H Hname c Hc Hcdf. split; [by eapply setitem_columns|].
  eapply setitem_other; [done|]. by intros ->.
Qed.

Lemma assign_frame_extends target source f df df' :
  assign_frame target source f df = Ok df' → target ∉ source_columns → extends df' df.
Proof.
  unfold assign_frame. intros H. inv_result. by eapply setitem_extends.
Qed.

(** *** What one change of state preserves *)

Lemma effect_engine nb nb' : effect nb nb' → engine nb' = engine nb.
Proof. by destruct 1. Qed.

Lemma frame_names_derived x : x ∈ derived_names → x ∈ frame_names.
Proof. intros H. right. exact H. Qed.

Lemma effect_derived_from T0 nb nb' :
  effect nb nb' → derived_from T0 nb → derived_from T0 nb'.
Proof.
  intros Heff Hder. destruct Heff as [nb x v Hx Hv|nb x G F Hx HG HFG|nb l F F' Hl HF Hext];
    intros y H Hy; unfold frame_of; cbn [globals heap].
  - assert (x ≠ y) by (intros <-; by apply Hx, frame_names_derived).
    rewrite lookup_insert_ne by done. exact (Hder y H Hy).
  - assert (HFT : subframe F T0) by (eapply subframe_trans; [done|exact (Hder x G Hx HG)]).
    destruct (decide (y = "smf110_filtered_tran_df")) as [->|Hne].
    + rewrite lookup_insert_eq, lookup_app_r, Nat.sub_diag by done. by intros [= <-].
    + rewrite lookup_insert_ne by done. specialize (Hder y H Hy). unfold frame_of in Hder.
      destruct (globals nb !! y) as [[]|]; try done.
      destruct (decide (ref < length (heap nb))) as [Hlt|Hge].
      * by rewrite lookup_app_l.
      * rewrite lookup_app_r by lia.
        destruct (ref - length (heap nb)) as [|k]; cbn; [by intros [= <-]|done].
  - assert (HFT : subframe F' T0).
    { eapply extends_subframe; [done|]. apply (Hder "smf110_filtered_tran_df").
      - right. left.
      - unfold frame_of. by rewrite Hl. }
    specialize (Hder y H Hy). unfold frame_of in Hder.
    destruct (globals nb !! y) as [[]|]; try done.
    destruct (decide (l = ref)) as [->|Hne].
    + rewrite list_lookup_insert_eq by by eapply lookup_lt_Some. by intros [= <-].
    + by rewrite list_lookup_insert_ne.
Qed.

Lemma effect_orig_is T0 nb nb' : effect nb nb' → orig_is T0 nb → orig_is T0 nb'.
Proof.
  intros Heff [Hwf (lo & Hlo & HT0 & Halias)].
  assert (Hlt : lo < length (heap nb)) by by eapply lookup_lt_Some.
  destruct Heff as [nb x v Hx Hv|nb x G F Hx HG HFG|nb l F F' Hl HF Hext].
  - assert (x ≠ "orig_smf110_df") by (intros ->; apply Hx; left).
    split.
    + intros y l. cbn. destruct (decide (x = y)) as [->|Hne].
      * rewrite lookup_insert_eq. intros [= ->]. by destruct Hv.
      * rewrite lookup_insert_ne by done. apply Hwf.
    + exists lo. cbn. rewrite lookup_insert_ne by done. split_and!; [done..|].
      intros y l. destruct (decide (x = y)) as [->|Hne].
      * rewrite lookup_insert_eq. intros [= ->]. by destruct Hv.
      * rewrite lookup_insert_ne by done. apply Halias.
  - split.
    + intros y l. cbn. rewrite length_app. cbn.
      destruct (decide (y = "smf110_filtered_tran_df")) as [->|Hne].
      * rewrite lookup_insert_eq. intros [= <-]. lia.
      * rewrite lookup_insert_ne by done. intros Hy%Hwf. lia.
    + exists lo. cbn. rewrite lookup_insert_ne by done.
      rewrite lookup_app_l by done. split_and!; [done..|].
      intros y l. destruct (decide (y = "smf110_filtered_tran_df")) as [->|Hne].
      * rewrite lookup_insert_eq. intros [= <-] _. lia.
      * rewrite lookup_insert_ne by done. apply Halias.
  - split.
    + intros y l'. cbn. rewrite length_insert. apply Hwf.
    + exists lo. cbn. split_and!; [done| |done].
      rewrite list_lookup_insert_ne; [done|]. by apply (Halias _ _ Hl).
Qed.

Lemma effects_engine nb nb' : rtc effect nb nb' → engine nb' = engine nb.
Proof. induction 1 as [|??? H%effect_engine]; congruence. Qed.

Lemma effects_orig_is T0 nb nb' : rtc effect nb nb' → orig_is T0 nb → orig_is T0 nb'.
Proof. induction 1; eauto using effect_orig_is. Qed.

Lemma effects_derived_from T0 nb nb' :
  rtc effect nb nb' → derived_from T0 nb → derived_from T0 nb'.
Proof. induction 1; eauto using effect_derived_from. Qed.

(** *** The analysis cells change the state by [effect] steps only *)

Ltac not_frame_name := apply (bool_decide_unpack _); by vm_compute.

(** One step of a cell that reads: the state stays, the exceptional
    outcome is the current state. *)
Ltac wp_read :=
  lazymatch goal with
  | |- wp (frame_var _ ≫= _) _ _ _ =>
      apply wp_bind, wp_frame_var; [intros ? ? ? ?|try assumption]
  | |- wp (lift _ ≫= _) _ _ _ =>
      apply wp_bind, wp_lift; [intros ? ?|intros ? ?; try assumption]
  | |- wp (display _ _ ≫= _) _ _ _ =>
      apply wp_bind, wp_display; [try assumption|]
  | |- wp (display _ _) _ _ _ =>
      apply wp_display; try assumption
  | |- wp (mret _) _ _ _ => apply wp_ret; try assumption
  end.

(** One step that binds a result to a name. *)
Ltac wp_effect_set H nb0 nb x v :=
  let H' := fresh "H" in
  assert (H' : rtc effect nb0
            {| heap := heap nb; globals := <[x:=v]> (globals nb); engine := engine nb |})
    by (eapply rtc_r; [exact H|]; apply (effect_set nb x v); [not_frame_name|by intros []]);
  clear H.

Ltac wp_set :=
  lazymatch goal with
  | H : rtc effect ?nb0 ?nb |- wp (set_var ?x ?v ≫= _) ?nb _ _ =>
      wp_effect_set H nb0 nb x v; apply wp_bind, wp_set_var
  | H : rtc effect ?nb0 ?nb |- wp (set_var ?x ?v) ?nb _ _ =>
      wp_effect_set H nb0 nb x v; apply wp_set_var
  end.

Lemma display_effects nb0 x names nb :
  rtc effect nb0 nb → effects_only nb0 (display x names) nb.
Proof. intros H. unfold effects_only. wp_read. Qed.

Lemma cell_regions_effects nb0 nb :
  rtc effect nb0 nb → effects_only nb0 cell_regions nb.
Proof. intros H. unfold effects_only, cell_regions. repeat wp_read. Qed.

Lemma cell_unique_effects nb0 name nb :
  rtc effect nb0 nb → effects_only nb0 (cell_unique name) nb.
Proof. intros H. unfold effects_only, cell_unique. repeat wp_read. Qed.

Lemma cell_runs_per_region_effects nb0 nb :
  rtc effect nb0 nb → effects_only nb0 cell_runs_per_region nb.
Proof.
  intros H. unfold effects_only, cell_runs_per_region. repeat wp_read.
  wp_set. wp_read.
Qed.

Lemma cell_cpu_time_per_region_effects nb0 nb :
  rtc effect nb0 nb → effects_only nb0 cell_cpu_time_per_region nb.
Proof.
  intros H. unfold effects_only, cell_cpu_time_per_region. repeat wp_read.
  wp_set. wp_read.
Qed.

Lemma cell_cpu_time_per_trans_effects nb0 nb :
  rtc effect nb0 nb → effects_only nb0 cell_cpu_time_per_trans nb.
Proof.
  intros H. unfold effects_only, cell_cpu_time_per_trans. repeat wp_read. wp_set. done.
Qed.

Lemma cell_cpu_percentage_effects nb0 nb :
  rtc effect nb0 nb → effects_only nb0 cell_cpu_percentage nb.
Proof.
  intros H. unfold effects_only, cell_cpu_percentage. repeat wp_read.
  wp_set. repeat wp_read. wp_set. done.
Qed.

Lemma cell_trans_rate_effects nb0 nb :
  rtc effect nb0 nb → effects_only nb0 cell_trans_rate nb.
Proof.
  intros H. unfold effects_only, cell_trans_rate.
  apply wp_bind, wp_assign_column; [done|]. intros l df df' Hl Hdf Hdf'.
  assert (Hext : extends df' df).
  { eapply assign_frame_extends; [done|]. not_frame_name. }
  pose proof (rtc_r _ _ _ H (effect_mutate nb l df df' Hl Hdf Hext)) as H'. clear H.
  repeat wp_read. do 5 wp_set. wp_read. wp_set. wp_set. done.
Qed.

Lemma cell_filter_tran_effects nb0 nb :
  rtc effect nb0 nb → effects_only nb0 cell_filter_tran nb.
Proof.
  intros H. unfold effects_only, cell_filter_tran.
  apply wp_bind, wp_frame_var; [|done]. intros l df Hl Hdf.
  apply wp_bind, wp_lift; [|done]. intros t Ht.
  apply wp_bind, wp_lift; [|done]. intros m Hm.
  apply wp_bind, wp_lift; [|done]. intros f Hf.
  apply wp_bind, wp_bind_frame.
  assert (Hdf' : frame_of nb "smf110_df" = Some df).
  { unfold frame_of. by rewrite Hl. }
  pose proof (rtc_r _ _ _ H (effect_derive nb "smf110_df" df f
    ltac:(by left) Hdf' (getitem_bool_subframe _ _ _ Hf))) as H'. clear H.
  apply wp_bind, wp_frame_var; [|done]. cbn [globals heap engine].
  intros l1 f1 Hl1 Hf1. rewrite lookup_insert_eq in Hl1. injection Hl1 as <-.
  rewrite lookup_app_r, Nat.sub_diag in Hf1 by done. injection Hf1 as <-.
  apply wp_bind, wp_frame_var; [|done]. intros l2 df2 Hl2 Hdf2.
  apply wp_bind, wp_lift; [|done]. intros s Hs.
  apply wp_bind, wp_lift; [|done]. intros m' Hm'.
  apply wp_bind, wp_lift; [|done]. intros f' Hf'.
  apply wp_bind_frame.
  eapply rtc_r; [exact H'|].
  match goal with |- effect ?nb1 _ =>
    apply (effect_derive nb1 "smf110_filtered_tran_df" f f') end;
    [by right; left| |by eapply getitem_bool_subframe].
  unfold frame_of. cbn [globals heap]. rewrite lookup_insert_eq.
  by rewrite lookup_app_r, Nat.sub_diag.
Qed.

Lemma analysis_cell_effects c nb0 nb :
  c ∈ analysis_cells → rtc effect nb0 nb → effects_only nb0 c nb.
Proof.
  unfold analysis_cells. rewrite !elem_of_cons, elem_of_nil.
  intros [->|[->|[->|[->|[->|[->|[->|[->|[->|[->|[->|[->|[->|[->|[]]]]]]]]]]]]]]];
    eauto using display_effects, cell_regions_effects, cell_unique_effects,
      cell_runs_per_region_effects, cell_cpu_time_per_region_effects,
      cell_cpu_time_per_trans_effects, cell_cpu_percentage_effects,
      cell_trans_rate_effects, cell_filter_tran_effects.
Qed.

Lemma run_effects cells : ∀ nb0 nb,
  Forall (λ c, c ∈ analysis_cells) cells → rtc effect nb0 nb →
  effects_only nb0 (run cells) nb.
Proof.
  induction cells as [|c cells IH]; intros nb0 nb Hcells H; cbn [run].
  - by apply wp_ret.
  - apply Forall_cons in Hcells as [Hc Hcells]. apply wp_bind.
    eapply wp_mono; [by apply analysis_cell_effects| |done].
    intros [] nb' H'. by apply IH.
Qed.

Lemma run_analysis_effects cells nb :
  Forall (λ c, c ∈ analysis_cells) cells → rtc effect nb (run cells nb).1.
Proof.
  intros Hcells. apply (wp_final _ _ (rtc effect nb)).
  by apply run_effects.
Qed.

(** *** The casts *)

Lemma zip_with_set_index (name : string) (vs : list cell) (rs : list (Z * gmap string cell)) :
  length vs = length rs →
  (zip_with (λ v r, (r.1, <[name:=v]> r.2)) vs rs).*1 = rs.*1.
Proof.
  revert vs. induction rs as [|r rs IH]; intros [|v vs] Hlen; try done.
  cbn in *. by rewrite IH by lia.
Qed.

Lemma assign_frame_same name f df df' :
  assign_frame name name (series_apply f) df = Ok df' →
  name ∈ columns df ∧ columns df' = columns df ∧ index df' = index df ∧
  Forall2 (λ c c', f c = Ok c') (column_values df name).*2 (column_values df' name).*2 ∧
  ∀ c, c ≠ name → column_values df' c = column_values df c.
Proof.
  unfold assign_frame. intros H. inv_result.
  apply getitem_Ok in Ha as [Hname ->].
  apply series_apply_Ok in Ha0 as [Hidx Hcells].
  rewrite column_values_index in Hidx.
  assert (Hlen : length a0.*2 = length (rows df)).
  { rewrite length_fmap, <-(length_fmap fst), Hidx. unfold index. by rewrite length_fmap. }
  pose proof (λ c, setitem_other _ _ _ _ c H) as Hother.
  rewrite setitem_own in H by done. injection H as <-.
  rewrite decide_True by done. split_and!; try done.
  - unfold index. cbn. by apply zip_with_set_index.
  - unfold column_values at 2. cbn. rewrite zip_with_set_same by done.
    rewrite snd_zip; [done|]. rewrite !length_fmap in *. lia.
Qed.

Lemma astype_int_is_int w c c' : astype_int w c = Ok c' → is_int c'.
Proof.
  destruct c; cbn; unfold to_int64; repeat case_match; try done; by intros [= <-].
Qed.

Lemma astype_float_is_float w c c' : astype_float w c = Ok c' → is_float c'.
Proof.
  destruct c; cbn; unfold float_cell; repeat case_match; try done; by intros [= <-].
Qed.



Lemma Forall2_Forall_r_impl {A B} (P : A → B → Prop) (Q : B → Prop) l l' :
  Forall2 P l l' → (∀ x y, P x y → Q y) → Forall Q l'.
Proof. induction 1; intros HPQ; constructor; eauto. Qed.

Lemma column_holds_other P df df' name :
  name ∈ columns df → columns df' = columns df →
  column_values df' name = column_values df name →
  column_holds P df name → column_holds P df' name.
Proof. intros Hname Hcols Hvals [_ H]. split; [by rewrite Hcols|by rewrite Hvals]. Qed.

Lemma cast_frame_Ok w df T0 :
  cast_frame w df = Ok T0 →
  columns T0 = columns df ∧ index T0 = index df ∧ cast_types T0 ∧
  ∀ c, c ∉ ["TRANNUM"; "USRCPUT_TIMER"; "USRCPUT_COUNT"] →
    column_values T0 c = column_values df c.
Proof.
  unfold cast_frame. intros H. inv_result.
  apply assign_frame_same in Ha as (Hn1 & Hc1 & Hi1 & Hf1 & Ho1).
  apply assign_frame_same in Ha0 as (Hn2 & Hc2 & Hi2 & Hf2 & Ho2).
  apply assign_frame_same in H as (Hn3 & Hc3 & Hi3 & Hf3 & Ho3).
  unfold cast_types, column_holds. split_and!; try congruence.
  - rewrite Ho3, Ho2 by done.
    eapply Forall2_Forall_r_impl; [done|]. intros ??. apply astype_int_is_int.
  - rewrite Ho3 by done.
    eapply Forall2_Forall_r_impl; [done|]. intros ??. apply astype_float_is_float.
  - eapply Forall2_Forall_r_impl; [done|]. intros ??. apply astype_int_is_int.
  - intros c Hc. rewrite !not_elem_of_cons in Hc. destruct Hc as (?&?&?&_).
    by rewrite Ho3, Ho2, Ho1.
Qed.

(** *** The filter of the data-cleaning cell *)

Lemma str_contains_Ok matches s m :
  str_contains matches s = Ok m →
  m = contains_flags matches s ∧ (holds_str s = true ∨ s = []).
Proof.
  unfold str_contains, str_accessor. destruct (holds_str s) eqn:Hs; cbn.
  - intros [= <-]. by split; [|left].
  - case_bool_decide as Hnil; cbn; [|done]. intros [= <-]. by split; [|right].
Qed.

Lemma cics_filter_Ok df df' :
  cics_filter df = Ok df' →
  df' = {| columns := columns df; rows := List.filter has_cics (rows df) |}.
Proof.
  unfold cics_filter. intros H.
  apply bind_Ok_inv in H as (s & [_ ->]%getattr_Ok & H).
  apply bind_Ok_inv in H as (m & [-> _]%str_contains_Ok & H).
  rewrite (getitem_bool_own _ has_cics) in H; [congruence| |].
  - unfold eq_True, contains_flags. rewrite <-!list_fmap_compose.
    apply column_values_index.
  - unfold eq_True, contains_flags, column_values. rewrite <-!list_fmap_compose.
    apply list_fmap_ext. intros i r _. cbn. unfold has_cics.
    by destruct (cell_of_row "SMFMNSPN" r).
Qed.

Lemma cics_filter_subframe df df' : cics_filter df = Ok df' → subframe df' df.
Proof.
  unfold cics_filter. intros H.
  apply bind_Ok_inv in H as (s & _ & H). apply bind_Ok_inv in H as (m & _ & H).
  by eapply getitem_bool_subframe.
Qed.

(** *** The state after the data-cleaning cell *)

Lemma cell_clean_establishes w nb nb' :
  wf_notebook nb → cell_clean w nb = (nb', Ok tt) →
  ∃ df T0 F,
    frame_of nb "smf110_df" = Some df ∧ cast_frame w df = Ok T0 ∧
    cics_filter T0 = Ok F ∧
    frame_of nb' "orig_smf110_df" = Some T0 ∧ frame_of nb' "smf110_df" = Some F ∧
    orig_is T0 nb' ∧
    (globals nb !! "smf110_filtered_tran_df" = None → derived_from T0 nb') ∧
    engine nb' = engine nb.
Proof.
  intros Hwf (l & df & T0 & F & Hl & Hdf & HT0 & HF & ->)%cell_clean_Ok.
  set (n := length (heap nb)).
  assert (Hlen : length (<[l:=T0]> (heap nb)) = n) by by rewrite length_insert.
  assert (Horig : (((<[l:=T0]> (heap nb) ++ [T0]) ++ [F]) !! n) = Some T0).
  { rewrite lookup_app_l by (rewrite length_app, Hlen; cbn; lia).
    by rewrite lookup_app_r, Hlen, Nat.sub_diag by lia. }
  assert (Hsmf : (((<[l:=T0]> (heap nb) ++ [T0]) ++ [F]) !! S n) = Some F).
  { rewrite lookup_app_r by (rewrite length_app, Hlen; cbn; lia).
    rewrite length_app, Hlen. cbn. by replace (S n - (n + 1)) with 0 by lia. }
  exists df, T0, F. split_and!; try done.
  - unfold frame_of. by rewrite Hl.
  - unfold frame_of. cbn. by rewrite lookup_insert_ne, lookup_insert_eq.
  - unfold frame_of. cbn. by rewrite lookup_insert_eq.
  - split.
    + intros y l'. cbn. rewrite !length_app, Hlen. cbn.
      destruct (decide (y = "smf110_df")) as [->|?].
      { rewrite lookup_insert_eq. intros [= <-]. lia. }
      rewrite lookup_insert_ne by done.
      destruct (decide (y = "orig_smf110_df")) as [->|?].
      { rewrite lookup_insert_eq. intros [= <-]. lia. }
      rewrite lookup_insert_ne by done. intros Hy%Hwf. fold n in Hy. lia.
    + exists n. cbn. rewrite lookup_insert_ne, lookup_insert_eq by done.
      split_and!; [done..|]. intros y l'.
      destruct (decide (y = "smf110_df")) as [->|?].
      { rewrite lookup_insert_eq. intros [= <-]. lia. }
      rewrite lookup_insert_ne by done.
      destruct (decide (y = "orig_smf110_df")) as [->|?]; [done|].
      rewrite lookup_insert_ne by done. intros Hy%Hwf _. fold n in Hy. lia.
  - intros Hnone y G Hy. unfold frame_of. cbn.
    apply elem_of_cons in Hy as [->|Hy].
    + rewrite lookup_insert_eq, Hsmf. intros [= <-]. by apply cics_filter_subframe.
    + apply list_elem_of_singleton in Hy as ->.
      rewrite !lookup_insert_ne by done. by rewrite Hnone.
Qed.

(** *** Sums *)

Lemma numbers_Ok l fs : numbers l = Ok fs → fs = omap cell_float l.
Proof.
  unfold numbers. intros H. inv_result. subst fs. apply traverse_Ok in Ha.
  induction Ha as [|c o l os Hc _ IH]; [done|].
  cbn [omap list_omap]. rewrite <-IH.
  destruct c; cbn in Hc; inv_result; by subst o.
Qed.

Lemma nansum_Ok l s : nansum l = Ok s → s = fsum (omap cell_float l).
Proof.
  unfold nansum. intros H. inv_result. subst s. by rewrite (numbers_Ok _ _ Ha).
Qed.

Lemma omap_fmap_compose {A B C} (f : A → B) (g : B → option C) (l : list A) :
  omap g (f <$> l) = omap (λ x, g (f x)) l.
Proof.
  induction l as [|x l IH]; [done|]. cbn [fmap list_fmap omap list_omap].
  by rewrite IH.
Qed.

(** *** Sorting and group keys *)

Lemma insert_sorted_perm {A} (leb : A → A → bool) x l : insert_sorted leb x l ≡ₚ x :: l.
Proof.
  induction l as [|y l IH]; cbn [insert_sorted]; [done|].
  case_match; [done|]. rewrite IH. apply Permutation_swap.
Qed.

Lemma sorted_by_perm {A} (leb : A → A → bool) l : sorted_by leb l ≡ₚ l.
Proof.
  unfold sorted_by. induction l as [|x l IH]; cbn [foldr]; [done|].
  by rewrite insert_sorted_perm, IH.
Qed.

Lemma group_keys_NoDup ks : NoDup (group_keys ks).
Proof. unfold group_keys. rewrite sorted_by_perm. apply NoDup_remove_dups. Qed.

Lemma elem_of_group_keys k ks : k ∈ group_keys ks ↔ notnull k = true ∧ k ∈ ks.
Proof.
  unfold group_keys. rewrite sorted_by_perm, elem_of_remove_dups.
  rewrite list_elem_of_In, filter_In, <-list_elem_of_In. tauto.
Qed.

(** *** Grouped sums *)

Section groups.
Context {K : Type} `{EqDecision K}.

Lemma group_cons (k : K) (r : K * cell) recs :
  group k (r :: recs) = if decide (r.1 = k) then r.2 :: group k recs else group k recs.
Proof. unfold group. rewrite filter_cons. by case_decide. Qed.

Lemma filter_other {A} (key : A → K) (k : K) (ks : list K) (l : list A) :
  k ∉ ks →
  filter (λ r, key r ∈ k :: ks) l ≡ₚ
  filter (λ r, key r = k) l ++ filter (λ r, key r ∈ ks) l.
Proof.
  intros Hk. induction l as [|r l IH]; [done|]. rewrite !filter_cons.
  destruct (decide (key r = k)) as [Heq|Hne].
  - rewrite decide_True by (rewrite Heq; left).
    rewrite decide_False by (by rewrite Heq). cbn. by rewrite IH.
  - destruct (decide (key r ∈ ks)) as [Hin|Hnin].
    + rewrite decide_True by by right. rewrite IH. apply Permutation_middle.
    + rewrite decide_False; [done|]. by intros [?|?]%elem_of_cons.
Qed.

(** The groups of distinct keys hold, together, the elements whose key is
    one of them, each once. *)
Lemma groups_partition {A} (key : A → K) (ks : list K) (l : list A) :
  NoDup ks →
  mjoin ((λ k, filter (λ r, key r = k) l) <$> ks) ≡ₚ filter (λ r, key r ∈ ks) l.
Proof.
  induction 1 as [|k ks Hk _ IH].
  - cbn. symmetry. apply Permutation_nil_r.
    induction l as [|r l IHl]; [done|]. rewrite filter_cons.
    by rewrite decide_False by apply not_elem_of_nil.
  - cbn [fmap list_fmap mjoin list_join]. by rewrite IH, filter_other.
Qed.
End groups.

Lemma groupby_sum_Ok recs g :
  groupby_sum recs = Ok g →
  g.*1 = group_keys recs.*1 ∧
  Forall (λ kv, kv.2 = fsum (omap cell_float (group kv.1 recs))) g.
Proof.
  unfold groupby_sum. intros H%traverse_Ok.
  induction H as [|k [k' v] ks g Hk _ [IH1 IH2]]; [by split; [|constructor]|].
  destruct (nansum (group k recs)) as [s|] eqn:Hs; cbn in Hk; [|done].
  injection Hk as <- <-. split; [cbn; by rewrite IH1|].
  constructor; [|done]. cbn. by apply nansum_Ok.
Qed.

Lemma filter_ext_elem {A} (P Q : A → Prop) `{∀ x, Decision (P x), ∀ x, Decision (Q x)}
    (l : list A) :
  (∀ x, x ∈ l → P x ↔ Q x) → filter P l = filter Q l.
Proof.
  induction l as [|x l IH]; intros HPQ; [done|]. rewrite !filter_cons.
  rewrite IH by (intros y Hy; apply HPQ; by right).
  destruct (decide (P x)) as [HP|HP], (decide (Q x)) as [HQ|HQ]; try done.
  - destruct HQ. apply HPQ; [left|done].
  - destruct HP. apply HPQ; [left|done].
Qed.

(** *** The grouped sums of a frame *)


Lemma records_Ok df keys value recs :
  records df keys value = Ok recs →
  recs = (λ r, (tuple_of_row keys r, cell_of_row value r)) <$> rows df.
Proof. unfold records. intros H. by inv_result. Qed.

Lemma group_fmap {A} (key : A → list cell) (val : A → cell) (k : list cell) (l : list A) :
  group k ((λ r, (key r, val r)) <$> l) = val <$> filter (λ r, key r = k) l.
Proof.
  unfold group. induction l as [|r l IH]; [done|].
  cbn [fmap list_fmap]. rewrite !filter_cons. cbn [fst].
  destruct (decide (key r = k)); cbn [fmap list_fmap snd]; by rewrite IH.
Qed.

Lemma filter_notnull_fmap {A} (key : A → list cell) (val : A → cell) (l : list A) :
  (filter (λ r, notnull r.1 = true) ((λ r, (key r, val r)) <$> l)).*2 =
  val <$> filter (λ r, notnull (key r) = true) l.
Proof.
  induction l as [|r l IH]; [done|].
  cbn [fmap list_fmap]. rewrite !filter_cons. cbn [fst].
  destruct (decide (notnull (key r) = true)); cbn [fmap list_fmap snd]; by rewrite IH.
Qed.

(** What [groupby(keys)['USRCPUT_TIMER'].sum()] holds, in terms of the rows
    of the frame. *)
Lemma grouped_timer_sums df keys g :
  (recs ← records df keys "USRCPUT_TIMER"; groupby_sum recs) = Ok g →
  g.*1 = group_keys (tuple_of_row keys <$> rows df) ∧
  NoDup g.*1 ∧
  (∀ k, k ∈ g.*1 ↔ notnull k = true ∧ ∃ r, r ∈ rows df ∧ tuple_of_row keys r = k) ∧
  (∀ k v, (k, v) ∈ g →
     v = fsum (timers (filter (λ r, tuple_of_row keys r = k) (rows df)))).
Proof.
  intros H. inv_result. apply records_Ok in Ha as ->.
  apply groupby_sum_Ok in H as [Hkeys Hsums].
  rewrite <-list_fmap_compose in Hkeys. split_and!.
  - done.
  - rewrite Hkeys. apply group_keys_NoDup.
  - intros k. rewrite Hkeys, elem_of_group_keys.
    rewrite list_elem_of_fmap. cbn. split.
    + intros [Hk (r & -> & Hr)]. eauto.
    + intros [Hk (r & Hr & <-)]. eauto.
  - intros k v Hkv. rewrite Forall_forall in Hsums. specialize (Hsums _ Hkv).
    cbn in Hsums. by rewrite Hsums, group_fmap, omap_fmap_compose.
Qed.

Lemma has_cics_notnull r : has_cics r = true → notnull (tuple_of_row ["SMFMNSPN"] r) = true.
Proof. unfold has_cics, tuple_of_row. cbn. by destruct (cell_of_row "SMFMNSPN" r). Qed.

Lemma filter_all {A} (P : A → Prop) `{∀ x, Decision (P x)} (l : list A) :
  Forall P l → filter P l = l.
Proof.
  induction 1 as [|x l Hx _ IH]; [done|]. by rewrite filter_cons, decide_True, IH.
Qed.

(** *** The share of CPU time *)




Lemma Forall_sublist {A} (P : A → Prop) (l l' : list A) :
  l `sublist_of` l' → Forall P l' → Forall P l.
Proof.
  intros Hsub. rewrite !Forall_forall. intros H x Hx. apply H.
  by eapply sublist_subseteq.
Qed.

(** *** Runs of cells *)

Lemma run_preserves (P : notebook → Prop) cells : ∀ nb,
  (∀ c nb, c ∈ cells → P nb → P (c nb).1) → P nb → P (run cells nb).1.
Proof.
  induction cells as [|c cells IH]; intros nb Hcells HP; [done|].
  cbn [run]. unfold mbind, Py_bind.
  pose proof (Hcells c nb ltac:(left) HP) as Hc.
  destruct (c nb) as [nb' [[]|e]]; [|done].
  apply IH; [|done]. intros c' nb'' Hc'. apply Hcells. by right.
Qed.

Lemma run_raise c cells nb nb' e :
  c nb = (nb', Raise e) → run (c :: cells) nb = (nb', Raise e).
Proof. intros H. cbn [run]. unfold mbind, Py_bind. by rewrite H. Qed.

(** *** The extraction cells *)

Lemma cell_json_extract_Ok w nb nb' :
  cell_json_extract w nb = (nb', Ok tt) →
  ∃ df df',
    pd_read_json w SMF110_PATH = Ok df ∧
    assign_frame "SMFMNRST" "SMFMNRST" (series_apply (to_datetime_ms w)) df = Ok df' ∧
    nb' = {| heap := heap nb ++ [df'];
             globals := <["smf110_df":=VFrame (length (heap nb))]> (globals nb);
             engine := engine nb |}.
Proof.
  apply (wp_run_eq _ _ _ _ (λ _ nb', _) (λ _, True)).
  unfold cell_json_extract, update_column.
  apply wp_bind, wp_lift; [|done]. intros df Hdf.
  apply wp_bind, wp_bind_frame.
  apply wp_assign_column; [done|]. cbn [globals heap engine].
  intros l df0 df' Hl Hdf0 Hdf'. rewrite lookup_insert_eq in Hl. injection Hl as <-.
  rewrite lookup_app_r, Nat.sub_diag in Hdf0 by done. injection Hdf0 as <-.
  exists df, df'. split_and!; [done..|]. f_equal.
  rewrite insert_app_r_alt, Nat.sub_diag by done. done.
Qed.

Lemma wp_get_smf_data w dbtable nb Q :
  (∀ t, Q t {| heap := heap nb; globals := globals nb; engine := engine nb ++ ["load"] |}) →
  wp (get_smf_data w dbtable) nb Q (λ _, True).
Proof.
  intros HQ. unfold get_smf_data.
  apply wp_bind, wp_get_var; [|done]. intros _ _.
  apply wp_bind, wp_get_var; [|done]. intros pw _.
  apply wp_bind, wp_lift; [|done]. intros password _.
  apply wp_bind, wp_spark_call. apply wp_lift; [|done]. intros t _. apply HQ.
Qed.

Lemma cell_spark_extract_Ok w nb nb' :
  cell_spark_extract w nb = (nb', Ok tt) →
  ∃ joined_df filtered_df,
    spark_select joined_df source_columns = Ok filtered_df ∧
    nb' = {| heap := heap nb ++ [toPandas (spark_limit 80000 filtered_df)];
             globals := <["smf110_df":=VFrame (length (heap nb))]> (globals nb);
             engine := engine nb ++
                       ["load"; "load"; "join"; "select"; "limit"; "toPandas"] |}.
Proof.
  apply (wp_run_eq _ _ _ _ (λ _ nb', _) (λ _, True)).
  unfold cell_spark_extract.
  apply wp_bind, wp_get_smf_data. intros cics_section.
  apply wp_bind, wp_get_smf_data. intros product_section.
  apply wp_bind, wp_spark_call.
  apply wp_bind, wp_lift; [|done]. intros joined_df _.
  apply wp_bind, wp_spark_call.
  apply wp_bind, wp_lift; [|done]. intros filtered_df Hsel.
  apply wp_bind, wp_spark_call. apply wp_bind, wp_spark_call.
  apply wp_bind_frame. cbn [globals heap engine].
  exists joined_df, filtered_df. split; [done|]. f_equal.
  by rewrite <-!app_assoc.
Qed.

Lemma spark_select_columns t names t' :
  spark_select t names = Ok t' → s_columns t' = names.
Proof. unfold spark_select. intros H. inv_result. by subst t'. Qed.

Lemma toPandas_rows t : length (rows (toPandas t)) = length (s_rows t).
Proof. unfold toPandas. cbn. by rewrite length_imap. Qed.

(** *** The cells below the extraction leave the engine alone *)

Lemma cell_clean_engine w nb : engine (cell_clean w nb).1 = engine nb.
Proof.
  apply (wp_final _ _ (λ nb', engine nb' = engine nb)).
  unfold cell_clean, update_column.
  apply wp_bind, wp_assign_column; [done|]. intros ? ? ? _ _ _.
  apply wp_bind, wp_assign_column; [done|]. intros ? ? ? _ _ _.
  apply wp_bind, wp_assign_column; [done|]. intros ? ? ? _ _ _.
  apply wp_bind, wp_frame_var; [|done]. intros ? ? _ _.
  apply wp_bind, wp_bind_frame.
  apply wp_bind, wp_frame_var; [|done]. intros ? ? _ _.
  apply wp_bind, wp_lift; [|done]. intros ? _.
  by apply wp_bind_frame.
Qed.

Lemma analysis_cell_engine c nb : c ∈ analysis_cells → engine (c nb).1 = engine nb.
Proof.
  intros Hc. apply effects_engine, (wp_final _ _ (rtc effect nb)).
  by apply analysis_cell_effects.
Qed.

Lemma cell_clean_frames w nb nb' :
  cell_clean w nb = (nb', Ok tt) →
  ∃ df T0 F,
    frame_of nb "smf110_df" = Some df ∧ cast_frame w df = Ok T0 ∧
    cics_filter T0 = Ok F ∧
    frame_of nb' "orig_smf110_df" = Some T0 ∧ frame_of nb' "smf110_df" = Some F.
Proof.
  intros (l & df & T0 & F & Hl & Hdf & HT0 & HF & ->)%cell_clean_Ok.
  assert (Hlen : length (<[l:=T0]> (heap nb)) = length (heap nb)) by by rewrite length_insert.
  exists df, T0, F. split_and!; try done; unfold frame_of; cbn.
  - by rewrite Hl.
  - rewrite lookup_insert_ne, lookup_insert_eq by done.
    rewrite lookup_app_l by (rewrite length_app, Hlen; cbn; lia).
    by rewrite lookup_app_r, Hlen, Nat.sub_diag by lia.
  - rewrite lookup_insert_eq.
    rewrite lookup_app_r by (rewrite length_app, Hlen; cbn; lia).
    rewrite length_app, Hlen. cbn.
    by replace (S (length (heap nb)) - (length (heap nb) + 1)) with 0 by lia.
Qed.

Lemma has_cics_spec r :
  has_cics r = true ↔
  ∃ s a b, cell_of_row "SMFMNSPN" r = Str s ∧ s = a +:+ "CICS" +:+ b.
Proof.
  unfold has_cics. destruct (cell_of_row "SMFMNSPN" r) as [| | | |s|];
    try (split; [done|by intros (?&?&?&?&?)]).
  rewrite contains_spec. split.
  - intros (a & b & ->). by exists (a +:+ "CICS" +:+ b), a, b.
  - intros (s' & a & b & [= <-] & ->). by exists a, b.
Qed.

Lemma filter_has_cics_labels (rs rs' : list (Z * gmap string cell)) :
  (λ r, (r.1, cell_of_row "SMFMNSPN" r)) <$> rs =
  (λ r, (r.1, cell_of_row "SMFMNSPN" r)) <$> rs' →
  (List.filter has_cics rs).*1 = (List.filter has_cics rs').*1.
Proof.
  revert rs'. induction rs as [|r rs IH]; intros [|r' rs'] H; try done.
  cbn [fmap list_fmap] in H. injection H as Hl Hc Hrest.
  cbn [List.filter].
  assert (has_cics r = has_cics r') as -> by (unfold has_cics; by rewrite Hc).
  destruct (has_cics r'); cbn [fmap list_fmap]; [rewrite Hl; f_equal|]; by apply IH.
Qed.

(** C3.  When the data-cleaning cell succeeds on the frame [df] that
    [smf110_df] is bound to, [orig_smf110_df] holds the cast frame, which
    has the rows of [df] with their labels and their SMFMNSPN, and
    [smf110_df] holds exactly the rows of the cast frame whose SMFMNSPN is a
    string with ["CICS"] somewhere in it, in their order: the rows kept are
    those of the rows of [df] with such an SMFMNSPN. *)
Theorem cics_rows_kept w nb nb' :
  cell_clean w nb = (nb', Ok tt) →
  ∃ df T0 F,
    frame_of nb "smf110_df" = Some df ∧ cast_frame w df = Ok T0 ∧
    frame_of nb' "orig_smf110_df" = Some T0 ∧ frame_of nb' "smf110_df" = Some F ∧
    columns F = columns df ∧
    index T0 = index df ∧
    column_values T0 "SMFMNSPN" = column_values df "SMFMNSPN" ∧
    rows F = List.filter has_cics (rows T0) ∧
    index F = (List.filter has_cics (rows df)).*1 ∧
    (∀ r, r ∈ rows F ↔
          r ∈ rows T0 ∧
          ∃ s a b, cell_of_row "SMFMNSPN" r = Str s ∧ s = a +:+ "CICS" +:+ b).
Proof.
  intros (df & T0 & F & Hdf & HT0 & HF%cics_filter_Ok & Horig & Hsmf)%cell_clean_frames.
  destruct (cast_frame_Ok _ _ _ HT0) as (Hcols & Hidx & _ & Hother).
  assert (Hspn : column_values T0 "SMFMNSPN" = column_values df "SMFMNSPN").
  { apply Hother. apply (bool_decide_unpack _). by vm_compute. }
  exists df, T0, F. subst F. cbn. split_and!; [done..| |].
  - unfold index. cbn [rows]. by apply filter_has_cics_labels.
  - intros r. by rewrite list_elem_of_In, filter_In, <-list_elem_of_In, has_cics_spec.
Qed.

(** C4, as amended.  The database pull yields exactly the eleven selected
    columns; the JSON path yields the columns of the file, whatever they
    are, SMFMNRST among them. *)
Theorem columns_of_extractions w nbs nbs' nbj nbj' :
  cell_spark_extract w nbs = (nbs', Ok tt) →
  cell_json_extract w nbj = (nbj', Ok tt) →
  ∃ Fs Fj file,
    frame_of nbs' "smf110_df" = Some Fs ∧ columns Fs = source_columns ∧
    pd_read_json w SMF110_PATH = Ok file ∧
    frame_of nbj' "smf110_df" = Some Fj ∧ columns Fj = columns file ∧
    "SMFMNRST" ∈ columns file.
Proof.
  intros (joined & t & Ht%spark_select_columns & ->)%cell_spark_extract_Ok
    (file & Fj & Hfile & (Hin & Hcols & _)%assign_frame_same & ->)%cell_json_extract_Ok.
  exists (toPandas (spark_limit 80000 t)), Fj, file.
  unfold frame_of. cbn [globals heap].
  rewrite !lookup_insert_eq, !lookup_app_r, !Nat.sub_diag by done.
  split_and!; [done|by rewrite <-Ht|done..].
Qed.

(** C5.  The frame the Spark path leaves in [smf110_df] has at most 80000
    rows, and neither the data-cleaning cell nor any analysis cell run
    afterwards, in any order, calls the engine. *)
Theorem spark_rows_bounded w nb nb' cells :
  cell_spark_extract w nb = (nb', Ok tt) →
  Forall (λ c, c = cell_clean w ∨ c ∈ analysis_cells) cells →
  ∃ F, frame_of nb' "smf110_df" = Some F ∧ (length (rows F) ≤ 80000)%nat ∧
       engine (run cells nb').1 = engine nb'.
Proof.
  intros (joined & t & _ & Hnb')%cell_spark_extract_Ok Hcells.
  exists (toPandas (spark_limit 80000 t)). split_and!.
  - subst nb'. unfold frame_of. cbn [globals heap].
    by rewrite lookup_insert_eq, lookup_app_r, Nat.sub_diag.
  - rewrite toPandas_rows. unfold spark_limit. cbn [s_rows]. rewrite length_take. apply Nat.le_min_l.
  - apply (run_preserves (λ nb0, engine nb0 = engine nb')); [|done].
    intros c nb0 Hc <-. rewrite Forall_forall in Hcells.
    destruct (Hcells c Hc) as [->|Hc']; [apply cell_clean_engine|by apply analysis_cell_engine].
Qed.

(** *** Column types *)

Lemma column_holds_subframe P F T name :
  name ∈ source_columns → subframe F T → column_holds P T name → column_holds P F name.
Proof.
  intros Hname Hsub [Hin HP]. destruct (Hsub name Hname Hin) as [HinF Hsl].
  split; [done|]. eapply Forall_sublist; [|done]. by apply fmap_sublist.
Qed.

Lemma typed_subframe F T : subframe F T → typed T → typed F.
Proof.
  intros Hsub [(H1 & H2 & H3) H4]. unfold typed, cast_types.
  split_and!; (eapply column_holds_subframe; [|done..]);
    apply (bool_decide_unpack _); by vm_compute.
Qed.

Lemma cell_json_extract_wf w nb nb' :
  wf_notebook nb → cell_json_extract w nb = (nb', Ok tt) → wf_notebook nb'.
Proof.
  intros Hwf (df & df' & _ & _ & ->)%cell_json_extract_Ok x l. cbn.
  rewrite length_app. cbn. destruct (decide (x = "smf110_df")) as [->|?].
  - rewrite lookup_insert_eq. intros [= <-]. lia.
  - rewrite lookup_insert_ne by done. intros H%Hwf. lia.
Qed.

Lemma wf_empty_notebook : wf_notebook empty_notebook.
Proof. intros x l. cbn. by rewrite lookup_empty. Qed.

(** The invariant of the cells below the data-cleaning cell. *)
Lemma analysis_invariant w nb nb1 cells :
  wf_notebook nb → cell_clean w nb = (nb1, Ok tt) →
  Forall (λ c, c ∈ analysis_cells) cells →
  ∃ df T0,
    frame_of nb "smf110_df" = Some df ∧ cast_frame w df = Ok T0 ∧
    frame_of nb1 "orig_smf110_df" = Some T0 ∧
    orig_is T0 (run cells nb1).1 ∧
    (globals nb !! "smf110_filtered_tran_df" = None → derived_from T0 (run cells nb1).1).
Proof.
  intros Hwf (df & T0 & F & Hdf & HT0 & _ & Horig & _ & Hinv & Hder & _)%cell_clean_establishes
    Hcells; [|done].
  pose proof (run_analysis_effects cells nb1 Hcells) as Heff.
  exists df, T0. split_and!; [done..| |].
  - by eapply effects_orig_is.
  - intros Hnone. eapply effects_derived_from; [done|]. by apply Hder.
Qed.

Lemma orig_is_frame_of T0 nb : orig_is T0 nb → frame_of nb "orig_smf110_df" = Some T0.
Proof. intros [_ (lo & Hlo & HT0 & _)]. unfold frame_of. by rewrite Hlo. Qed.

(** C10.  [orig_smf110_df] is bound, by the data-cleaning cell, to an object
    of its own that holds the cast frame: every row of the input, with
    TRANNUM, USRCPUT_TIMER and USRCPUT_COUNT cast.  Whatever analysis cells
    run afterwards, in any order and whether or not they raise, it still
    holds that frame. *)
Theorem orig_unchanged w nb nb1 cells :
  wf_notebook nb → cell_clean w nb = (nb1, Ok tt) →
  Forall (λ c, c ∈ analysis_cells) cells →
  ∃ df T0,
    frame_of nb "smf110_df" = Some df ∧ cast_frame w df = Ok T0 ∧
    columns T0 = columns df ∧ index T0 = index df ∧ cast_types T0 ∧
    frame_of nb1 "orig_smf110_df" = Some T0 ∧
    frame_of (run cells nb1).1 "orig_smf110_df" = Some T0.
Proof.
  intros Hwf Hclean Hcells.
  destruct (analysis_invariant _ _ _ _ Hwf Hclean Hcells)
    as (df & T0 & Hdf & HT0 & Horig & Hinv & _).
  destruct (cast_frame_Ok _ _ _ HT0) as (Hcols & Hidx & Htypes & _).
  exists df, T0. split_and!; try done. by apply orig_is_frame_of.
Qed.



(** C8.  No cell recovers from an exception: what [open], [pd.read_json] or
    a column access raises is what the cell raises, in the state the cell
    had reached; the code after the raising call does not run, and a run of
    cells stops there with that exception. *)
Theorem errors_propagate w :
  (∀ e nb, open_readline w CREDENTIALS_PATH = Raise e →
     get_credentials w = Raise e ∧ cell_credentials w nb = (nb, Raise e)) ∧
  (∀ e nb, pd_read_json w SMF110_PATH = Raise e →
     cell_json_extract w nb = (nb, Raise e)) ∧
  (∀ df name, name ∉ columns df → getitem df name = Raise (KeyError name)) ∧
  (∀ nb df, frame_of nb "smf110_df" = Some df → "TRANNUM" ∉ columns df →
     cell_clean w nb = (nb, Raise (KeyError "TRANNUM"))) ∧
  (∀ A B (m : Py A) (f : A → Py B) nb nb' e,
     m nb = (nb', Raise e) → (m ≫= f) nb = (nb', Raise e)) ∧
  (∀ c cells nb nb' e, c nb = (nb', Raise e) → run (c :: cells) nb = (nb', Raise e)).
Proof.
  split_and!.
  - intros e nb H. unfold cell_credentials, get_credentials, lift, mbind, Py_bind.
    by rewrite H.
  - intros e nb H. unfold cell_json_extract, lift, mbind, Py_bind. by rewrite H.
  - intros df name H. by apply getitem_Raise.
  - intros nb df Hdf Hcol. unfold frame_of in Hdf.
    destruct (globals nb !! "smf110_df") as [[]|] eqn:Hl; try done.
    unfold cell_clean, update_column, assign_column, frame_var, lift, mbind, Py_bind.
    rewrite Hl, Hdf. unfold assign_frame. cbn.
    by rewrite (proj2 (getitem_Raise df "TRANNUM" _) (conj Hcol eq_refl)).
  - intros A B m f nb nb' e H. unfold mbind, Py_bind. by rewrite H.
  - intros c cells nb nb' e. apply run_raise.
Qed.

(** *** The grouped sums of the cleaned frame *)

(** C2, as amended.  On the frame the data-cleaning cell leaves in
    [smf110_df], USRCPUT_TIMER holds floats, and the grouped sum of
    USRCPUT_TIMER by SMFMNSPN has one entry per region that occurs; the
    entry of a region is the float64 sum, in row order, of USRCPUT_TIMER
    over exactly the rows of that region; and the rows of the regions,
    taken together, are the rows of the frame, each once. *)
Theorem cpu_time_per_region_sums w nb nb1 df g :
  cell_clean w nb = (nb1, Ok tt) →
  frame_of nb1 "smf110_df" = Some df →
  cpu_time_per_region_of df = Ok g →
  column_holds is_float df "USRCPUT_TIMER" ∧
  NoDup g.*1 ∧
  (∀ r, r ∈ rows df → [cell_of_row "SMFMNSPN" r] ∈ g.*1) ∧
  (∀ k v, (k, v) ∈ g →
     ∃ region, k = [region] ∧
       (∃ r, r ∈ rows df ∧ cell_of_row "SMFMNSPN" r = region) ∧
       v = fsum (timers (filter (λ r, cell_of_row "SMFMNSPN" r = region) (rows df)))) ∧
  mjoin ((λ k, filter (λ r, [cell_of_row "SMFMNSPN" r] = k) (rows df)) <$> g.*1)
    ≡ₚ rows df.
Proof.
  intros (df0 & T0 & F & _ & HT0 & HF & _ & Hsmf)%cell_clean_frames Hdf Hg.
  rewrite Hsmf in Hdf. injection Hdf as ->.
  destruct (cast_frame_Ok _ _ _ HT0) as (_ & _ & (_ & Hfloat & _) & _).
  pose proof (cics_filter_subframe _ _ HF) as Hsub.
  apply cics_filter_Ok in HF.
  unfold cpu_time_per_region_of in Hg.
  apply grouped_timer_sums in Hg as (_ & Hnd & Hkeys & Hsums).
  assert (Hrows : Forall (λ r, notnull (tuple_of_row ["SMFMNSPN"] r) = true) (rows df)).
  { subst df. cbn. apply Forall_forall. intros r Hr.
    apply list_elem_of_In, filter_In in Hr as [_ Hr]. by apply has_cics_notnull. }
  assert (Hall : ∀ r, r ∈ rows df → [cell_of_row "SMFMNSPN" r] ∈ g.*1).
  { intros r Hr. apply Hkeys. rewrite Forall_forall in Hrows.
    split; [by apply Hrows|by exists r]. }
  split_and!; [|done|done| |].
  - eapply column_holds_subframe; [|done..]. apply (bool_decide_unpack _). by vm_compute.
  - intros k v Hkv.
    assert (Hk : k ∈ g.*1) by (apply list_elem_of_fmap; by exists (k, v)).
    apply Hkeys in Hk as (_ & r & Hr & <-). exists (cell_of_row "SMFMNSPN" r).
    split_and!; [done|by exists r|]. rewrite (Hsums _ _ Hkv).
    erewrite (list_filter_iff _ (λ r0, cell_of_row "SMFMNSPN" r0 = cell_of_row "SMFMNSPN" r));
      [done|]. intros r0. cbn. split; [by intros [= ->]|by intros ->].
  - rewrite (groups_partition (λ r, [cell_of_row "SMFMNSPN" r]) g.*1 (rows df) Hnd).
    rewrite filter_all; [done|]. by apply Forall_forall.
Qed.


(** *** The sample run *)

Lemma analysis_cells_all : Forall (λ c, c ∈ analysis_cells) analysis_cells.
Proof. by apply Forall_forall. Qed.


Lemma sample_loaded_wf : wf_notebook sample_loaded.
Proof.
  apply (cell_json_extract_wf sample_world empty_notebook); [apply wf_empty_notebook|].
  by vm_compute.
Qed.


(** The hypotheses of C2 hold of the sample, and so does its conclusion. *)
Lemma cpu_time_per_region_sums_witness :
  cell_clean sample_world sample_loaded = (sample_cleaned, Ok tt) ∧
  frame_of sample_cleaned "smf110_df" = Some sample_smf110 ∧
  cpu_time_per_region_of sample_smf110 = Ok sample_sums ∧
  sample_sums = [([Str "CICS3AAB"], f64 1 1); ([Str "CICS6AAA"], f64 4 1)] ∧
  mjoin ((λ k, filter (λ r, [cell_of_row "SMFMNSPN" r] = k) (rows sample_smf110))
           <$> sample_sums.*1) ≡ₚ rows sample_smf110.
Proof.
  assert (H1 : cell_clean sample_world sample_loaded = (sample_cleaned, Ok tt))
    by (vm_compute; reflexivity).
  assert (H2 : frame_of sample_cleaned "smf110_df" = Some sample_smf110)
    by (vm_compute; reflexivity).
  assert (H3 : cpu_time_per_region_of sample_smf110 = Ok sample_sums)
    by (vm_compute; reflexivity).
  split_and!; [done..|by vm_compute|].
  apply (cpu_time_per_region_sums sample_world sample_loaded sample_cleaned
           sample_smf110 sample_sums H1 H2 H3).
Defined.

(** C2 fails as stated: with the CPU times 0.1, 0.4 and 0.1, the first and
    the last of one region, the data-cleaning cell and the grouped sum run,
    the sums of the two regions are 0.2 and 0.4, and these add up to
    0.6000000000000001, while the sum over all rows is 0.6. *)
Lemma group_sums_differ :
  ∃ nb df g total,
    run [cell_json_extract (world_of rounding_frame); cell_clean (world_of rounding_frame);
         cell_cpu_time_per_region] empty_notebook = (nb, Ok tt) ∧
    frame_of nb "smf110_df" = Some df ∧
    globals nb !! "cpu_time_per_region" = Some (VGrouped g) ∧
    cpu_time_per_region_of df = Ok g ∧
    g = [([Str "CICS3AAB"], f64 2 10); ([Str "CICS6AAA"], f64 4 10)] ∧
    timers (rows df) = [f64 1 10; f64 4 10; f64 1 10] ∧
    total_cpu_of df = Ok total ∧
    total = f64 6 10 ∧
    fsum g.*2 ≠ total ∧
    fltb total (fsum g.*2) = true ∧
    (exact_sum g.*2 > Q_of_float total)%Q.
Proof.
  eexists _, _, _, _. split_and!.
  - vm_compute. reflexivity.
  - vm_compute. reflexivity.
  - vm_compute. reflexivity.
  - vm_compute. reflexivity.
  - vm_compute. reflexivity.
  - vm_compute. reflexivity.
  - vm_compute. reflexivity.
  - vm_compute. reflexivity.
  - by vm_compute.
  - by vm_compute.
  - by vm_compute.
Qed.

(** The hypothesis of C3 holds of the sample: the row of region DB2XPROD is
    dropped, the five CICS rows are kept. *)
Lemma cics_rows_kept_witness :
  cell_clean sample_world sample_loaded = (sample_cleaned, Ok tt) ∧
  ∃ df T0 F,
    frame_of sample_loaded "smf110_df" = Some df ∧ cast_frame sample_world df = Ok T0 ∧
    frame_of sample_cleaned "orig_smf110_df" = Some T0 ∧
    frame_of sample_cleaned "smf110_df" = Some F ∧
    columns F = columns df ∧
    index T0 = index df ∧
    column_values T0 "SMFMNSPN" = column_values df "SMFMNSPN" ∧
    rows F = List.filter has_cics (rows T0) ∧
    index F = (List.filter has_cics (rows df)).*1 ∧
    (∀ r, r ∈ rows F ↔
          r ∈ rows T0 ∧
          ∃ s a b, cell_of_row "SMFMNSPN" r = Str s ∧ s = a +:+ "CICS" +:+ b).
Proof.
  assert (H : cell_clean sample_world sample_loaded = (sample_cleaned, Ok tt))
    by (vm_compute; reflexivity).
  split; [done|]. apply (cics_rows_kept sample_world sample_loaded sample_cleaned H).
Defined.

(** Both extraction paths succeed in the sample world. *)
Lemma columns_of_extractions_witness :
  cell_spark_extract sample_world spark_ready =
    ((cell_spark_extract sample_world spark_ready).1, Ok tt) ∧
  cell_json_extract sample_world empty_notebook = (sample_loaded, Ok tt) ∧
  ∃ Fs Fj file,
    frame_of (cell_spark_extract sample_world spark_ready).1 "smf110_df" = Some Fs ∧
    columns Fs = source_columns ∧
    pd_read_json sample_world SMF110_PATH = Ok file ∧
    frame_of sample_loaded "smf110_df" = Some Fj ∧ columns Fj = columns file ∧
    "SMFMNRST" ∈ columns file.
Proof.
  assert (H1 : cell_spark_extract sample_world spark_ready =
               ((cell_spark_extract sample_world spark_ready).1, Ok tt))
    by (vm_compute; reflexivity).
  assert (H2 : cell_json_extract sample_world empty_notebook = (sample_loaded, Ok tt))
    by (vm_compute; reflexivity).
  split_and!; [done..|].
  apply (columns_of_extractions sample_world spark_ready _ empty_notebook sample_loaded H1 H2).
Defined.

(** C4 fails as stated: a JSON file with other columns goes through the
    whole notebook, and [smf110_df] then has the file's columns, not the
    eleven of the database pull. *)
Lemma json_columns_differ :
  ∃ nb F,
    cell_json_extract (world_of other_frame) empty_notebook = (nb, Ok tt) ∧
    frame_of nb "smf110_df" = Some F ∧
    (run (cell_clean (world_of other_frame) :: analysis_cells) nb).2 = Ok tt ∧
    "JOBNAME" ∈ columns F ∧ "JOBNAME" ∉ source_columns ∧
    "USRCPUT_FLAG" ∈ source_columns ∧ "USRCPUT_FLAG" ∉ columns F.
Proof.
  exists (cell_json_extract (world_of other_frame) empty_notebook).1.
  eexists. split_and!.
  - vm_compute. reflexivity.
  - vm_compute. reflexivity.
  - vm_compute. reflexivity.
  - apply (bool_decide_unpack _). by vm_compute.
  - apply (bool_decide_unpack _). by vm_compute.
  - apply (bool_decide_unpack _). by vm_compute.
  - apply (bool_decide_unpack _). by vm_compute.
Qed.

(** The Spark extraction succeeds in the sample world. *)
Lemma spark_rows_bounded_witness :
  cell_spark_extract sample_world spark_ready =
    ((cell_spark_extract sample_world spark_ready).1, Ok tt) ∧
  ∃ F, frame_of (cell_spark_extract sample_world spark_ready).1 "smf110_df" = Some F ∧
       (length (rows F) ≤ 80000)%nat ∧
       engine (run (cell_clean sample_world :: analysis_cells)
                 (cell_spark_extract sample_world spark_ready).1).1 =
       engine (cell_spark_extract sample_world spark_ready).1.
Proof.
  assert (H1 : cell_spark_extract sample_world spark_ready =
               ((cell_spark_extract sample_world spark_ready).1, Ok tt))
    by (vm_compute; reflexivity).
  split; [done|].
  apply (spark_rows_bounded sample_world spark_ready _
           (cell_clean sample_world :: analysis_cells) H1).
  constructor; [by left|]. apply Forall_forall. intros c Hc. by right.
Defined.



(** The hypotheses of C10 hold of the sample. *)
Lemma orig_unchanged_witness :
  cell_clean sample_world sample_loaded = (sample_cleaned, Ok tt) ∧
  ∃ df T0,
    frame_of sample_loaded "smf110_df" = Some df ∧ cast_frame sample_world df = Ok T0 ∧
    columns T0 = columns df ∧ index T0 = index df ∧ cast_types T0 ∧
    frame_of sample_cleaned "orig_smf110_df" = Some T0 ∧
    frame_of (run analysis_cells sample_cleaned).1 "orig_smf110_df" = Some T0.
Proof.
  assert (H : cell_clean sample_world sample_loaded = (sample_cleaned, Ok tt))
    by (vm_compute; reflexivity).
  split; [done|].
  apply (orig_unchanged sample_world sample_loaded sample_cleaned analysis_cells
           sample_loaded_wf H analysis_cells_all).
Defined.


(** The shares of the sample, 1/7 each, do not add up to 1. *)
Lemma sample_shares_below_one :
  ∃ shares,
    globals (run_all sample_world).1 !! "cpu_percentage_per_region" = Some (VShares shares) ∧
    shares = [([Str "S1"; Str "CICS3AAB"], Float (f64 1 7));
              ([Str "S2"; Str "CICS6AAA"], Float (f64 1 7))] ∧
    (exact_sum (omap cell_float shares.*2) < 1)%Q.
Proof. eexists. split_and!; [vm_compute; reflexivity|by vm_compute|by vm_compute]. Qed.


(** C1, on the sample.  With two systems the loops of the transaction-rate
    cell give a column to every pair of a system and a region, fill the
    column (S1, CICS6AAA) with the rates of the rows of S2, and leave the
    columns of S2 at NaN; the grouped mean has the two pairs that occur. *)
Theorem cics_trans_two_systems :
  (run_all sample_world).2 = Ok tt ∧
  globals (run_all sample_world).1 !! "trans_rate_per_region" = Some (VPivot sample_pivot) ∧
  globals (run_all sample_world).1 !! "cics_trans_df" =
    Some (VTable
            [((Str "S1", Str "CICS3AAB"), [Float (f64 0 1); Float (f64 1 1); Float (f64 1 2)]);
             ((Str "S1", Str "CICS6AAA"), [Float (f64 1 1); Float (f64 0 1); Float (f64 0 1)]);
             ((Str "S2", Str "CICS3AAB"), [Null; Null; Null]);
             ((Str "S2", Str "CICS6AAA"), [Null; Null; Null])]) ∧
  grouped_mean sample_pivot =
    Ok [((Str "S1", Str "CICS3AAB"), [Float (f64 0 1); Float (f64 1 1); Float (f64 1 2)]);
        ((Str "S2", Str "CICS6AAA"), [Float (f64 1 1); Float (f64 0 1); Float (f64 0 1)])] ∧
  cics_trans_table sample_pivot ≠ grouped_mean sample_pivot.
Proof.
  split_and!; [by vm_compute..|]. by vm_compute.
Qed.

(** *** More of the sample *)

(** A region name with CICS inside is kept, though it does not start with
    CICS. *)
Example has_cics_inside :
  has_cics (sample_row 0 "S1" "PRDCICS1" "Y195" (f64 1 1) 1000) = true ∧
  startswith "CICS" "PRDCICS1" = false.
Proof. split; reflexivity. Qed.

(** Without a credentials file the credentials cell raises what [open]
    raised, and the JSON extraction what [pd.read_json] raised. *)
Example no_files :
  cell_credentials locked_world empty_notebook = (empty_notebook, Raise (OSError "")) ∧
  run_all locked_world = (empty_notebook, Raise (OSError "")).
Proof. split; reflexivity. Qed.

(** With one system the loops of the transaction-rate cell and the grouped
    mean agree. *)
Example cics_trans_one_system :
  cics_trans_table one_system_pivot = grouped_mean one_system_pivot.
Proof. by vm_compute. Qed.

(** *** Counting values *)

Lemma insert_sorted_sorted {A} (leb : A → A → bool) x l :
  (∀ a b, leb a b = false → leb b a = true) →
  (∀ a b c, leb a b = true → leb b c = true → leb a c = true) →
  StronglySorted (λ a b, leb a b = true) l →
  StronglySorted (λ a b, leb a b = true) (insert_sorted leb x l).
Proof.
  intros Htot Htrans. induction 1 as [|y l Hl IH Hy]; cbn.
  - repeat constructor.
  - destruct (leb x y) eqn:Hxy.
    + constructor; [by constructor|]. constructor; [done|].
      eapply Forall_impl; [exact Hy|]. intros z Hz. by eapply Htrans.
    + constructor; [done|]. rewrite insert_sorted_perm.
      constructor; [by apply Htot|done].
Qed.

Lemma sorted_by_sorted {A} (leb : A → A → bool) l :
  (∀ a b, leb a b = false → leb b a = true) →
  (∀ a b c, leb a b = true → leb b c = true → leb a c = true) →
  StronglySorted (λ a b, leb a b = true) (sorted_by leb l).
Proof.
  intros Htot Htrans. induction l as [|x l IH]; cbn; [constructor|].
  by apply insert_sorted_sorted.
Qed.

Lemma StronglySorted_lookup {A} (R : A → A → Prop) l i j x y :
  StronglySorted R l → i < j → l !! i = Some x → l !! j = Some y → R x y.
Proof.
  intros Hs. revert i j. induction Hs as [|a l Hl IH Ha]; intros i j Hij Hi Hj; [done|].
  destruct j as [|j]; [lia|]. destruct i as [|i]; cbn in *.
  - injection Hi as <-. rewrite Forall_forall in Ha. apply Ha.
    by eapply list_elem_of_lookup_2.
  - apply (IH i j); [lia|done..].
Qed.

Lemma StronglySorted_mono {A} (R R' : A → A → Prop) l :
  (∀ a b, R a b → R' a b) → StronglySorted R l → StronglySorted R' l.
Proof.
  intros HR. induction 1 as [|x l Hl IH Hx]; constructor; [done|].
  eapply Forall_impl; [exact Hx|]. intros y. apply HR.
Qed.

Lemma filter_eq_notnull (v : cell) (l : list cell) :
  v ≠ Null →
  filter (λ c, c = v) (List.filter (λ c, negb (bool_decide (c = Null))) l) =
  filter (λ c, c = v) l.
Proof.
  intros Hv. induction l as [|c l IH]; [done|]. cbn [List.filter].
  destruct (decide (c = Null)) as [->|Hc].
  - rewrite bool_decide_eq_true_2 by done. cbn [negb].
    rewrite (filter_cons _ Null), decide_False by done. exact IH.
  - rewrite bool_decide_eq_false_2 by done. cbn [negb].
    by rewrite !(filter_cons _ c), IH.
Qed.

Lemma filter_notnull_length (l : list cell) :
  length (List.filter (λ c, negb (bool_decide (c = Null))) l) =
  length (filter (λ c, c ≠ Null) l).
Proof.
  induction l as [|c l IH]; [done|]. cbn [List.filter]. rewrite filter_cons.
  destruct (decide (c = Null)) as [->|Hc].
  - rewrite bool_decide_eq_true_2 by done. cbn [negb]. by rewrite decide_False by tauto.
  - rewrite bool_decide_eq_false_2 by done. cbn [negb].
    rewrite decide_True by done. cbn. by rewrite IH.
Qed.

Lemma length_filter_other {A} `{EqDecision A} (k k' : A) (l : list A) :
  k' ≠ k →
  length (filter (λ c, c = k') (filter (λ c, c ≠ k) l)) = length (filter (λ c, c = k') l).
Proof.
  intros Hne. induction l as [|c l IH]; [done|].
  rewrite (filter_cons (λ c, c ≠ k)), (filter_cons (λ c, c = k') c).
  destruct (decide (c = k')) as [->|Hc].
  - rewrite decide_True by done. rewrite filter_cons, decide_True by done.
    cbn. by rewrite IH.
  - destruct (decide (c ≠ k)); [|done].
    by rewrite filter_cons, decide_False.
Qed.

Lemma length_filter_split {A} `{EqDecision A} (k : A) (l : list A) :
  length l = length (filter (λ c, c = k) l) + length (filter (λ c, c ≠ k) l).
Proof.
  induction l as [|c l IH]; [done|]. rewrite !filter_cons.
  destruct (decide (c = k)) as [->|Hc].
  - rewrite decide_False by tauto. cbn. lia.
  - rewrite decide_True by done. cbn. lia.
Qed.

(** The occurrences of the distinct values of a list add up to its
    length. *)
Lemma sum_counts {A} `{EqDecision A} (ks : list A) : ∀ l : list A,
  NoDup ks → (∀ x, x ∈ l → x ∈ ks) →
  sum_list ((λ k, length (filter (λ c, c = k) l)) <$> ks) = length l.
Proof.
  induction ks as [|k ks IH]; intros l Hnd Hin.
  - destruct l as [|x l]; [done|]. by destruct (not_elem_of_nil x); apply Hin; left.
  - apply NoDup_cons in Hnd as [Hk Hnd]. rewrite fmap_cons. cbn [sum_list_with].
    rewrite (length_filter_split k l). f_equal.
    rewrite <-(IH (filter (λ c, c ≠ k) l)); [|done|].
    + f_equal. apply Forall_fmap_ext_1, Forall_forall. intros k' Hk'.
      symmetry. apply length_filter_other. by intros ->.
    + intros x [Hxk Hx]%list_elem_of_filter.
      apply Hin, elem_of_cons in Hx as [->|Hx]; done.
Qed.

Lemma elem_of_distinct {A} `{EqDecision A} (x : A) (l : list A) : x ∈ distinct l ↔ x ∈ l.
Proof. unfold distinct. by rewrite elem_of_reverse, elem_of_remove_dups, elem_of_reverse. Qed.

Lemma NoDup_distinct {A} `{EqDecision A} (l : list A) : NoDup (distinct l).
Proof. unfold distinct. rewrite reverse_Permutation. apply NoDup_remove_dups. Qed.

Lemma value_counts_perm (s : Series) :
  value_counts s ≡ₚ
  (λ v, (v, length (filter (λ c, c = v) s.*2))) <$>
    distinct (List.filter (λ c, negb (bool_decide (c = Null))) s.*2).
Proof.
  unfold value_counts. rewrite sorted_by_perm.
  match goal with |- ?a ≡ₚ ?b => assert (a = b) as ->; [|done] end.
  apply Forall_fmap_ext_1, Forall_forall. intros v Hv. f_equal. f_equal.
  apply filter_eq_notnull.
  apply elem_of_distinct, list_elem_of_In, filter_In in Hv as [_ Hv].
  apply negb_true_iff, bool_decide_eq_false in Hv. done.
Qed.

Lemma value_counts_sorted (s : Series) :
  StronglySorted (λ a b : cell * nat, (b.2 ≤ a.2)%nat) (value_counts s).
Proof.
  unfold value_counts.
  eapply StronglySorted_mono; last first.
  - apply (sorted_by_sorted (λ a b : cell * nat, (b.2 <=? a.2)%nat)).
    + intros a b Hab. apply Nat.leb_gt in Hab. apply Nat.leb_le. lia.
    + intros a b c Hab Hbc. apply Nat.leb_le in Hab, Hbc. apply Nat.leb_le. lia.
  - intros a b Hab. by apply Nat.leb_le in Hab.
Qed.

Lemma elem_of_value_counts (s : Series) v n :
  (v, n) ∈ value_counts s ↔
  v ≠ Null ∧ v ∈ s.*2 ∧ n = length (filter (λ c, c = v) s.*2).
Proof.
  rewrite value_counts_perm, list_elem_of_fmap. split.
  - intros (v' & [= <- ->] & Hv).
    apply elem_of_distinct, list_elem_of_In, filter_In in Hv as [Hin Hv].
    apply negb_true_iff, bool_decide_eq_false in Hv.
    by rewrite <-list_elem_of_In in Hin.
  - intros (Hv & Hin & ->). exists v. split; [done|].
    apply elem_of_distinct, list_elem_of_In, filter_In. split.
    + by apply list_elem_of_In.
    + by apply negb_true_iff, bool_decide_eq_false.
Qed.

Lemma value_counts_keys (s : Series) :
  (value_counts s).*1 ≡ₚ
  distinct (List.filter (λ c, negb (bool_decide (c = Null))) s.*2).
Proof.
  rewrite value_counts_perm, <-list_fmap_compose. by rewrite list_fmap_id.
Qed.

Lemma value_counts_total (s : Series) :
  sum_list (value_counts s).*2 = length (filter (λ c, c ≠ Null) s.*2).
Proof.
  rewrite value_counts_perm, <-list_fmap_compose, <-filter_notnull_length.
  set (vs := List.filter _ s.*2).
  rewrite <-(sum_counts (distinct vs) vs);
    [|apply NoDup_distinct|by intros x Hx; apply elem_of_distinct].
  f_equal. apply Forall_fmap_ext_1, Forall_forall. intros v Hv. cbn.
  symmetry. f_equal. apply filter_eq_notnull.
  apply elem_of_distinct, list_elem_of_In, filter_In in Hv as [_ Hv].
  by apply negb_true_iff, bool_decide_eq_false in Hv.
Qed.

(** [value_counts()] lists every value that is not NaN once, with the number
    of rows holding it, the larger counts first; the counts add up to the
    number of rows whose value is not NaN. *)
Theorem value_counts_counts (s : Series) :
  NoDup (value_counts s).*1 ∧
  (∀ v n, (v, n) ∈ value_counts s ↔
     v ≠ Null ∧ v ∈ s.*2 ∧ n = length (filter (λ c, c = v) s.*2)) ∧
  (∀ i j x y, i < j → value_counts s !! i = Some x → value_counts s !! j = Some y →
     (y.2 ≤ x.2)%nat) ∧
  sum_list (value_counts s).*2 = length (filter (λ c, c ≠ Null) s.*2).
Proof.
  split_and!.
  - rewrite value_counts_keys. apply NoDup_distinct.
  - apply elem_of_value_counts.
  - intros i j x y Hij Hi Hj.
    by apply (StronglySorted_lookup _ _ i j x y (value_counts_sorted s)).
  - apply value_counts_total.
Qed.

(** *** The totals of the filtered frame *)

Lemma has_cics_rows df0 df :
  cics_filter df0 = Ok df → Forall (λ r, has_cics r = true) (rows df).
Proof.
  intros ->%cics_filter_Ok. cbn. apply Forall_forall. intros r Hr.
  by apply list_elem_of_In, filter_In in Hr as [_ Hr].
Qed.

(** [[9]], [[12]], [[13]].  On the frame the CICS filter leaves, the number
    of user tasks the totals cell prints, [len(smf110_df)], is the sum of
    the counts of [cics_run_per_region], and the regions of
    [cpu_time_per_region] are the regions of [cics_run_per_region]: every
    task is counted for one region, and the two charts show the same
    regions. *)
Theorem totals_agree df0 df g :
  cics_filter df0 = Ok df → cpu_time_per_region_of df = Ok g →
  length (rows df) = sum_list (value_counts (column_values df "SMFMNSPN")).*2 ∧
  g.*1 ≡ₚ (λ v, [v]) <$> (value_counts (column_values df "SMFMNSPN")).*1.
Proof.
  intros Hdf Hg. apply has_cics_rows in Hdf.
  assert (Hnn : Forall (λ c, c ≠ Null) (column_values df "SMFMNSPN").*2).
  { rewrite column_values_cells. apply Forall_fmap. eapply Forall_impl; [exact Hdf|].
    intros r Hr. unfold has_cics in Hr. cbn. by destruct (cell_of_row "SMFMNSPN" r). }
  split.
  - rewrite value_counts_total, filter_all by done.
    by rewrite column_values_cells, length_fmap.
  - unfold cpu_time_per_region_of in Hg.
    apply grouped_timer_sums in Hg as (_ & Hnd & Hkeys & _).
    apply NoDup_Permutation; [done| |].
    + apply NoDup_fmap; [by intros ?? [= ->]|]. rewrite value_counts_keys.
      apply NoDup_distinct.
    + intros k. rewrite Hkeys, list_elem_of_fmap. split.
      * intros (Hk & r & Hr & <-). exists (cell_of_row "SMFMNSPN" r). split; [done|].
        rewrite value_counts_keys, elem_of_distinct.
        apply list_elem_of_In, filter_In. split.
        -- apply list_elem_of_In. rewrite column_values_cells.
           apply list_elem_of_fmap. by exists r.
        -- cbn in Hk. rewrite andb_true_r in Hk. done.
      * intros (v & -> & Hv). rewrite value_counts_keys, elem_of_distinct in Hv.
        apply list_elem_of_In, filter_In in Hv as [Hv Hnull].
        apply list_elem_of_In in Hv. rewrite column_values_cells in Hv.
        apply list_elem_of_fmap in Hv as (r & -> & Hr).
        split; [cbn; by rewrite andb_true_r|by exists r].
Qed.

Lemma totals_agree_witness :
  cics_filter sample_frame = Ok sample_cics ∧
  cpu_time_per_region_of sample_cics = Ok sample_sums ∧
  length (rows sample_cics) =
    sum_list (value_counts (column_values sample_cics "SMFMNSPN")).*2 ∧
  sample_sums.*1 ≡ₚ (λ v, [v]) <$> (value_counts (column_values sample_cics "SMFMNSPN")).*1.
Proof.
  assert (H1 : cics_filter sample_frame = Ok sample_cics) by (vm_compute; reflexivity).
  assert (H2 : cpu_time_per_region_of sample_cics = Ok sample_sums)
    by (vm_compute; reflexivity).
  split_and!; [done..| |];
    apply (totals_agree sample_frame sample_cics sample_sums H1 H2).
Defined.

(** *** The most frequent transactions of a region *)

Lemma getitem_bool_eq_str df region :
  getitem_bool df (eq_str region (column_values df "SMFMNSPN")) =
    Ok {| columns := columns df;
          rows := List.filter (λ r, bool_decide (cell_of_row "SMFMNSPN" r = Str region))
                    (rows df) |}.
Proof.
  apply getitem_bool_own.
  - unfold eq_str. rewrite <-list_fmap_compose. apply column_values_index.
  - unfold eq_str, column_values. by rewrite <-!list_fmap_compose.
Qed.

Lemma top_transactions_of_Ok region df :
  "SMFMNSPN" ∈ columns df → "TRAN" ∈ columns df →
  top_transactions_of region df =
    Ok (take 5 (value_counts
         ((λ r, (r.1, cell_of_row "TRAN" r)) <$>
          List.filter (λ r, bool_decide (cell_of_row "SMFMNSPN" r = Str region)) (rows df)))).
Proof.
  intros Hs Ht. unfold top_transactions_of, getitem.
  rewrite decide_True by done. cbn. rewrite getitem_bool_eq_str. cbn.
  by rewrite decide_True by done.
Qed.

Lemma filter_bool_decide {A} (P : A → Prop) `{∀ x, Decision (P x)} (l : list A) :
  List.filter (λ x, bool_decide (P x)) l = filter P l.
Proof.
  induction l as [|x l IH]; [done|]. cbn [List.filter]. rewrite filter_cons.
  destruct (decide (P x)).
  - by rewrite bool_decide_eq_true_2, IH.
  - by rewrite bool_decide_eq_false_2, IH.
Qed.

Lemma elem_of_take_elem {A} (x : A) n l : x ∈ take n l → x ∈ l.
Proof.
  intros [i [Hi _]%lookup_take_Some]%list_elem_of_lookup. by eapply list_elem_of_lookup_2.
Qed.

(** [[14]], [[15]].  When the frame has the columns SMFMNSPN and TRAN, the
    cell returns at most five transactions, each once, with the number of
    rows of that region (SMFMNSPN equal to the name) holding it; no
    transaction left out has more rows than one listed; and a region without
    rows gives an empty list, not an error. *)
Theorem top_transactions region df :
  "SMFMNSPN" ∈ columns df → "TRAN" ∈ columns df →
  let in_region := filter (λ r, cell_of_row "SMFMNSPN" r = Str region) (rows df) in
  let runs t := length (filter (λ r, cell_of_row "TRAN" r = t) in_region) in
  ∃ top, top_transactions_of region df = Ok top ∧
    (length top ≤ 5)%nat ∧ NoDup top.*1 ∧
    (∀ t n, (t, n) ∈ top → t ≠ Null ∧ n = runs t ∧ (0 < n)%nat) ∧
    (∀ t n t', (t, n) ∈ top → t' ≠ Null → t' ∉ top.*1 → (runs t' ≤ n)%nat) ∧
    (in_region = [] → top = []).
Proof.
  intros Hs Ht in_region runs. eexists. split; [by apply top_transactions_of_Ok|].
  rewrite filter_bool_decide. fold in_region.
  set (s := (λ r, (r.1, cell_of_row "TRAN" r)) <$> in_region).
  assert (Hruns : ∀ t, length (filter (λ c, c = t) s.*2) = runs t).
  { intros t. unfold s, runs. rewrite <-list_fmap_compose.
    induction in_region as [|r l IH]; [done|].
    rewrite fmap_cons, !filter_cons. cbn.
    destruct (decide (cell_of_row "TRAN" r = t)); cbn; by rewrite IH. }
  assert (Helem : ∀ t n, (t, n) ∈ value_counts s ↔ t ≠ Null ∧ (0 < runs t)%nat ∧ n = runs t).
  { intros t n. rewrite elem_of_value_counts, Hruns. split.
    - intros (Hn & Hin & ->). split_and!; [done| |done].
      rewrite <-Hruns. apply list_elem_of_lookup in Hin as [i Hi].
      destruct (filter (λ c, c = t) s.*2) eqn:Hf; [|cbn; lia].
      assert (Ht' : t ∈ filter (λ c, c = t) s.*2).
      { apply list_elem_of_filter. split; [done|]. by eapply list_elem_of_lookup_2. }
      rewrite Hf in Ht'. by apply elem_of_nil in Ht'.
    - intros (Hn & Hpos & ->). split_and!; [done| |done].
      rewrite <-Hruns in Hpos.
      destruct (filter (λ c, c = t) s.*2) as [|c l] eqn:Hf; [cbn in Hpos; lia|].
      assert (Hc : c ∈ filter (λ c, c = t) s.*2) by (rewrite Hf; left).
      by apply list_elem_of_filter in Hc as [-> Hc]. }
  split_and!.
  - rewrite length_take. lia.
  - rewrite fmap_take. eapply sublist_NoDup; [|apply sublist_take].
    rewrite value_counts_keys. apply NoDup_distinct.
  - intros t n Hin. apply elem_of_take_elem, Helem in Hin.
    destruct Hin as (? & ? & ->). done.
  - intros t n t' Hin Hn' Hnot.
    destruct (decide (0 < runs t')%nat) as [Hpos|Hzero]; [|lia].
    assert (Hin' : (t', runs t') ∈ value_counts s) by by apply Helem.
    apply list_elem_of_lookup in Hin as [i Hi]. apply lookup_take_Some in Hi as [Hi Hi5].
    apply list_elem_of_lookup in Hin' as [k Hk].
    destruct (decide (k < 5)%nat) as [Hk5|Hk5].
    + exfalso. apply Hnot, list_elem_of_fmap. exists (t', runs t'). split; [done|].
      apply (list_elem_of_lookup_2 _ k). by apply lookup_take_Some.
    + apply (StronglySorted_lookup _ _ i k (t, n) (t', runs t') (value_counts_sorted s));
        [lia|done..].
  - intros Hnil. unfold s. by rewrite Hnil.
Qed.

Lemma top_transactions_witness :
  ∃ top, top_transactions_of "CICS3AAB" sample_cics = Ok top ∧
    (length top ≤ 5)%nat ∧ NoDup top.*1 ∧
    (∀ t n, (t, n) ∈ top →
       t ≠ Null ∧
       n = length (filter (λ r, cell_of_row "TRAN" r = t)
                     (filter (λ r, cell_of_row "SMFMNSPN" r = Str "CICS3AAB")
                        (rows sample_cics))) ∧
       (0 < n)%nat) ∧
    (∀ t n t', (t, n) ∈ top → t' ≠ Null → t' ∉ top.*1 →
       (length (filter (λ r, cell_of_row "TRAN" r = t')
                  (filter (λ r, cell_of_row "SMFMNSPN" r = Str "CICS3AAB")
                     (rows sample_cics))) ≤ n)%nat) ∧
    (filter (λ r, cell_of_row "SMFMNSPN" r = Str "CICS3AAB") (rows sample_cics) = [] →
     top = []).
Proof.
  apply (top_transactions "CICS3AAB" sample_cics);
    apply (bool_decide_unpack _); by vm_compute.
Defined.

Example top_transactions_sample :
  top_transactions_of "CICS3AAB" sample_cics = Ok [(Str "Y195", 2); (Str "Y295", 1)] ∧
  top_transactions_of "CICS9ZZZ" sample_cics = Ok [] ∧
  top_transactions_of "CICS3AAB" stampless_frame = Ok [(Str "Y195", 1)].
Proof. split_and!; by vm_compute. Qed.

(** *** Running a cell forwards *)

Lemma run_bind {A B} (m : Py A) (f : A → Py B) nb nb' a :
  m nb = (nb', Ok a) → (m ≫= f) nb = f a nb'.
Proof. intros H. unfold mbind, Py_bind. by rewrite H. Qed.

Lemma run_bind_raise {A B} (m : Py A) (f : A → Py B) nb nb' e :
  m nb = (nb', Raise e) → (m ≫= f) nb = (nb', Raise e).
Proof. intros H. unfold mbind, Py_bind. by rewrite H. Qed.

Lemma frame_var_run x nb l df :
  globals nb !! x = Some (VFrame l) → heap nb !! l = Some df →
  frame_var x nb = (nb, Ok (l, df)).
Proof. intros Hl Hdf. unfold frame_var. by rewrite Hl, Hdf. Qed.

Lemma lift_run {A} (r : result A) nb : lift r nb = (nb, r).
Proof. done. Qed.

Lemma bind_frame_run x df nb :
  bind_frame x df nb =
    ({| heap := heap nb ++ [df];
        globals := <[x:=VFrame (length (heap nb))]> (globals nb);
        engine := engine nb |}, Ok tt).
Proof. done. Qed.

Lemma frame_of_Some nb x df :
  frame_of nb x = Some df ↔
  ∃ l, globals nb !! x = Some (VFrame l) ∧ heap nb !! l = Some df.
Proof.
  unfold frame_of. split.
  - destruct (globals nb !! x) as [[]|]; try done. intros H. by eexists.
  - intros (l & -> & H). done.
Qed.

(** *** Alignment by label *)

Lemma series_at_fresh (s : Series) l : l ∉ s.*1 → series_at s l = None.
Proof.
  induction s as [|[l' c] s IH]; [done|]. cbn. intros [Hne Hl]%not_elem_of_cons.
  rewrite decide_False by done. by apply IH.
Qed.






Lemma contains_flags_rows (matches : string → bool) df name :
  contains_flags matches (column_values df name) =
  (λ r, (r.1, match cell_of_row name r with
              | Str x => Bool (matches x)
              | _ => Null
              end)) <$> rows df.
Proof. unfold contains_flags, column_values. by rewrite <-list_fmap_compose. Qed.

Lemma str_contains_run (matches : string → bool) (s : Series) :
  holds_str s = true ∨ s = [] →
  str_contains matches s = Ok (contains_flags matches s).
Proof.
  intros H. unfold str_contains, str_accessor.
  destruct H as [->| ->]; [done|]. by rewrite bool_decide_eq_true_2, orb_true_r.
Qed.

Lemma holds_str_column df name r :
  r ∈ rows df → is_str (cell_of_row name r) → holds_str (column_values df name) = true.
Proof.
  intros Hr Hs. unfold holds_str. apply existsb_exists.
  exists (r.1, cell_of_row name r). split.
  - apply list_elem_of_In. unfold column_values. apply list_elem_of_fmap. by exists r.
  - cbn. by destruct (cell_of_row name r).
Qed.

Lemma holds_str_all df name :
  Forall (λ r, is_str (cell_of_row name r)) (rows df) →
  holds_str (column_values df name) = true ∨ column_values df name = [].
Proof.
  unfold column_values. destruct (rows df) as [|r rs] eqn:Hrows; [by right|].
  intros [Hr _]%Forall_cons. left.
  rewrite <-Hrows. apply (holds_str_column df name r); [|done]. rewrite Hrows. left.
Qed.

(** *** The transactions and regions of interest *)


Lemma str_contains_numbers (matches : string → bool) df name :
  rows df ≠ [] → Forall (λ r, is_number (cell_of_row name r)) (rows df) →
  str_contains matches (column_values df name) = Raise (AttributeError "str").
Proof.
  intros Hrows Hnum. unfold str_contains, str_accessor.
  assert (holds_str (column_values df name) = false) as ->.
  { unfold holds_str, column_values. apply not_true_iff_false.
    intros ((i & c) & Hin & Hc)%existsb_exists.
    apply list_elem_of_In, list_elem_of_fmap in Hin as (r & [= -> ->] & Hr).
    rewrite Forall_forall in Hnum. specialize (Hnum r Hr). cbn in Hc.
    by destruct (cell_of_row name r). }
  rewrite bool_decide_eq_false_2; [done|].
  unfold column_values. intros H%fmap_nil_inv. done.
Qed.

Lemma traverse_as_bool_raise vs c :
  c ∈ vs → (∀ b, c ≠ Bool b) → traverse as_bool vs = Raise ValueError.
Proof.
  intros Hc Hnb. destruct (traverse as_bool vs) as [bs|e] eqn:H.
  - apply traverse_Ok in H. apply list_elem_of_lookup in Hc as [i Hi].
    destruct (Forall2_lookup_l _ _ _ _ _ H Hi) as (b & _ & Hb).
    destruct c; try done. by destruct (Hnb b0).
  - apply traverse_Raise in H as (x & _ & Hx). f_equal.
    destruct x; cbn in Hx; congruence.
Qed.

(** [[16]].  When TRAN holds strings, a row of [smf110_df] whose TRAN is
    not one makes the cell raise [ValueError]: the mask of the first
    selection holds NaN for it.  Nothing is bound. *)
Theorem filter_tran_not_str nb df r r' :
  frame_of nb "smf110_df" = Some df → "TRAN" ∈ columns df →
  r' ∈ rows df → is_str (cell_of_row "TRAN" r') →
  r ∈ rows df → ¬ is_str (cell_of_row "TRAN" r) →
  cell_filter_tran nb = (nb, Raise ValueError).
Proof.
  intros (l & Hl & Hdf)%frame_of_Some Htran Hr' Hstr Hr Hnot.
  unfold cell_filter_tran.
  rewrite (run_bind _ _ _ _ _ (frame_var_run _ _ _ _ Hl Hdf)). cbn beta iota.
  rewrite (run_bind (lift _) _ nb nb (column_values df "TRAN"))
    by (by unfold lift, getitem; rewrite decide_True).
  rewrite (run_bind (lift _) _ nb nb (contains_flags tran_pattern (column_values df "TRAN")));
    last first.
  { unfold lift. rewrite str_contains_run; [done|]. left.
    by apply (holds_str_column df "TRAN" r'). }
  apply run_bind_raise. unfold lift. f_equal.
  unfold getitem_bool. rewrite align_own; last first.
  { unfold contains_flags. rewrite <-list_fmap_compose. apply column_values_index. }
  cbn. erewrite traverse_as_bool_raise; [done| |].
  - rewrite contains_flags_rows, <-list_fmap_compose.
    apply (list_elem_of_fmap_2 _ _ r Hr).
  - cbn. intros b. by destruct (cell_of_row "TRAN" r).
Qed.

(** [[16]].  When [smf110_df] has rows and TRAN holds numbers in all of
    them, the cell raises [AttributeError]: such a column has no [.str].
    Nothing is bound. *)
Theorem filter_tran_numbers nb df :
  frame_of nb "smf110_df" = Some df → "TRAN" ∈ columns df →
  rows df ≠ [] → Forall (λ r, is_number (cell_of_row "TRAN" r)) (rows df) →
  cell_filter_tran nb = (nb, Raise (AttributeError "str")).
Proof.
  intros (l & Hl & Hdf)%frame_of_Some Htran Hrows Hnum.
  unfold cell_filter_tran.
  rewrite (run_bind _ _ _ _ _ (frame_var_run _ _ _ _ Hl Hdf)). cbn beta iota.
  rewrite (run_bind (lift _) _ nb nb (column_values df "TRAN"))
    by (by unfold lift, getitem; rewrite decide_True).
  apply run_bind_raise. unfold lift. f_equal.
  by apply str_contains_numbers.
Qed.

(** *** Assigning a converted column, row by row *)

Lemma zip_with_fmap_same {A B C} (h : B → A → C) (k : A → B) (l : list A) :
  zip_with h (k <$> l) l = (λ r, h (k r) r) <$> l.
Proof. induction l as [|x l IH]; [done|]. cbn. by rewrite IH. Qed.

Lemma series_apply_fmap f (g : cell → cell) (s : Series) :
  Forall (λ c, f c = Ok (g c)) s.*2 →
  series_apply f s = Ok ((λ p, (p.1, g p.2)) <$> s).
Proof.
  intros H. unfold series_apply. apply traverse_Ok_fmap. intros p Hp.
  rewrite Forall_fmap, Forall_forall in H. cbn in H. by rewrite (H p Hp).
Qed.

Lemma assign_frame_run name f (g : cell → cell) df :
  name ∈ columns df →
  Forall (λ r, f (cell_of_row name r) = Ok (g (cell_of_row name r))) (rows df) →
  assign_frame name name (series_apply f) df =
    Ok {| columns := columns df;
          rows := (λ r, (r.1, <[name:=g (cell_of_row name r)]> r.2)) <$> rows df |}.
Proof.
  intros Hname Hf. unfold assign_frame, getitem. rewrite decide_True by done. cbn.
  rewrite (series_apply_fmap f g).
  - cbn. rewrite setitem_own.
    + rewrite decide_True by done. do 2 f_equal.
      unfold column_values. rewrite <-!list_fmap_compose.
      apply (zip_with_fmap_same (λ v r, (r.1, <[name:=v]> r.2))
               (λ r, g (cell_of_row name r))).
    + rewrite <-list_fmap_compose. apply column_values_index.
  - rewrite column_values_cells. by apply Forall_fmap.
Qed.

Lemma assign_frame_rows name f df df' :
  assign_frame name name (series_apply f) df = Ok df' →
  Forall2 (λ r r', r'.1 = r.1 ∧
                   ∃ c', f (cell_of_row name r) = Ok c' ∧ r'.2 = <[name:=c']> r.2)
    (rows df) (rows df').
Proof.
  unfold assign_frame. intros H. inv_result.
  apply getitem_Ok in Ha as [Hname ->].
  apply series_apply_Ok in Ha0 as [Hidx Hcells].
  rewrite column_values_index in Hidx.
  rewrite setitem_own in H by done. injection H as <-. cbn.
  rewrite column_values_cells in Hcells. revert Hcells. generalize (a0.*2).
  clear. induction (rows df) as [|r rs IH]; intros vs H.
  - apply Forall2_nil_inv_l in H as ->. constructor.
  - rewrite fmap_cons in H. apply Forall2_cons_inv_l in H as (v & vs' & Hv & Hvs & ->).
    cbn. constructor; [|by apply IH]. split; [done|]. by exists v.
Qed.

(** *** The data-cleaning cell, forwards *)

Lemma assign_column_run x target source f nb l df df' :
  globals nb !! x = Some (VFrame l) → heap nb !! l = Some df →
  assign_frame target source f df = Ok df' →
  assign_column x target source f nb =
    ({| heap := <[l:=df']> (heap nb); globals := globals nb; engine := engine nb |}, Ok tt).
Proof.
  intros Hl Hdf H. unfold assign_column.
  rewrite (run_bind _ _ _ _ _ (frame_var_run _ _ _ _ Hl Hdf)). cbn beta iota.
  by rewrite (run_bind (lift _) _ nb nb df') by (by unfold lift; rewrite H).
Qed.

Lemma cics_filter_run df :
  "SMFMNSPN" ∈ columns df →
  holds_str (column_values df "SMFMNSPN") = true ∨ column_values df "SMFMNSPN" = [] →
  cics_filter df = Ok {| columns := columns df; rows := List.filter has_cics (rows df) |}.
Proof.
  intros Hc Hstr. unfold cics_filter, getattr. rewrite decide_True by done. cbn.
  rewrite str_contains_run by done. cbn.
  apply getitem_bool_own.
  - unfold eq_True, contains_flags. rewrite <-!list_fmap_compose.
    apply column_values_index.
  - unfold eq_True, contains_flags, column_values. rewrite <-!list_fmap_compose.
    apply list_fmap_ext. intros i r _. cbn. unfold has_cics.
    by destruct (cell_of_row "SMFMNSPN" r).
Qed.

Lemma cics_filter_numbers df :
  "SMFMNSPN" ∈ columns df →
  rows df ≠ [] → Forall (λ r, is_number (cell_of_row "SMFMNSPN" r)) (rows df) →
  cics_filter df = Raise (AttributeError "str").
Proof.
  intros Hc Hrows Hnum. unfold cics_filter, getattr. rewrite decide_True by done. cbn.
  by rewrite str_contains_numbers.
Qed.

Lemma cell_clean_run w nb l df T0 F :
  globals nb !! "smf110_df" = Some (VFrame l) → heap nb !! l = Some df →
  cast_frame w df = Ok T0 → cics_filter T0 = Ok F →
  cell_clean w nb =
    ({| heap := (<[l:=T0]> (heap nb) ++ [T0]) ++ [F];
        globals := <["smf110_df":=VFrame (S (length (heap nb)))]>
                     (<["orig_smf110_df":=VFrame (length (heap nb))]> (globals nb));
        engine := engine nb |}, Ok tt).
Proof.
  intros Hl Hdf Hcast HF. unfold cast_frame in Hcast. inv_result.
  rename a into df1, a0 into df2, Ha into Hdf1, Ha0 into Hdf2.
  assert (Hlen : l < length (heap nb)) by by eapply lookup_lt_Some.
  unfold cell_clean, update_column.
  rewrite (run_bind _ _ _ _ _ (assign_column_run _ _ _ _ _ _ _ _ Hl Hdf Hdf1)).
  erewrite run_bind; last first.
  { eapply assign_column_run; cbn [heap globals engine]; [exact Hl| |exact Hdf2].
    by apply list_lookup_insert_eq. }
  cbn [heap globals engine]. rewrite list_insert_insert_eq.
  erewrite run_bind; last first.
  { eapply assign_column_run; cbn [heap globals engine]; [exact Hl| |exact Hcast].
    by apply list_lookup_insert_eq. }
  cbn [heap globals engine]. rewrite list_insert_insert_eq.
  erewrite run_bind; last first.
  { apply frame_var_run; cbn [heap globals engine]; [exact Hl|].
    by apply list_lookup_insert_eq. }
  cbn beta iota. rewrite (run_bind _ _ _ _ _ (bind_frame_run _ _ _)).
  erewrite run_bind; last first.
  { apply frame_var_run; cbn [heap globals engine].
    - rewrite lookup_insert_ne by done. exact Hl.
    - rewrite lookup_app_l by (by rewrite length_insert).
      by apply list_lookup_insert_eq. }
  cbn beta iota.
  rewrite (run_bind (lift _) _ _ _ F) by (by unfold lift; rewrite HF).
  rewrite bind_frame_run. cbn [heap globals engine].
  rewrite copy_deep_eq, length_app, length_insert. cbn [length].
  by rewrite Nat.add_1_r.
Qed.

(** The data-cleaning cell stopped by the filter: the casts are done and
    [orig_smf110_df] is bound. *)
Lemma cell_clean_stop w nb l df T0 e :
  globals nb !! "smf110_df" = Some (VFrame l) → heap nb !! l = Some df →
  cast_frame w df = Ok T0 → cics_filter T0 = Raise e →
  cell_clean w nb =
    ({| heap := <[l:=T0]> (heap nb) ++ [T0];
        globals := <["orig_smf110_df":=VFrame (length (heap nb))]> (globals nb);
        engine := engine nb |}, Raise e).
Proof.
  intros Hl Hdf Hcast HF. unfold cast_frame in Hcast. inv_result.
  rename a into df1, a0 into df2, Ha into Hdf1, Ha0 into Hdf2.
  assert (Hlen : l < length (heap nb)) by by eapply lookup_lt_Some.
  unfold cell_clean, update_column.
  rewrite (run_bind _ _ _ _ _ (assign_column_run _ _ _ _ _ _ _ _ Hl Hdf Hdf1)).
  erewrite run_bind; last first.
  { eapply assign_column_run; cbn [heap globals engine]; [exact Hl| |exact Hdf2].
    by apply list_lookup_insert_eq. }
  cbn [heap globals engine]. rewrite list_insert_insert_eq.
  erewrite run_bind; last first.
  { eapply assign_column_run; cbn [heap globals engine]; [exact Hl| |exact Hcast].
    by apply list_lookup_insert_eq. }
  cbn [heap globals engine]. rewrite list_insert_insert_eq.
  erewrite run_bind; last first.
  { apply frame_var_run; cbn [heap globals engine]; [exact Hl|].
    by apply list_lookup_insert_eq. }
  cbn beta iota. rewrite (run_bind _ _ _ _ _ (bind_frame_run _ _ _)).
  erewrite run_bind; last first.
  { apply frame_var_run; cbn [heap globals engine].
    - rewrite lookup_insert_ne by done. exact Hl.
    - rewrite lookup_app_l by (by rewrite length_insert).
      by apply list_lookup_insert_eq. }
  cbn beta iota.
  rewrite (run_bind_raise (lift _) _ _ _ e) by (by unfold lift; rewrite HF).
  cbn [heap globals engine]. by rewrite copy_deep_eq, length_insert.
Qed.

Lemma returns_cast_of f c : returns (f c) → f c = Ok (cast_of f c).
Proof. unfold returns, cast_of. by destruct (f c). Qed.

Lemma cast_frame_run w df :
  "TRANNUM" ∈ columns df → "USRCPUT_TIMER" ∈ columns df → "USRCPUT_COUNT" ∈ columns df →
  Forall (λ r, returns (astype_int w (cell_of_row "TRANNUM" r)) ∧
               returns (astype_float w (cell_of_row "USRCPUT_TIMER" r)) ∧
               returns (astype_int w (cell_of_row "USRCPUT_COUNT" r))) (rows df) →
  ∃ T0, cast_frame w df = Ok T0.
Proof.
  intros H1 H2 H3 Hrows. unfold cast_frame.
  rewrite (assign_frame_run _ _ (cast_of (astype_int w))); [|done|]; last first.
  { eapply Forall_impl; [exact Hrows|]. intros r (Hr & _ & _). by apply returns_cast_of. }
  cbn.
  rewrite (assign_frame_run _ _ (cast_of (astype_float w))); [|done|]; last first.
  { cbn. apply Forall_fmap. eapply Forall_impl; [exact Hrows|]. intros r (_ & Hr & _).
    unfold cell_of_row in *. cbn. rewrite lookup_insert_ne by done.
    by apply returns_cast_of. }
  cbn.
  rewrite (assign_frame_run _ _ (cast_of (astype_int w))); [by eexists|done|].
  cbn. rewrite <-list_fmap_compose. apply Forall_fmap.
  eapply Forall_impl; [exact Hrows|]. intros r (_ & _ & Hr).
  unfold cell_of_row in *. cbn. rewrite !lookup_insert_ne by done.
  by apply returns_cast_of.
Qed.

Lemma cast_frame_region w df T0 r :
  cast_frame w df = Ok T0 → r ∈ rows df →
  ∃ r', r' ∈ rows T0 ∧ cell_of_row "SMFMNSPN" r' = cell_of_row "SMFMNSPN" r.
Proof.
  intros HT0 Hr. apply cast_frame_Ok in HT0 as (_ & _ & _ & Hother).
  assert (Hin : (r.1, cell_of_row "SMFMNSPN" r) ∈ column_values df "SMFMNSPN").
  { unfold column_values. apply list_elem_of_fmap. by exists r. }
  rewrite <-Hother in Hin by (apply (bool_decide_unpack _); by vm_compute).
  unfold column_values in Hin. apply list_elem_of_fmap in Hin as (r' & [= _ Hc] & Hr').
  by exists r'.
Qed.

(** [[7]].  The data-cleaning cell returns whenever [smf110_df] is bound to
    a frame that has the columns TRANNUM, USRCPUT_TIMER, USRCPUT_COUNT and
    SMFMNSPN, whose cells in the first three can be converted, and whose
    SMFMNSPN holds a string in some row; a row whose SMFMNSPN is not a
    string is no obstacle.  The row labels of the two frames it binds are
    those of the frame it was given and a part of them. *)
Theorem cell_clean_returns w nb df r0 :
  frame_of nb "smf110_df" = Some df →
  "TRANNUM" ∈ columns df → "USRCPUT_TIMER" ∈ columns df →
  "USRCPUT_COUNT" ∈ columns df → "SMFMNSPN" ∈ columns df →
  Forall (λ r, returns (astype_int w (cell_of_row "TRANNUM" r)) ∧
               returns (astype_float w (cell_of_row "USRCPUT_TIMER" r)) ∧
               returns (astype_int w (cell_of_row "USRCPUT_COUNT" r))) (rows df) →
  r0 ∈ rows df → is_str (cell_of_row "SMFMNSPN" r0) →
  ∃ nb' T0 F,
    cell_clean w nb = (nb', Ok tt) ∧
    frame_of nb' "orig_smf110_df" = Some T0 ∧ frame_of nb' "smf110_df" = Some F ∧
    index T0 = index df ∧ index F `sublist_of` index df.
Proof.
  intros (l & Hl & Hdf)%frame_of_Some H1 H2 H3 H4 Hrows Hr0 Hstr.
  destruct (cast_frame_run w df H1 H2 H3 Hrows) as [T0 HT0].
  pose proof (cast_frame_Ok _ _ _ HT0) as (Hcols & Hidx & _ & _).
  assert (HF : cics_filter T0 =
               Ok {| columns := columns T0; rows := List.filter has_cics (rows T0) |}).
  { apply cics_filter_run; [by rewrite Hcols|]. left.
    destruct (cast_frame_region _ _ _ _ HT0 Hr0) as (r' & Hr' & Hc).
    apply (holds_str_column T0 "SMFMNSPN" r' Hr'). by rewrite Hc. }
  pose proof (cell_clean_run w nb l df T0 _ Hl Hdf HT0 HF) as Hrun.
  destruct (cell_clean_frames _ _ _ Hrun) as (df' & T0' & F' & Hdf' & HT0' & HF' & Ho & Hs).
  assert (df' = df) as ->.
  { apply frame_of_Some in Hdf' as (l' & Hl' & Hdf'). congruence. }
  assert (T0' = T0) as -> by congruence.
  assert (F' = {| columns := columns T0; rows := List.filter has_cics (rows T0) |}) as ->
    by congruence.
  eexists _, T0, _. split_and!; [exact Hrun|done..|].
  rewrite <-Hidx. unfold index. cbn. apply fmap_sublist.
  clear. induction (rows T0) as [|r rs IH]; [done|]. cbn.
  destruct (has_cics r); by constructor.
Qed.

(** [[7]].  When SMFMNSPN holds numbers in every row of a frame that has
    rows, and the three conversions go through, the data-cleaning cell
    raises [AttributeError] at the filter, the column having no [.str]: the
    conversions are done and [orig_smf110_df] is bound to the copy, so
    [smf110_df] and [orig_smf110_df] hold the cast frame with all its rows,
    as two objects. *)
Theorem cell_clean_numbers w nb df :
  frame_of nb "smf110_df" = Some df →
  "TRANNUM" ∈ columns df → "USRCPUT_TIMER" ∈ columns df →
  "USRCPUT_COUNT" ∈ columns df → "SMFMNSPN" ∈ columns df →
  Forall (λ r, returns (astype_int w (cell_of_row "TRANNUM" r)) ∧
               returns (astype_float w (cell_of_row "USRCPUT_TIMER" r)) ∧
               returns (astype_int w (cell_of_row "USRCPUT_COUNT" r))) (rows df) →
  rows df ≠ [] → Forall (λ r, is_number (cell_of_row "SMFMNSPN" r)) (rows df) →
  ∃ nb' T0 l lo,
    cell_clean w nb = (nb', Raise (AttributeError "str")) ∧
    cast_frame w df = Ok T0 ∧ index T0 = index df ∧
    globals nb' !! "smf110_df" = Some (VFrame l) ∧
    globals nb' !! "orig_smf110_df" = Some (VFrame lo) ∧ l ≠ lo ∧
    heap nb' !! l = Some T0 ∧ heap nb' !! lo = Some T0.
Proof.
  intros (l & Hl & Hdf)%frame_of_Some H1 H2 H3 H4 Hrows Hne Hnum.
  destruct (cast_frame_run w df H1 H2 H3 Hrows) as [T0 HT0].
  pose proof (cast_frame_Ok _ _ _ HT0) as (Hcols & Hidx & _ & Hother).
  assert (Hlen : l < length (heap nb)) by by eapply lookup_lt_Some.
  assert (Hspn : column_values T0 "SMFMNSPN" = column_values df "SMFMNSPN").
  { apply Hother. apply (bool_decide_unpack _). by vm_compute. }
  assert (HF : cics_filter T0 = Raise (AttributeError "str")).
  { apply cics_filter_numbers; [by rewrite Hcols| |].
    - intros Hnil. apply Hne. unfold index in Hidx. rewrite Hnil in Hidx.
      symmetry in Hidx. by apply fmap_nil_inv in Hidx.
    - apply Forall_forall. intros r' Hr'.
      assert (Hin : (r'.1, cell_of_row "SMFMNSPN" r') ∈ column_values T0 "SMFMNSPN").
      { unfold column_values. apply list_elem_of_fmap. by exists r'. }
      rewrite Hspn in Hin. unfold column_values in Hin.
      apply list_elem_of_fmap in Hin as (r & [= _ Hc] & Hr).
      rewrite Hc. rewrite Forall_forall in Hnum. by apply Hnum. }
  eexists _, T0, l, (length (heap nb)).
  split_and!; [exact (cell_clean_stop w nb l df T0 _ Hl Hdf HT0 HF)|done..| | | | |];
    cbn [heap globals engine].
  - by rewrite lookup_insert_ne.
  - apply lookup_insert_eq.
  - lia.
  - rewrite lookup_app_l by (by rewrite length_insert). by apply list_lookup_insert_eq.
  - by rewrite lookup_app_r, length_insert, Nat.sub_diag by (by rewrite length_insert).
Qed.

(** *** Running the data-cleaning cell again *)

Lemma Forall2_transfer {A B} (R : A → B → Prop) (P : A → Prop) (Q : B → Prop) l l' :
  Forall2 R l l' → Forall P l → (∀ x y, R x y → P x → Q y) → Forall Q l'.
Proof.
  intros H HP HQ. induction H as [|x y l l' Hxy _ IH]; [constructor|].
  apply Forall_cons in HP as [Hx HP]. constructor; [by eapply HQ|by apply IH].
Qed.

Lemma astype_int_again w c c' : astype_int w c = Ok c' → astype_int w c' = Ok c'.
Proof.
  destruct c; cbn; unfold to_int64; repeat case_match; try done; intros [= <-]; cbn;
    unfold to_int64; try done;
    by repeat match goal with H : in_int64 _ = true |- _ => rewrite H end.
Qed.

Lemma astype_float_again w c c' : astype_float w c = Ok c' → astype_float w c' = Ok c'.
Proof.
  destruct c; cbn; unfold float_cell; repeat case_match; try done; by intros [= <-].
Qed.

Lemma cast_frame_keys w df T0 :
  cast_frame w df = Ok T0 →
  Forall (λ r, (∃ c, r.2 !! "TRANNUM" = Some c ∧ astype_int w c = Ok c) ∧
               (∃ c, r.2 !! "USRCPUT_TIMER" = Some c ∧ astype_float w c = Ok c) ∧
               (∃ c, r.2 !! "USRCPUT_COUNT" = Some c ∧ astype_int w c = Ok c)) (rows T0).
Proof.
  unfold cast_frame. intros H. inv_result.
  apply assign_frame_rows in Ha, Ha0, H.
  eapply (Forall2_transfer _
            (λ r, (∃ c, r.2 !! "TRANNUM" = Some c ∧ astype_int w c = Ok c) ∧
                  (∃ c, r.2 !! "USRCPUT_TIMER" = Some c ∧ astype_float w c = Ok c))
            _ _ _ H); last first.
  { intros r r' (_ & c & Hc & Hr') (H1 & H2). rewrite Hr'. split_and!.
    - destruct H1 as (c1 & ? & ?). exists c1. by rewrite lookup_insert_ne.
    - destruct H2 as (c2 & ? & ?). exists c2. by rewrite lookup_insert_ne.
    - exists c. rewrite lookup_insert_eq. split; [done|]. by eapply astype_int_again. }
  eapply (Forall2_transfer _ (λ r, ∃ c, r.2 !! "TRANNUM" = Some c ∧ astype_int w c = Ok c)
            _ _ _ Ha0); last first.
  { intros r r' (_ & c & Hc & Hr') H1. rewrite Hr'. split.
    - destruct H1 as (c1 & ? & ?). exists c1. by rewrite lookup_insert_ne.
    - exists c. rewrite lookup_insert_eq. split; [done|]. by eapply astype_float_again. }
  eapply (Forall2_transfer _ (λ _, True) _ _ _ Ha); [by apply Forall_forall|].
  intros r r' (_ & c & Hc & Hr') _. rewrite Hr'.
  exists c. rewrite lookup_insert_eq. split; [done|]. by eapply astype_int_again.
Qed.

Lemma assign_frame_id name f df :
  name ∈ columns df →
  Forall (λ r, ∃ c, r.2 !! name = Some c ∧ f c = Ok c) (rows df) →
  assign_frame name name (series_apply f) df = Ok df.
Proof.
  intros Hname Hrows. rewrite (assign_frame_run name f id); [|done|].
  - destruct df as [cols rs]. cbn in *. do 2 f_equal.
    rewrite <-(list_fmap_id rs) at 2.
    apply Forall_fmap_ext_1. eapply Forall_impl; [exact Hrows|].
    intros [i m] (c & Hc & _). cbn in *. unfold cell_of_row. cbn. rewrite Hc. cbn.
    by rewrite insert_id.
  - eapply Forall_impl; [exact Hrows|]. intros r (c & Hc & Hf).
    unfold cell_of_row. rewrite Hc. done.
Qed.

Lemma cast_frame_id w df :
  "TRANNUM" ∈ columns df → "USRCPUT_TIMER" ∈ columns df → "USRCPUT_COUNT" ∈ columns df →
  Forall (λ r, (∃ c, r.2 !! "TRANNUM" = Some c ∧ astype_int w c = Ok c) ∧
               (∃ c, r.2 !! "USRCPUT_TIMER" = Some c ∧ astype_float w c = Ok c) ∧
               (∃ c, r.2 !! "USRCPUT_COUNT" = Some c ∧ astype_int w c = Ok c)) (rows df) →
  cast_frame w df = Ok df.
Proof.
  intros H1 H2 H3 Hrows. unfold cast_frame.
  rewrite assign_frame_id; [cbn|done|]; last first.
  { eapply Forall_impl; [exact Hrows|]. intros r ((c & Hc & Hi) & _).
    by exists c. }
  rewrite assign_frame_id; [cbn|done|]; last first.
  { eapply Forall_impl; [exact Hrows|]. intros r (_ & (c & Hc & Hi) & _).
    by exists c. }
  apply assign_frame_id; [done|].
  eapply Forall_impl; [exact Hrows|]. intros r (_ & _ & (c & Hc & Hi)).
  by exists c.
Qed.

Lemma filter_idemp {A} (p : A → bool) (l : list A) :
  List.filter p (List.filter p l) = List.filter p l.
Proof.
  induction l as [|x l IH]; [done|]. cbn. destruct (p x) eqn:Hx; [|done].
  cbn. by rewrite Hx, IH.
Qed.

Lemma cics_filter_column df F : cics_filter df = Ok F → "SMFMNSPN" ∈ columns df.
Proof. unfold cics_filter. intros H. inv_result. by apply getattr_Ok in Ha as [? _]. Qed.

(** [[7]].  Running the data-cleaning cell a second time succeeds and gives
    [smf110_df] the rows it had, but [orig_smf110_df] is bound anew, to the
    filtered frame: the rows of the regions that are not CICS are no longer
    in it. *)
Theorem cell_clean_twice w nb nb1 :
  cell_clean w nb = (nb1, Ok tt) →
  ∃ nb2 T0 F,
    frame_of nb1 "orig_smf110_df" = Some T0 ∧ frame_of nb1 "smf110_df" = Some F ∧
    rows F = List.filter has_cics (rows T0) ∧
    cell_clean w nb1 = (nb2, Ok tt) ∧
    frame_of nb2 "orig_smf110_df" = Some F ∧ frame_of nb2 "smf110_df" = Some F.
Proof.
  intros Hrun.
  destruct (cell_clean_frames _ _ _ Hrun) as (df & T0 & F & Hdf & HT0 & HF & Ho & Hs).
  pose proof (cics_filter_column _ _ HF) as Hspn.
  pose proof (cast_frame_keys _ _ _ HT0) as Hkeys.
  assert (Hcols : "TRANNUM" ∈ columns T0 ∧ "USRCPUT_TIMER" ∈ columns T0 ∧
                  "USRCPUT_COUNT" ∈ columns T0).
  { apply cast_frame_Ok in HT0 as (_ & _ & (H1 & H2 & H3) & _).
    split_and!; [apply H1|apply H2|apply H3]. }
  apply cics_filter_Ok in HF. subst F.
  set (F := {| columns := columns T0; rows := List.filter has_cics (rows T0) |}) in *.
  assert (HcastF : cast_frame w F = Ok F).
  { destruct Hcols as (H1 & H2 & H3). apply cast_frame_id; [done..|].
    apply Forall_forall. intros r Hr. rewrite Forall_forall in Hkeys. apply Hkeys.
    by apply list_elem_of_In, filter_In in Hr as [Hr%list_elem_of_In _]. }
  assert (HfiltF : cics_filter F = Ok F).
  { rewrite cics_filter_run; [unfold F; cbn; by rewrite filter_idemp|done|].
    apply holds_str_all, Forall_forall. intros r Hr. unfold F in Hr. cbn in Hr.
    apply list_elem_of_In, filter_In in Hr as [_ Hr]. unfold has_cics in Hr.
    by destruct (cell_of_row "SMFMNSPN" r). }
  apply frame_of_Some in Hs as (l & Hl & HlF).
  pose proof (cell_clean_run w nb1 l F F F Hl HlF HcastF HfiltF) as Hrun2.
  destruct (cell_clean_frames _ _ _ Hrun2) as (F1 & F2 & F3 & HF1 & HF2 & HF3 & Ho2 & Hs2).
  assert (F1 = F) as ->.
  { apply frame_of_Some in HF1 as (l' & Hl' & HF1). congruence. }
  assert (F2 = F) as -> by congruence.
  assert (F3 = F) as -> by congruence.
  eexists _, T0, F. split_and!; [done| |done..].
  apply frame_of_Some. by exists l.
Qed.

(** *** Pivot tables *)

Lemma Forall2_fmap_fst_eq {A B} (l : list A) (l' : list (A * B)) :
  Forall2 (λ k row, row.1 = k) l l' → l'.*1 = l.
Proof. induction 1 as [|k row l l' H _ IH]; [done|]. cbn. by rewrite H, IH. Qed.

Lemma pivot_Ok agg recs p :
  pivot agg recs = Ok p →
  let recs' := List.filter (λ r : (list cell * cell) * cell,
                              notnull r.1.1 && notnull [r.1.2]) recs in
  p_columns p = sorted_by cell_leb (remove_dups recs'.*1.*2) ∧
  (p_rows p).*1 = group_keys recs'.*1.*1 ∧
  Forall (λ row : list cell * list cell,
            Forall2 (λ c v, match group (row.1, c) recs' with
                            | [] => Ok Null
                            | vs => agg vs
                            end = Ok v) (p_columns p) row.2) (p_rows p).
Proof.
  intros H. cbv zeta. unfold pivot in H. cbv zeta in H.
  set (recs' := List.filter _ recs) in *. inv_result. subst p. cbn.
  apply traverse_Ok in Ha. split_and!; [done| |].
  - apply Forall2_fmap_fst_eq. eapply Forall2_impl; [exact Ha|].
    intros k row Hrow. cbn in Hrow. inv_result. by subst row.
  - eapply Forall2_Forall_r_impl; [exact Ha|].
    intros k row Hrow. cbn in Hrow. inv_result. subst row. cbn.
    by apply traverse_Ok in Ha0.
Qed.

Lemma group_filter_notnull {A} (key : A → list cell) (col val : A → cell) k c (l : list A) :
  notnull k = true → c ≠ Null →
  group (k, c)
    (List.filter (λ r : (list cell * cell) * cell, notnull r.1.1 && notnull [r.1.2])
       ((λ r, ((key r, col r), val r)) <$> l)) =
  val <$> filter (λ r, key r = k ∧ col r = c) l.
Proof.
  intros Hk Hc. induction l as [|r l IH]; [done|].
  rewrite fmap_cons. cbn [List.filter fst snd]. rewrite filter_cons.
  destruct (notnull (key r) && notnull [col r]) eqn:Hq.
  - rewrite group_cons. cbn [fst snd].
    destruct (decide ((key r, col r) = (k, c))) as [[= <- <-]|Hne].
    + rewrite decide_True by done. by rewrite fmap_cons, IH.
    + rewrite decide_False; [done|]. intros [<- <-]. done.
  - rewrite decide_False; [done|]. intros [<- <-].
    rewrite Hk in Hq. cbn in Hq. rewrite bool_decide_eq_false_2 in Hq by done. done.
Qed.

Lemma notnull_singleton c : notnull [c] = true ↔ c ≠ Null.
Proof.
  cbn. rewrite andb_true_r, negb_true_iff. apply bool_decide_eq_false.
Qed.

(** [[19]].  [cpu_time_per_trans] has one row per transaction name and one
    column per system id, both without NaN and each once; every row has a
    cell for every column; the cell of a transaction and a system is the
    float64 sum, in row order, of USRCPUT_TIMER over the rows of
    [smf110_filtered_tran_df] with that transaction and system, and NaN when
    there is no such row. *)
Theorem cpu_time_per_trans_cells df p :
  cpu_time_per_trans_of df = Ok p →
  NoDup (p_columns p) ∧ NoDup (p_rows p).*1 ∧
  (∀ k cs, (k, cs) ∈ p_rows p → length cs = length (p_columns p)) ∧
  (∀ sid, sid ∈ p_columns p ↔
     ∃ r, r ∈ rows df ∧ cell_of_row "SMF_SID" r = sid ∧ sid ≠ Null ∧
          cell_of_row "TRAN" r ≠ Null) ∧
  (∀ k, k ∈ (p_rows p).*1 ↔
     ∃ r, r ∈ rows df ∧ k = [cell_of_row "TRAN" r] ∧ cell_of_row "TRAN" r ≠ Null ∧
          cell_of_row "SMF_SID" r ≠ Null) ∧
  (∀ tran cs j sid v,
     ([tran], cs) ∈ p_rows p → p_columns p !! j = Some sid → cs !! j = Some v →
     match filter (λ r, cell_of_row "TRAN" r = tran ∧ cell_of_row "SMF_SID" r = sid)
             (rows df) with
     | [] => v = Null
     | sel => v = float_cell (fsum (timers sel))
     end).
Proof.
  unfold cpu_time_per_trans_of. intros H. inv_result.
  apply pivot_Ok in H as (Hcols & Hkeys & Hcells).
  set (recs' := List.filter _ _) in *.
  assert (Hrec : ∀ x, x ∈ recs' ↔
            ∃ r, r ∈ rows df ∧
                 x = (([cell_of_row "TRAN" r], cell_of_row "SMF_SID" r),
                      cell_of_row "USRCPUT_TIMER" r) ∧
                 cell_of_row "TRAN" r ≠ Null ∧ cell_of_row "SMF_SID" r ≠ Null).
  { intros x. unfold recs'. rewrite list_elem_of_In, filter_In, <-list_elem_of_In.
    rewrite list_elem_of_fmap, andb_true_iff. split.
    - intros ((r & -> & Hr) & H1 & H2). exists r.
      cbn [fst snd tuple_of_row fmap list_fmap] in *.
      by rewrite !notnull_singleton in *.
    - intros (r & Hr & -> & H1 & H2). cbn [fst snd tuple_of_row fmap list_fmap].
      rewrite !notnull_singleton. split; [by exists r|done]. }
  assert (Hcol : ∀ sid, sid ∈ p_columns p ↔
            ∃ r, r ∈ rows df ∧ cell_of_row "SMF_SID" r = sid ∧ sid ≠ Null ∧
                 cell_of_row "TRAN" r ≠ Null).
  { intros sid. rewrite Hcols, sorted_by_perm, elem_of_remove_dups.
    rewrite <-list_fmap_compose, list_elem_of_fmap. split.
    - intros (x & -> & (r & Hr & -> & H1 & H2)%Hrec). by exists r.
    - intros (r & Hr & <- & H1 & H2). eexists. split; [|apply Hrec; by exists r]. done. }
  split_and!.
  - rewrite Hcols, sorted_by_perm. apply NoDup_remove_dups.
  - rewrite Hkeys. apply group_keys_NoDup.
  - intros k cs Hin. rewrite Forall_forall in Hcells.
    apply Hcells, Forall2_length in Hin. done.
  - exact Hcol.
  - intros k. rewrite Hkeys, elem_of_group_keys.
    rewrite <-list_fmap_compose, list_elem_of_fmap. split.
    + intros (_ & x & -> & (r & Hr & -> & H1 & H2)%Hrec). by exists r.
    + intros (r & Hr & -> & H1 & H2). split; [by apply notnull_singleton|].
      eexists. split; [|apply Hrec; by exists r]. done.
  - intros tran cs j sid v Hin Hj Hv. rewrite Forall_forall in Hcells.
    pose proof (Hcells _ Hin) as Hrow. cbn in Hrow.
    destruct (Forall2_lookup_l _ _ _ _ _ Hrow Hj) as (v' & Hv' & Hagg).
    rewrite Hv in Hv'. injection Hv' as <-.
    assert (Hsid : sid ≠ Null).
    { apply list_elem_of_lookup_2, Hcol in Hj as (r & _ & _ & ? & _). done. }
    assert (Htran : notnull [tran] = true).
    { assert (Hk : [tran] ∈ (p_rows p).*1) by (apply list_elem_of_fmap; by exists ([tran], cs)).
      rewrite Hkeys in Hk. by apply elem_of_group_keys in Hk as [? _]. }
    unfold recs' in Hagg.
    rewrite (group_filter_notnull (tuple_of_row ["TRAN"]) (cell_of_row "SMF_SID")
               (cell_of_row "USRCPUT_TIMER") [tran] sid (rows df) Htran Hsid) in Hagg.
    erewrite (list_filter_iff _
                (λ r, cell_of_row "TRAN" r = tran ∧ cell_of_row "SMF_SID" r = sid)) in Hagg;
      last first.
    { intros r. cbn. split; [by intros [[= ->] ?]|by intros [-> ?]]. }
    destruct (filter _ (rows df)) as [|r sel] eqn:Hsel.
    + cbn in Hagg. by injection Hagg as <-.
    + change (agg_sum (cell_of_row "USRCPUT_TIMER" <$> r :: sel) = Ok v) in Hagg.
      unfold agg_sum in Hagg.
      destruct (nansum (cell_of_row "USRCPUT_TIMER" <$> r :: sel)) as [s|] eqn:Hs; [|done].
      cbn in Hagg. injection Hagg as <-.
      apply nansum_Ok in Hs. rewrite Hs. unfold timers.
      by rewrite omap_fmap_compose.
Qed.

(** *** The JSON extraction *)

Lemma assign_frame_same_rows name f df df' :
  assign_frame name name (series_apply f) df = Ok df' →
  length (rows df') = length (rows df).
Proof. intros H%assign_frame_rows. symmetry. by eapply Forall2_length. Qed.



(** [[6]].  When the file is read but the conversion of SMFMNRST raises, the
    cell raises that exception with [smf110_df] already bound to the frame
    of the file as it was read; a file without the column SMFMNRST gives
    [KeyError]. *)
Theorem json_extract_partial w nb file :
  pd_read_json w SMF110_PATH = Ok file →
  let nb' := {| heap := heap nb ++ [file];
                globals := <["smf110_df":=VFrame (length (heap nb))]> (globals nb);
                engine := engine nb |} in
  frame_of nb' "smf110_df" = Some file ∧
  (∀ e, assign_frame "SMFMNRST" "SMFMNRST" (series_apply (to_datetime_ms w)) file = Raise e →
        cell_json_extract w nb = (nb', Raise e)) ∧
  ("SMFMNRST" ∉ columns file →
   cell_json_extract w nb = (nb', Raise (KeyError "SMFMNRST"))).
Proof.
  intros Hfile nb'.
  assert (Hframe : frame_of nb' "smf110_df" = Some file).
  { unfold frame_of, nb'. cbn [globals heap].
    by rewrite lookup_insert_eq, lookup_app_r, Nat.sub_diag. }
  assert (Hraise : ∀ e,
            assign_frame "SMFMNRST" "SMFMNRST" (series_apply (to_datetime_ms w)) file = Raise e →
            cell_json_extract w nb = (nb', Raise e)).
  { intros e He. unfold cell_json_extract.
    rewrite (run_bind (lift _) _ nb nb file) by (by unfold lift; rewrite Hfile).
    rewrite (run_bind _ _ _ _ _ (bind_frame_run _ _ _)). fold nb'.
    unfold update_column, assign_column.
    apply frame_of_Some in Hframe as (l & Hl & Hf).
    rewrite (run_bind _ _ _ _ _ (frame_var_run _ _ _ _ Hl Hf)). cbn beta iota.
    apply run_bind_raise. unfold lift. by rewrite He. }
  split_and!; [done..|].
  intros Hcol. apply Hraise. unfold assign_frame.
  by rewrite (proj2 (getitem_Raise file "SMFMNRST" _) (conj Hcol eq_refl)).
Qed.

(** *** The Spark extraction *)


Lemma imap_fst_seq {A B} (g : nat → Z) (h : nat → A → B) (l : list A) :
  (imap (λ i r, (g i, h i r)) l).*1 = g <$> seq 0 (length l).
Proof.
  revert g h. induction l as [|x l IH]; intros g h; [done|].
  cbn. f_equal. rewrite <-fmap_S_seq, <-list_fmap_compose.
  apply (IH (g ∘ S) (h ∘ S)).
Qed.

Lemma toPandas_index t : index (toPandas t) = Z.of_nat <$> seq 0 (length (s_rows t)).
Proof. unfold toPandas, index. cbn [rows]. apply imap_fst_seq. Qed.

Lemma filter_sublist {A} (p : A → bool) (l : list A) : List.filter p l `sublist_of` l.
Proof.
  induction l as [|x l IH]; [done|]. cbn. destruct (p x); by constructor.
Qed.

(** [[5]], [[7]].  The frame of the Spark extraction has the row labels
    0, 1, ..., n-1; after the data-cleaning cell [orig_smf110_df] has these
    labels and [smf110_df] a part of them, so the row labels of both are
    distinct. *)
Theorem spark_labels w nb nb1 nb2 :
  cell_spark_extract w nb = (nb1, Ok tt) → cell_clean w nb1 = (nb2, Ok tt) →
  ∃ df T0 F,
    frame_of nb1 "smf110_df" = Some df ∧
    frame_of nb2 "orig_smf110_df" = Some T0 ∧ frame_of nb2 "smf110_df" = Some F ∧
    index df = Z.of_nat <$> seq 0 (length (rows df)) ∧
    index T0 = index df ∧ index F `sublist_of` index df ∧
    NoDup (index T0) ∧ NoDup (index F).
Proof.
  intros (joined & t & _ & Hnb1)%cell_spark_extract_Ok Hclean.
  destruct (cell_clean_frames _ _ _ Hclean) as (df & T0 & F & Hdf & HT0 & HF & Ho & Hs).
  assert (Hdf' : df = toPandas (spark_limit 80000 t)).
  { assert (Hfr : frame_of nb1 "smf110_df" = Some (toPandas (spark_limit 80000 t))).
    { subst nb1. unfold frame_of. cbn [globals heap].
      by rewrite lookup_insert_eq, lookup_app_r, Nat.sub_diag. }
    rewrite Hdf in Hfr. by injection Hfr. }
  assert (Hidx : index df = Z.of_nat <$> seq 0 (length (rows df))).
  { rewrite Hdf', toPandas_rows. apply toPandas_index. }
  assert (Hnd : NoDup (index df)).
  { rewrite Hidx. apply (NoDup_fmap_2 _), NoDup_seq. }
  apply cast_frame_Ok in HT0 as (_ & HiT & _ & _).
  apply cics_filter_Ok in HF.
  assert (Hsub : index F `sublist_of` index df).
  { rewrite <-HiT, HF. unfold index. cbn. apply fmap_sublist, filter_sublist. }
  exists df, T0, F. split_and!; try done.
  - by rewrite HiT.
  - by eapply sublist_NoDup.
Qed.

(** *** The seconds of the transaction-rate cell *)

Lemma cell_trans_rate_Ok nb nb' :
  cell_trans_rate nb = (nb', Ok tt) →
  ∃ l df df',
    globals nb !! "smf110_filtered_tran_df" = Some (VFrame l) ∧ heap nb !! l = Some df ∧
    assign_frame "DATETIME_SECOND" "SMFMNRST" (series_apply second_of) df = Ok df' ∧
    heap nb' = <[l:=df']> (heap nb) ∧
    globals nb' !! "smf110_filtered_tran_df" = Some (VFrame l).
Proof.
  apply (wp_run_eq _ _ _ _ (λ _ nb', _) (λ _, True)).
  unfold cell_trans_rate.
  apply wp_bind, wp_assign_column; [done|]. intros l df df' Hl Hdf H.
  apply wp_bind, wp_frame_var; [|done]. intros ? ? _ _.
  apply wp_bind, wp_lift; [|done]. intros p _.
  apply wp_bind, wp_set_var. cbv zeta.
  do 4 apply wp_bind, wp_set_var.
  apply wp_bind, wp_lift; [|done]. intros r _.
  apply wp_bind, wp_set_var. apply wp_set_var. cbn [globals heap engine].
  exists l, df, df'. split_and!; [done..|].
  by rewrite !lookup_insert_ne.
Qed.

(** [[20]].  The transaction-rate cell gives the frame of
    [smf110_filtered_tran_df] the column DATETIME_SECOND, in place: for a
    timestamp the second of its minute, an integer from 0 to 59, and NaN for
    NaT.  The row labels and every other column stay. *)
Theorem datetime_second nb nb' :
  cell_trans_rate nb = (nb', Ok tt) →
  ∃ df df',
    frame_of nb "smf110_filtered_tran_df" = Some df ∧
    frame_of nb' "smf110_filtered_tran_df" = Some df' ∧
    "DATETIME_SECOND" ∈ columns df' ∧ index df' = index df ∧
    (∀ c, c ≠ "DATETIME_SECOND" → column_values df' c = column_values df c) ∧
    Forall2 (λ t s, match t with
                    | Datetime ms =>
                        ∃ z, s = Int z ∧ (0 ≤ z < 60)%Z ∧ z = ((ms / 1000) mod 60)%Z
                    | _ => t = Null ∧ s = Null
                    end)
      (column_values df "SMFMNRST").*2 (column_values df' "DATETIME_SECOND").*2.
Proof.
  intros (l & df & df' & Hl & Hdf & H & Hheap & Hl')%cell_trans_rate_Ok.
  assert (Hlen : l < length (heap nb)) by by eapply lookup_lt_Some.
  exists df, df'. unfold frame_of. rewrite Hl, Hl', Hheap, list_lookup_insert_eq by done.
  split; [done|]. split; [done|].
  unfold assign_frame in H. inv_result.
  apply getitem_Ok in Ha as [Hcol ->].
  apply series_apply_Ok in Ha0 as [Hidx Hcells]. rewrite column_values_index in Hidx.
  assert (Hvs : length a0.*2 = length (rows df)).
  { rewrite length_fmap, <-(length_fmap fst), Hidx. unfold index. by rewrite length_fmap. }
  pose proof (λ c, setitem_other _ _ _ _ c H) as Hother.
  rewrite setitem_own in H by done. injection H as <-. split_and!.
  - cbn. case_decide; [done|]. apply elem_of_app. right. left.
  - unfold index. cbn. by apply zip_with_set_index.
  - exact Hother.
  - unfold column_values at 2. cbn. rewrite zip_with_set_same by done.
    rewrite snd_zip by (rewrite !length_fmap in *; lia).
    eapply Forall2_impl; [exact Hcells|]. intros t s Hs.
    destruct t; cbn in Hs; try done; try (by injection Hs as <-).
    injection Hs as <-. eexists. split; [done|]. split; [|done].
    apply Z.mod_pos_bound. lia.
Qed.

(** *** The dictionary of the transaction-rate cell *)

Section counting.
Context {K : Type} `{EqDecision K}.

Lemma fold_count_get (l : list K) : ∀ (d : list (K * nat)) k,
  dict_get (fold_left (λ d x, dict_set d x (dict_get d x 0 + 1)) l d) k 0 =
  dict_get d k 0 + length (filter (λ x, x = k) l).
Proof.
  induction l as [|x l IH]; intros d k; cbn [fold_left]; [cbn; lia|].
  rewrite IH, filter_cons. destruct (decide (x = k)) as [->|Hne].
  - rewrite dict_get_set_eq. cbn. lia.
  - by rewrite dict_get_set_ne.
Qed.

Lemma fold_count_sum (l : list K) : ∀ d : list (K * nat),
  sum_list (fold_left (λ d x, dict_set d x (dict_get d x 0 + 1)) l d).*2 =
  sum_list d.*2 + length l.
Proof.
  induction l as [|x l IH]; intros d; cbn [fold_left length]; [lia|].
  rewrite IH. cut (sum_list (dict_set d x (dict_get d x 0 + 1)).*2 = sum_list d.*2 + 1); [lia|].
  clear. induction d as [|[k v] d IH]; cbn; [done|].
  destruct (decide (k = x)) as [->|Hne]; cbn; [lia|]. rewrite IH. lia.
Qed.

Lemma fold_count_NoDup (l : list K) : ∀ d : list (K * nat),
  NoDup (dict_keys d) →
  NoDup (dict_keys (fold_left (λ d x, dict_set d x (dict_get d x 0 + 1)) l d)).
Proof.
  induction l as [|x l IH]; intros d Hd; cbn [fold_left]; [done|].
  by apply IH, dict_keys_set_NoDup.
Qed.

Lemma fold_count_keys (l : list K) : ∀ (d : list (K * nat)) k,
  k ∈ dict_keys (fold_left (λ d x, dict_set d x (dict_get d x 0 + 1)) l d) ↔
  k ∈ dict_keys d ∨ k ∈ l.
Proof.
  induction l as [|x l IH]; intros d k; cbn [fold_left].
  - rewrite elem_of_nil. tauto.
  - rewrite IH, dict_keys_set, elem_of_cons. case_decide as Hx.
    + split; [tauto|]. intros [?|[->|?]]; tauto.
    + rewrite elem_of_app, list_elem_of_singleton. tauto.
Qed.

Lemma length_filter_NoDup (k : K) (l : list K) :
  NoDup l → length (filter (λ x, x = k) l) = if decide (k ∈ l) then 1 else 0.
Proof.
  induction 1 as [|x l Hx Hl IH]; [done|]. rewrite filter_cons.
  destruct (decide (x = k)) as [->|Hne].
  - rewrite decide_True by left. cbn. rewrite IH, decide_False; done.
  - rewrite IH. destruct (decide (k ∈ l)) as [Hk|Hk].
    + rewrite decide_True; [done|by right].
    + rewrite decide_False; [done|]. intros [->|?]%elem_of_cons; done.
Qed.

End counting.

Lemma count_regions_product sys regions :
  count_regions sys regions =
  fold_left (λ d x, dict_set d x (dict_get d x 0 + 1))
    (sys ≫= λ s, (λ r, (s, r)) <$> regions) [].
Proof.
  unfold count_regions. generalize (@nil ((cell * cell) * nat)).
  induction sys as [|s sys IH]; intros d; [done|].
  rewrite bind_cons, fold_left_app, <-IH. cbn [fold_left]. f_equal.
  clear. revert d. induction regions as [|r regions IH]; intros d; [done|].
  cbn. by rewrite IH.
Qed.

Lemma length_filter_pairs (s : cell) (sys regions : list cell) (reg : cell) :
  length (filter (λ x, x = (s, reg)) (sys ≫= λ s, (λ r, (s, r)) <$> regions)) =
  length (filter (λ x, x = s) sys) * length (filter (λ c, c = reg) regions).
Proof.
  induction sys as [|s' sys IH]; [done|].
  rewrite bind_cons, filter_app, length_app, IH, (filter_cons _ s').
  match goal with
  | |- ?a + _ = _ =>
      assert (Hcut : a = if decide (s' = s)
                         then length (filter (λ c, c = reg) regions) else 0)
  end.
  { clear. induction regions as [|r regions IH]; [by destruct (decide (s' = s))|].
    rewrite fmap_cons, !filter_cons.
    destruct (decide (s' = s)) as [->|Hne].
    - destruct (decide (r = reg)) as [->|Hr].
      + rewrite decide_True by done. cbn. by rewrite IH.
      + rewrite decide_False; [done|]. by intros [= ->].
    - rewrite decide_False; [done|]. by intros [= ->]. }
  rewrite Hcut. destruct (decide (s' = s)); cbn; lia.
Qed.

Lemma fmap_fst_pair {A B} (h : A → B) (l : list A) : ((λ k, (k, h k)) <$> l).*1 = l.
Proof. induction l as [|x l IH]; [done|]. cbn. by rewrite IH. Qed.

Lemma rate_loop_fold p d : ∀ acc r,
  fold_result (rate_step p) d acc = Ok r →
  (∀ k, k ∈ dict_keys d → k ∈ dict_keys acc.2) →
  r.1 = acc.1 + sum_list d.*2 ∧ dict_keys r.2 = dict_keys acc.2.
Proof.
  induction d as [|[k n] d IH]; intros acc r H Hkeys.
  - cbn in H. injection H as <-. split; [cbn; lia|done].
  - cbn [fold_result] in H. apply bind_Ok_inv in H as (acc' & Hstep & H).
    unfold rate_step in Hstep. apply bind_Ok_inv in Hstep as (rate & _ & Hstep).
    injection Hstep as <-. cbn [fst snd] in *.
    apply IH in H as [H1 H2].
    + cbn [fst snd] in *. rewrite H1, H2, dict_keys_set.
      rewrite decide_True by (apply Hkeys; left). split; [|done].
      rewrite fmap_cons. cbn. lia.
    + intros k' Hk'. cbn [snd]. rewrite dict_keys_set. case_decide.
      * apply Hkeys. by right.
      * apply elem_of_app. left. apply Hkeys. by right.
Qed.

(** [[20]].  The dictionary of the first loop pairs every system id with
    every region of the table, and counts for the pair all rows of the table
    with that region, whichever system they belong to.  So the counts add
    up to the number of system ids times the number of rows of the table,
    and that is where [start_ind] stands after the second loop, which fills
    one column of [cics_trans_df] per pair. *)
Theorem rate_loop_covers p :
  let sys_id := level 0 p in
  let cics_regions := get_level_values 1 p in
  let d := count_regions sys_id cics_regions in
  NoDup d.*1 ∧
  (∀ s reg, (s, reg) ∈ d.*1 ↔ s ∈ sys_id ∧ reg ∈ cics_regions) ∧
  (∀ s reg, s ∈ sys_id →
     dict_get d (s, reg) 0 = length (filter (λ c, c = reg) cics_regions)) ∧
  sum_list d.*2 = length sys_id * length (p_rows p) ∧
  (∀ r, rate_loop p d = Ok r →
     r.1 = length sys_id * length (p_rows p) ∧ r.2.*1 = d.*1).
Proof.
  intros sys_id cics_regions d.
  assert (Hnd : NoDup sys_id).
  { unfold sys_id, level. rewrite sorted_by_perm. apply NoDup_remove_dups. }
  assert (Hsum : sum_list d.*2 = length sys_id * length (p_rows p)).
  { unfold d. rewrite count_regions_product, fold_count_sum. cbn.
    assert (Hlen : length cics_regions = length (p_rows p)).
    { unfold cics_regions, get_level_values. by rewrite !length_fmap. }
    rewrite <-Hlen. clear. induction sys_id as [|s sys IH]; [done|].
    rewrite bind_cons, length_app, length_fmap, IH. cbn. lia. }
  split_and!.
  - unfold d. rewrite count_regions_product. apply (fold_count_NoDup _ []). constructor.
  - intros s reg. unfold d. rewrite count_regions_product.
    change (?l.*1) with (dict_keys l). rewrite fold_count_keys. cbn.
    rewrite elem_of_nil, list_elem_of_bind. split.
    + intros [[]|(s' & Hin & Hs')]. apply list_elem_of_fmap in Hin as (r & [= -> ->] & Hr).
      done.
    + intros [Hs Hr]. right. exists s. split; [|done]. by apply list_elem_of_fmap_2.
  - intros s reg Hs. unfold d. rewrite count_regions_product, fold_count_get. cbn.
    rewrite length_filter_pairs, length_filter_NoDup by done.
    rewrite decide_True by done. lia.
  - exact Hsum.
  - intros r Hr. unfold rate_loop in Hr. apply rate_loop_fold in Hr as [H1 H2].
    + cbn [fst snd] in *. rewrite H1, Hsum. split; [done|].
      unfold dict_keys in H2. by rewrite H2, fmap_fst_pair.
    + intros k Hk. cbn [snd]. unfold dict_keys at 1. by rewrite fmap_fst_pair.
Qed.

(** *** Selecting columns of the joined table *)

Lemma elem_of_resolve_filter t name j :
  j ∈ List.filter (λ j, match s_columns t !! j with
                        | Some c => same_name c name
                        | None => false
                        end)
        (seq 0 (length (s_columns t))) ↔
  named t name j.
Proof.
  rewrite list_elem_of_In, filter_In, <-list_elem_of_In, elem_of_seq. unfold named. split.
  - intros [_ H]. destruct (s_columns t !! j) as [c|]; [|done]. by exists c.
  - intros (c & Hc & H). rewrite Hc. split; [|done]. apply lookup_lt_Some in Hc. lia.
Qed.

Lemma resolve_Ok t name j :
  resolve t name = Ok j → named t name j ∧ ∀ j', named t name j' → j' = j.
Proof.
  unfold resolve. intros H.
  destruct (List.filter _ _) as [|j0 [|j1 l]] eqn:Hf; try done. injection H as ->.
  split.
  - apply elem_of_resolve_filter. rewrite Hf. left.
  - intros j' Hj'. apply elem_of_resolve_filter in Hj'. rewrite Hf in Hj'.
    by apply list_elem_of_singleton in Hj'.
Qed.

Lemma resolve_Raise t name e : resolve t name = Raise e → e = AnalysisException name.
Proof.
  unfold resolve. destruct (List.filter _ _) as [|j0 [|j1 l]]; congruence.
Qed.

Lemma spark_select_Raise t names name :
  name ∈ names → (∀ j, resolve t name ≠ Ok j) →
  ∃ name', spark_select t names = Raise (AnalysisException name').
Proof.
  intros Hin Hno. unfold spark_select.
  destruct (traverse (resolve t) names) as [js|e] eqn:H.
  - apply traverse_Ok in H. apply list_elem_of_lookup in Hin as [i Hi].
    destruct (Forall2_lookup_l _ _ _ _ _ H Hi) as (j & _ & Hj). by destruct (Hno j).
  - apply traverse_Raise in H as (x & _ & ->%resolve_Raise). by exists x.
Qed.

(** [[5]].  The selection of the joined table succeeds only when every
    selected name is, case ignored, the name of exactly one of its columns,
    and then gives a table with the selected names as they are written in
    the selection, as many rows as the joined table, and in every row one
    cell per name.  A name that is the name of no column, or of two columns
    (one of each section, say), gives [AnalysisException]. *)
Theorem spark_select_resolves t names :
  (∀ t', spark_select t names = Ok t' →
     s_columns t' = names ∧ length (s_rows t') = length (s_rows t) ∧
     Forall (λ r, length r = length names) (s_rows t') ∧
     ∀ name, name ∈ names →
       ∃ j, named t name j ∧ ∀ j', named t name j' → j' = j) ∧
  (∀ name, name ∈ names → (∀ j, ¬ named t name j) →
     ∃ name', spark_select t names = Raise (AnalysisException name')) ∧
  (∀ name i j, name ∈ names → i ≠ j → named t name i → named t name j →
     ∃ name', spark_select t names = Raise (AnalysisException name')).
Proof.
  split_and!.
  - unfold spark_select. intros t' H. inv_result. subst t'. cbn.
    apply traverse_Ok in Ha. split_and!.
    + done.
    + by rewrite length_fmap.
    + apply Forall_fmap, Forall_forall. intros r _. cbn.
      rewrite length_fmap. symmetry. by eapply Forall2_length.
    + intros name [i Hi]%list_elem_of_lookup.
      destruct (Forall2_lookup_l _ _ _ _ _ Ha Hi) as (j & _ & Hj).
      exists j. by apply resolve_Ok.
  - intros name Hin Hno. apply (spark_select_Raise t names name Hin).
    intros j [Hj _]%resolve_Ok. by apply (Hno j).
  - intros name i j Hin Hij Hi Hj. apply (spark_select_Raise t names name Hin).
    intros k [_ Hk]%resolve_Ok. apply Hij. by rewrite (Hk i Hi), (Hk j Hj).
Qed.

(** A join of two sections that both carry TRAN cannot be selected from;
    and a column is found whatever the case of its name in the table. *)
Example spark_select_ambiguous :
  (j ← spark_join sample_cics_section
         {| s_columns := ["CHILD_KEY"; "SMFMNSPN"; "SMF_SID"; "SMFMNRSD"; "SMFMNRST"; "TRAN"];
            s_rows := [] |} "PARENT_KEY" "CHILD_KEY";
   spark_select j source_columns) = Raise (AnalysisException "TRAN") ∧
  (j ← spark_join sample_cics_section
         {| s_columns := ["child_key"; "Smfmnspn"; "smf_sid"; "smfmnrsd"; "smfmnrst"];
            s_rows := [] |} "PARENT_KEY" "CHILD_KEY";
   t ← spark_select j source_columns;
   mret (s_columns t)) = Ok source_columns.
Proof. split; by vm_compute. Qed.

(** *** The sample, once more *)


Lemma filter_tran_not_str_witness :
  cell_filter_tran nameless_loaded = (nameless_loaded, Raise ValueError).
Proof.
  apply (filter_tran_not_str nameless_loaded nameless_frame
           (1%Z, <["TRAN":=Null]> (sample_row 1 "S1" "CICS3AAB" "" (f64 1 1) 1000).2)
           (sample_row 0 "S1" "CICS3AAB" "Y195" (f64 1 1) 1000)).
  - by vm_compute.
  - apply (bool_decide_unpack _). by vm_compute.
  - left.
  - exact I.
  - right. left.
  - intros H. exact H.
Defined.

Lemma filter_tran_numbers_witness :
  cell_filter_tran numeric_tran_loaded = (numeric_tran_loaded, Raise (AttributeError "str")).
Proof.
  apply (filter_tran_numbers numeric_tran_loaded numeric_tran_frame).
  - by vm_compute.
  - apply (bool_decide_unpack _). by vm_compute.
  - discriminate.
  - repeat (constructor; [exact I|]). constructor.
Defined.

Lemma cell_clean_returns_witness :
  ∃ nb' T0 F,
    cell_clean sample_world sample_loaded = (nb', Ok tt) ∧
    frame_of nb' "orig_smf110_df" = Some T0 ∧ frame_of nb' "smf110_df" = Some F ∧
    index T0 = index sample_extracted ∧ index F `sublist_of` index sample_extracted.
Proof.
  apply (cell_clean_returns sample_world sample_loaded sample_extracted
           (0%Z, <["SMFMNRST":=Datetime 1000]>
                   (sample_row 0 "S1" "CICS3AAB" "Y195" (f64 1 2) 1000).2)).
  - by vm_compute.
  - apply (bool_decide_unpack _). by vm_compute.
  - apply (bool_decide_unpack _). by vm_compute.
  - apply (bool_decide_unpack _). by vm_compute.
  - apply (bool_decide_unpack _). by vm_compute.
  - repeat (constructor; [split_and!; exact I|]). constructor.
  - left.
  - exact I.
Defined.

Lemma cell_clean_numbers_witness :
  ∃ nb' T0 l lo,
    cell_clean sample_world numeric_region_loaded = (nb', Raise (AttributeError "str")) ∧
    cast_frame sample_world numeric_region_frame = Ok T0 ∧
    index T0 = index numeric_region_frame ∧
    globals nb' !! "smf110_df" = Some (VFrame l) ∧
    globals nb' !! "orig_smf110_df" = Some (VFrame lo) ∧ l ≠ lo ∧
    heap nb' !! l = Some T0 ∧ heap nb' !! lo = Some T0.
Proof.
  apply (cell_clean_numbers sample_world numeric_region_loaded numeric_region_frame).
  - by vm_compute.
  - apply (bool_decide_unpack _). by vm_compute.
  - apply (bool_decide_unpack _). by vm_compute.
  - apply (bool_decide_unpack _). by vm_compute.
  - apply (bool_decide_unpack _). by vm_compute.
  - repeat (constructor; [split_and!; exact I|]). constructor.
  - discriminate.
  - repeat (constructor; [exact I|]). constructor.
Defined.

Lemma cell_clean_twice_witness :
  ∃ nb2 T0 F,
    frame_of sample_cleaned "orig_smf110_df" = Some T0 ∧
    frame_of sample_cleaned "smf110_df" = Some F ∧
    rows F = List.filter has_cics (rows T0) ∧
    cell_clean sample_world sample_cleaned = (nb2, Ok tt) ∧
    frame_of nb2 "orig_smf110_df" = Some F ∧ frame_of nb2 "smf110_df" = Some F.
Proof.
  assert (H : cell_clean sample_world sample_loaded = (sample_cleaned, Ok tt))
    by (vm_compute; reflexivity).
  apply (cell_clean_twice sample_world sample_loaded sample_cleaned H).
Defined.

(** In the sample the second run loses the record of the region DB2XPROD
    from [orig_smf110_df]. *)
Example cell_clean_twice_sample :
  length <$> (rows <$> frame_of sample_cleaned "orig_smf110_df") = Some 6 ∧
  length <$> (rows <$> frame_of (cell_clean sample_world sample_cleaned).1 "orig_smf110_df")
    = Some 5.
Proof. split; by vm_compute. Qed.

Lemma cpu_time_per_trans_cells_witness :
  cpu_time_per_trans_of sample_of_interest = Ok sample_per_trans ∧
  NoDup (p_columns sample_per_trans) ∧ NoDup (p_rows sample_per_trans).*1 ∧
  (∀ k cs, (k, cs) ∈ p_rows sample_per_trans →
     length cs = length (p_columns sample_per_trans)) ∧
  (∀ sid, sid ∈ p_columns sample_per_trans ↔
     ∃ r, r ∈ rows sample_of_interest ∧ cell_of_row "SMF_SID" r = sid ∧ sid ≠ Null ∧
          cell_of_row "TRAN" r ≠ Null) ∧
  (∀ k, k ∈ (p_rows sample_per_trans).*1 ↔
     ∃ r, r ∈ rows sample_of_interest ∧ k = [cell_of_row "TRAN" r] ∧
          cell_of_row "TRAN" r ≠ Null ∧ cell_of_row "SMF_SID" r ≠ Null) ∧
  (∀ tran cs j sid v,
     ([tran], cs) ∈ p_rows sample_per_trans →
     p_columns sample_per_trans !! j = Some sid → cs !! j = Some v →
     match filter (λ r, cell_of_row "TRAN" r = tran ∧ cell_of_row "SMF_SID" r = sid)
             (rows sample_of_interest) with
     | [] => v = Null
     | sel => v = float_cell (fsum (timers sel))
     end).
Proof.
  assert (H : cpu_time_per_trans_of sample_of_interest = Ok sample_per_trans)
    by (vm_compute; reflexivity).
  split; [done|].
  apply (cpu_time_per_trans_cells sample_of_interest sample_per_trans H).
Defined.

Example sample_per_trans_cells :
  sample_per_trans =
    {| p_columns := [Str "S1"; Str "S2"];
       p_rows := [([Str "XMAP"], [Null; Float (f64 1 1)]);
                  ([Str "Y195"], [Float (f64 3 4); Null]);
                  ([Str "Y295"], [Float (f64 1 4); Null])] |}.
Proof. by vm_compute. Qed.

Lemma json_extract_partial_witness :
  frame_of
    {| heap := [stampless_frame];
       globals := <["smf110_df":=VFrame 0]> ∅;
       engine := [] |} "smf110_df" = Some stampless_frame ∧
  cell_json_extract (world_of stampless_frame) empty_notebook =
    ({| heap := [stampless_frame];
        globals := <["smf110_df":=VFrame 0]> ∅;
        engine := [] |}, Raise (KeyError "SMFMNRST")).
Proof.
  destruct (json_extract_partial (world_of stampless_frame) empty_notebook stampless_frame
              eq_refl) as (H1 & _ & H3).
  split; [exact H1|]. apply H3.
  apply (bool_decide_unpack _). by vm_compute.
Defined.

Example spark_extract_unprepared_sample :
  cell_spark_extract sample_world empty_notebook =
    (empty_notebook, Raise (NameError "spark")) ∧
  cell_spark_extract sample_world (cell_session empty_notebook).1 =
    ((cell_session empty_notebook).1, Raise (NameError "password")).
Proof. split; by vm_compute. Qed.

Lemma spark_labels_witness :
  ∃ df T0 F,
    frame_of spark_loaded "smf110_df" = Some df ∧
    frame_of spark_cleaned "orig_smf110_df" = Some T0 ∧
    frame_of spark_cleaned "smf110_df" = Some F ∧
    index df = Z.of_nat <$> seq 0 (length (rows df)) ∧
    index T0 = index df ∧ index F `sublist_of` index df ∧
    NoDup (index T0) ∧ NoDup (index F).
Proof.
  assert (H1 : cell_spark_extract sample_world spark_ready = (spark_loaded, Ok tt))
    by (vm_compute; reflexivity).
  assert (H2 : cell_clean sample_world spark_loaded = (spark_cleaned, Ok tt))
    by (vm_compute; reflexivity).
  apply (spark_labels sample_world spark_ready spark_loaded spark_cleaned H1 H2).
Defined.

Lemma datetime_second_witness :
  ∃ df df',
    frame_of before_trans_rate "smf110_filtered_tran_df" = Some df ∧
    frame_of (cell_trans_rate before_trans_rate).1 "smf110_filtered_tran_df" = Some df' ∧
    "DATETIME_SECOND" ∈ columns df' ∧ index df' = index df ∧
    (∀ c, c ≠ "DATETIME_SECOND" → column_values df' c = column_values df c) ∧
    Forall2 (λ t s, match t with
                    | Datetime ms =>
                        ∃ z, s = Int z ∧ (0 ≤ z < 60)%Z ∧ z = ((ms / 1000) mod 60)%Z
                    | _ => t = Null ∧ s = Null
                    end)
      (column_values df "SMFMNRST").*2 (column_values df' "DATETIME_SECOND").*2.
Proof.
  assert (H : cell_trans_rate before_trans_rate =
              ((cell_trans_rate before_trans_rate).1, Ok tt))
    by (vm_compute; reflexivity).
  apply (datetime_second before_trans_rate _ H).
Defined.

(** With the two systems of the sample, [start_ind] ends at twice the number
    of rows of the table. *)
Example rate_loop_covers_sample :
  (r ← rate_loop sample_pivot
         (count_regions (level 0 sample_pivot) (get_level_values 1 sample_pivot));
   mret r.1) = Ok 6 ∧
  length (p_rows sample_pivot) = 3.
Proof. split; by vm_compute. Qed.

(** *** One system: the loops and the grouped mean *)

Section blocks.
Context {K V : Type} `{EqDecision K}.

Lemma dict_get_new (d : list (K * nat)) k : k ∉ d.*1 → dict_get d k 0 = 0.
Proof.
  induction d as [|[k' v] d IH]; [done|]. cbn. intros [Hne Hk]%not_elem_of_cons.
  rewrite decide_False by done. by apply IH.
Qed.

Lemma dict_set_app_new {W} (d1 d2 : list (K * W)) k v :
  k ∉ d1.*1 → dict_set (d1 ++ d2) k v = d1 ++ dict_set d2 k v.
Proof.
  induction d1 as [|[k' v'] d1 IH]; [done|]. cbn. intros [Hne Hk]%not_elem_of_cons.
  rewrite decide_False by done. by rewrite IH.
Qed.

Lemma dict_get_app_new (d1 d2 : list (K * nat)) k :
  k ∉ d1.*1 → dict_get (d1 ++ d2) k 0 = dict_get d2 k 0.
Proof.
  induction d1 as [|[k' v'] d1 IH]; [done|]. cbn. intros [Hne Hk]%not_elem_of_cons.
  rewrite decide_False by done. by apply IH.
Qed.

Lemma rows_of_blocks_cons (k : K) (vs : list V) bl :
  rows_of_blocks ((k, vs) :: bl) = ((λ v, (k, v)) <$> vs) ++ rows_of_blocks bl.
Proof. done. Qed.

Lemma fold_count_block (k : K) (vs : list V) : ∀ (d0 : list (K * nat)) m,
  k ∉ d0.*1 →
  fold_left (λ d x, dict_set d x (dict_get d x 0 + 1)) ((λ v, (k, v)) <$> vs).*1
    (d0 ++ [(k, m)]) = d0 ++ [(k, m + length vs)].
Proof.
  induction vs as [|v vs IH]; intros d0 m Hk; cbn [fmap list_fmap fold_left length].
  - by rewrite Nat.add_0_r.
  - cbn [fst]. rewrite dict_get_app_new, dict_set_app_new by done. cbn.
    rewrite !decide_True by done. rewrite IH by done. do 3 f_equal. lia.
Qed.

Lemma fold_count_blocks (bl : list (K * list V)) : ∀ d0 : list (K * nat),
  NoDup (d0.*1 ++ bl.*1) → Forall (λ b, b.2 ≠ []) bl →
  fold_left (λ d x, dict_set d x (dict_get d x 0 + 1)) (rows_of_blocks bl).*1 d0 =
  d0 ++ ((λ b, (b.1, length b.2)) <$> bl).
Proof.
  induction bl as [|[k vs] bl IH]; intros d0 Hnd Hne.
  - cbn. by rewrite app_nil_r.
  - apply Forall_cons in Hne as [Hvs Hne]. cbn [snd] in Hvs.
    rewrite rows_of_blocks_cons, fmap_app, fold_left_app.
    assert (Hk : k ∉ d0.*1).
    { apply NoDup_app in Hnd as (_ & Hd & _). intros Hin. apply (Hd _ Hin). left. }
    destruct vs as [|v vs]; [done|].
    rewrite fmap_cons. cbn [fmap list_fmap fold_left fst].
    rewrite dict_get_new by done.
    assert (Hset : dict_set d0 k (0 + 1) = d0 ++ [(k, 1)]).
    { rewrite <-(app_nil_r d0) at 1. by rewrite dict_set_app_new. }
    rewrite Hset, fold_count_block by done.
    rewrite IH; [|rewrite fmap_app; cbn; by rewrite <-app_assoc|done].
    rewrite <-app_assoc. cbn. done.
Qed.

Lemma group_block (k k' : K) (vs : list V) :
  group k ((λ v, (k', v)) <$> vs) = if decide (k' = k) then vs else [].
Proof.
  unfold group. induction vs as [|v vs IH]; [by destruct (decide (k' = k))|].
  rewrite fmap_cons, filter_cons. cbn [fst].
  destruct (decide (k' = k)); [|done]. rewrite fmap_cons. cbn. by rewrite IH.
Qed.

Lemma group_app (k : K) (l1 l2 : list (K * V)) :
  group k (l1 ++ l2) = group k l1 ++ group k l2.
Proof. unfold group. by rewrite filter_app, fmap_app. Qed.

Lemma group_blocks_out (k : K) (bl : list (K * list V)) :
  k ∉ bl.*1 → group k (rows_of_blocks bl) = [].
Proof.
  induction bl as [|[k' vs] bl IH]; [done|]. cbn [fmap list_fmap fst].
  intros [Hne Hk]%not_elem_of_cons.
  rewrite rows_of_blocks_cons, group_app, group_block, IH by done.
  by rewrite decide_False by done.
Qed.

Lemma group_blocks (k : K) (vs : list V) (bl : list (K * list V)) :
  NoDup bl.*1 → (k, vs) ∈ bl → group k (rows_of_blocks bl) = vs.
Proof.
  induction bl as [|[k' vs'] bl IH]; intros Hnd Hin; [by apply elem_of_nil in Hin|].
  cbn [fmap list_fmap fst] in Hnd. apply NoDup_cons in Hnd as [Hk' Hnd].
  rewrite rows_of_blocks_cons, group_app, group_block.
  apply elem_of_cons in Hin as [[= -> ->]|Hin].
  - rewrite decide_True by done. rewrite group_blocks_out by done. apply app_nil_r.
  - rewrite decide_False.
    + by apply IH.
    + intros ->. apply Hk', list_elem_of_fmap. by exists (k, vs).
Qed.

Lemma dict_set_all {W} (res : list (K * W)) (a : W) : ∀ pre : list (K * W),
  NoDup (pre.*1 ++ res.*1) →
  fold_left (λ t kv, dict_set t kv.1 kv.2) res (pre ++ ((λ k, (k, a)) <$> res.*1)) =
  pre ++ res.
Proof.
  induction res as [|[k w] res IH]; intros pre Hnd; [done|].
  cbn [fmap list_fmap fold_left fst snd].
  assert (Hk : k ∉ pre.*1).
  { apply NoDup_app in Hnd as (_ & Hd & _). intros Hin. apply (Hd _ Hin). left. }
  rewrite dict_set_app_new by done. cbn. rewrite decide_True by done.
  rewrite (cons_middle (k, w)), app_assoc, IH.
  - by rewrite <-app_assoc.
  - rewrite fmap_app. cbn. by rewrite <-app_assoc.
Qed.

(** A list sorted by an order that is antisymmetric on its keys comes in
    blocks, one per key, in the order of the keys. *)
Lemma sorted_blocks (R : K → K → Prop) (recs : list (K * V)) :
  (∀ x y, x ∈ recs.*1 → y ∈ recs.*1 → R x y → R y x → x = y) →
  StronglySorted R recs.*1 →
  ∃ bl : list (K * list V),
    recs = rows_of_blocks bl ∧ NoDup bl.*1 ∧ Forall (λ b, b.2 ≠ []) bl ∧
    StronglySorted R bl.*1 ∧ ∀ k, k ∈ bl.*1 ↔ k ∈ recs.*1.
Proof using All.
  induction recs as [|[k v] recs IH]; intros Hanti Hs.
  - exists []. split_and!; try done; constructor.
  - rewrite fmap_cons in Hs. cbn [fst] in Hs.
    apply StronglySorted_inv in Hs as [Hs Hk].
    destruct IH as (bl & -> & Hnd & Hne & Hsb & Hmem); [|done|].
    { intros x y Hx Hy. apply Hanti; rewrite fmap_cons; by right. }
    rewrite Forall_forall in Hk.
    destruct bl as [|[k' vs'] bl].
    + exists [(k, [v])]. split_and!; try done.
      * cbn. apply NoDup_singleton.
      * repeat constructor. done.
      * repeat constructor.
    + destruct (decide (k = k')) as [<-|Hkk'].
      * exists ((k, v :: vs') :: bl). split_and!; try done.
        -- apply Forall_cons in Hne as [_ Hne]. by constructor.
        -- intros k0. cbn [fmap list_fmap fst]. rewrite !elem_of_cons, <-Hmem.
           cbn [fmap list_fmap fst]. rewrite elem_of_cons. tauto.
      * assert (Hk' : k' ∈ (rows_of_blocks ((k', vs') :: bl)).*1) by (apply Hmem; left).
        assert (Hnot : k ∉ ((k', vs') :: bl).*1).
        { cbn. intros [->|Hin]%elem_of_cons; [done|].
          cbn in Hsb. apply StronglySorted_inv in Hsb as [_ Hsb].
          rewrite Forall_forall in Hsb. apply Hkk'.
          apply Hanti; [left|right; by apply Hmem; left|by apply Hk|by apply Hsb]. }
        exists ((k, [v]) :: (k', vs') :: bl). split_and!.
        -- done.
        -- rewrite fmap_cons. by apply NoDup_cons.
        -- by constructor.
        -- rewrite fmap_cons. constructor; [done|]. apply Forall_forall.
           intros x Hx. by apply Hk, Hmem.
        -- intros k0. cbn [fmap list_fmap fst]. rewrite !elem_of_cons, <-Hmem.
           cbn [fmap list_fmap fst]. rewrite elem_of_cons. tauto.
Qed.

End blocks.

Lemma traverse_fmap {A B C} (f : B → result C) (g : A → B) (l : list A) :
  traverse f (g <$> l) = traverse (f ∘ g) l.
Proof. induction l as [|x l IH]; [done|]. cbn. by rewrite IH. Qed.

Lemma traverse_ext {A B} (f g : A → result B) (l : list A) :
  (∀ x, x ∈ l → f x = g x) → traverse f l = traverse g l.
Proof.
  induction l as [|x l IH]; intros H; [done|]. cbn.
  rewrite (H x) by left. rewrite IH; [done|]. intros y Hy. apply H. by right.
Qed.

Lemma traverse_keys {A B C} (F : B → result C) (bl : list (A * B)) res :
  traverse (λ b, m ← F b.2; mret (b.1, m)) bl = Ok res → res.*1 = bl.*1.
Proof.
  intros H%traverse_Ok. induction H as [|b r bl res Hb _ IH]; [done|].
  cbn. rewrite IH. f_equal. inv_result. by subst r.
Qed.

Lemma rate_step_eq p start (table : list ((cell * cell) * list cell)) k n :
  rate_step p (start, table) (k, n) =
  (cics_rate ← column_means (length (p_columns p)) (iloc start (start + n) p);
   mret (start + n, dict_set table k cics_rate)).
Proof. done. Qed.

Lemma rate_loop_blocks p (bl : list ((cell * cell) * list (list cell))) : ∀ pre table,
  (p_rows p).*2 = pre ++ (rows_of_blocks bl).*2 →
  fold_result (rate_step p) ((λ b, (b.1, length b.2)) <$> bl) (length pre, table) =
  (res ← traverse (λ b, m ← column_means (length (p_columns p)) b.2; mret (b.1, m)) bl;
   mret (length pre + length (rows_of_blocks bl),
         fold_left (λ t kv, dict_set t kv.1 kv.2) res table)).
Proof.
  induction bl as [|[k vs] bl IH]; intros pre table Hcells.
  - cbn. by rewrite Nat.add_0_r.
  - rewrite fmap_cons. cbn [fold_result fst snd].
    assert (Hiloc : iloc (length pre) (length pre + length vs) p = vs).
    { unfold iloc. rewrite Hcells, rows_of_blocks_cons, fmap_app, drop_app_length.
      replace (length pre + length vs - length pre) with (length vs) by lia.
      rewrite <-list_fmap_compose. cbn. rewrite list_fmap_id. apply take_app_length. }
    rewrite rate_step_eq, Hiloc. cbn [traverse fst snd].
    destruct (column_means (length (p_columns p)) vs) as [m|e]; [|done].
    cbn [mbind result_bind mret result_ret].
    rewrite <-length_app, IH; last first.
    { rewrite Hcells, rows_of_blocks_cons, fmap_app, <-list_fmap_compose. cbn.
      by rewrite list_fmap_id, app_assoc. }
    destruct (traverse _ bl) as [res|e]; [|done].
    cbn [mbind result_bind mret result_ret fold_left fst snd].
    rewrite rows_of_blocks_cons, !length_app, length_fmap. do 2 f_equal. lia.
Qed.

(** *** The order of the keys *)

Lemma string_leb_trans (a b c : string) :
  String.leb a b = true → String.leb b c = true → String.leb a c = true.
Proof.
  unfold String.leb. intros Hab Hbc.
  destruct (String.compare a b) eqn:H1; [|clear Hab|done].
  - by apply String.compare_eq_iff in H1 as ->.
  - destruct (String.compare b c) eqn:H2; [|clear Hbc|done].
    + apply String.compare_eq_iff in H2 as <-. by rewrite H1.
    + apply OrderedTypeEx.String_as_OT.cmp_lt in H1, H2.
      pose proof (OrderedTypeEx.String_as_OT.lt_trans _ _ _ H1 H2) as H3.
      apply OrderedTypeEx.String_as_OT.cmp_lt in H3.
      unfold OrderedTypeEx.String_as_OT.cmp in H3. by rewrite H3.
Qed.

Lemma string_compare_refl (a : string) : String.compare a a = Eq.
Proof.
  pose proof (String.compare_antisym a a) as H.
  destruct (String.compare a a); done.
Qed.

Lemma cell_compare_Str (a b : string) : cell_compare (Str a) (Str b) = String.compare a b.
Proof. done. Qed.

Lemma pair_leb_Str (s a b : string) :
  pair_leb (Str s, Str a) (Str s, Str b) = String.leb a b.
Proof.
  unfold pair_leb, key_leb, leb_of, String.leb. cbn [key_compare fst snd].
  rewrite !cell_compare_Str, string_compare_refl. cbn [lex].
  by destruct (String.compare a b).
Qed.

Lemma key_leb_Str (s a b : string) (resta restb : list cell) :
  key_leb (Str s :: Str a :: resta) (Str s :: Str b :: restb) = true →
  String.leb a b = true.
Proof.
  unfold key_leb, leb_of, String.leb. cbn [key_compare].
  rewrite !cell_compare_Str, string_compare_refl. cbn [lex].
  by destruct (String.compare a b).
Qed.

Lemma insert_sorted_on {A} (D : A → Prop) (leb : A → A → bool) x l :
  (∀ a b, D a → D b → leb a b = false → leb b a = true) →
  (∀ a b c, D a → D b → D c → leb a b = true → leb b c = true → leb a c = true) →
  D x → Forall D l →
  StronglySorted (λ a b, leb a b = true) l →
  StronglySorted (λ a b, leb a b = true) (insert_sorted leb x l).
Proof.
  intros Htot Htrans Hx HD. induction 1 as [|y l Hl IH Hy]; cbn.
  - repeat constructor.
  - apply Forall_cons in HD as [HDy HD]. destruct (leb x y) eqn:Hxy.
    + constructor; [by constructor|]. constructor; [done|].
      rewrite Forall_forall in Hy, HD. apply Forall_forall. intros z Hz.
      apply (Htrans x y z); auto.
    + constructor; [by apply IH|]. rewrite insert_sorted_perm.
      constructor; [by apply Htot|done].
Qed.

Lemma sorted_by_on {A} (D : A → Prop) (leb : A → A → bool) l :
  (∀ a b, D a → D b → leb a b = false → leb b a = true) →
  (∀ a b c, D a → D b → D c → leb a b = true → leb b c = true → leb a c = true) →
  Forall D l → StronglySorted (λ a b, leb a b = true) (sorted_by leb l).
Proof.
  intros Htot Htrans. induction 1 as [|x l Hx HD IH]; [constructor|].
  change (sorted_by leb (x :: l)) with (insert_sorted leb x (sorted_by leb l)).
  apply (insert_sorted_on D); try done. by rewrite sorted_by_perm.
Qed.

Lemma StronglySorted_fmap {A B} (R : A → A → Prop) (R' : B → B → Prop) (f : A → B) l :
  (∀ a b, a ∈ l → b ∈ l → R a b → R' (f a) (f b)) →
  StronglySorted R l → StronglySorted R' (f <$> l).
Proof.
  intros HR Hs. induction Hs as [|x l Hl IH Hx]; [constructor|].
  rewrite fmap_cons. constructor.
  - apply IH. intros a b Ha Hb. apply HR; by right.
  - apply Forall_fmap, Forall_forall. rewrite Forall_forall in Hx.
    intros y Hy. cbn. apply HR; [left|by right|by apply Hx].
Qed.

Lemma remove_dups_const {A} `{EqDecision A} (a : A) (l : list A) :
  l ≠ [] → Forall (λ x, x = a) l → remove_dups l = [a].
Proof.
  induction l as [|x l IH]; [done|]. intros _ [-> Hl]%Forall_cons.
  destruct l as [|y l]; [done|].
  change (remove_dups (a :: y :: l))
    with (if decide_rel (∈) a (y :: l)
          then remove_dups (y :: l) else a :: remove_dups (y :: l)).
  rewrite IH by done. destruct (decide_rel (∈) a (y :: l)) as [|Hn]; [done|].
  destruct Hn. apply Forall_cons in Hl as [-> _]. left.
Qed.

(** The loops and the grouped mean agree on a table whose (system id,
    region) pairs have one system id, strings as regions, and come in
    non-decreasing order. *)
Lemma loops_grouped_mean p s :
  Forall (λ x, ∃ r, x = (Str s, Str r)) (pair_of_key <$> (p_rows p).*1) →
  StronglySorted (λ a b, pair_leb a b = true) (pair_of_key <$> (p_rows p).*1) →
  cics_trans_table p = grouped_mean p.
Proof.
  intros HD Hs.
  set (recs := (λ r : list cell * list cell, (pair_of_key r.1, r.2)) <$> p_rows p).
  set (G := λ b : (cell * cell) * list (list cell),
              m ← column_means (length (p_columns p)) b.2; mret (b.1, m)).
  assert (Hpairs : recs.*1 = pair_of_key <$> (p_rows p).*1).
  { unfold recs. by rewrite <-!list_fmap_compose. }
  assert (Hcells : recs.*2 = (p_rows p).*2).
  { unfold recs. by rewrite <-!list_fmap_compose. }
  rewrite <-Hpairs in HD, Hs.
  assert (Hanti : ∀ x y, x ∈ recs.*1 → y ∈ recs.*1 →
            pair_leb x y = true → pair_leb y x = true → x = y).
  { rewrite Forall_forall in HD. intros x y (rx & ->)%HD (ry & ->)%HD.
    rewrite !pair_leb_Str. intros Hxy Hyx. by rewrite (String.leb_antisym _ _ Hxy Hyx). }
  destruct (sorted_blocks _ recs Hanti Hs) as (bl & Hrecs & Hnd & Hne & Hsb & Hmem).
  assert (Hgm : grouped_mean p = traverse G bl).
  { unfold grouped_mean. fold recs.
    assert (Hsort : sorted_by pair_leb (remove_dups recs.*1) = bl.*1).
    { apply (StronglySorted_unique_strong (λ a b, pair_leb a b = true)).
      - intros x y Hx Hy. apply Hanti.
        + by rewrite sorted_by_perm, elem_of_remove_dups in Hx.
        + by apply Hmem.
      - apply (sorted_by_on (λ x, ∃ r, x = (Str s, Str r))).
        + intros a b (ra & ->) (rb & ->). rewrite !pair_leb_Str. intros Hab.
          destruct (String.leb_total ra rb) as [H|H]; [by rewrite H in Hab|done].
        + intros a b c (ra & ->) (rb & ->) (rc & ->). rewrite !pair_leb_Str.
          apply string_leb_trans.
        + apply Forall_forall. intros x Hx. rewrite elem_of_remove_dups in Hx.
          rewrite Forall_forall in HD. by apply HD.
      - done.
      - rewrite sorted_by_perm. apply NoDup_Permutation; [apply NoDup_remove_dups|done|].
        intros x. by rewrite elem_of_remove_dups, Hmem. }
    rewrite Hsort, traverse_fmap. apply traverse_ext. intros [k vs] Hb. unfold G. cbn.
    by rewrite Hrecs, (group_blocks k vs bl Hnd Hb). }
  rewrite Hgm. unfold cics_trans_table.
  assert (Hcount : count_regions (level 0 p) (get_level_values 1 p) =
                   (λ b, (b.1, length b.2)) <$> bl).
  { destruct (nil_or_length_pos (p_rows p)) as [Hrows|Hpos].
    - assert (bl = []) as ->.
      { destruct bl as [|[k vs] bl]; [done|]. exfalso.
        assert (Hk : k ∈ recs.*1) by (apply Hmem; left).
        unfold recs in Hk. rewrite Hrows in Hk. by apply elem_of_nil in Hk. }
      unfold level, get_level_values. by rewrite Hrows.
    - assert (Hlevel : level 0 p = [Str s]).
      { unfold level. erewrite remove_dups_const; [done| |].
        - intros Hnil%fmap_nil_inv%fmap_nil_inv. by rewrite Hnil in Hpos.
        - rewrite Hpairs, Forall_fmap in HD. apply Forall_fmap.
          eapply Forall_impl; [exact HD|]. intros k (r & Hk). cbn in *.
          unfold pair_of_key in Hk. by injection Hk as -> _. }
      rewrite Hlevel, count_regions_product. cbn [mbind list_bind]. rewrite app_nil_r.
      assert (Hregions : (λ r, (Str s, r)) <$> get_level_values 1 p = recs.*1).
      { rewrite Hpairs. unfold get_level_values. rewrite <-list_fmap_compose.
        rewrite Hpairs, Forall_fmap in HD.
        apply Forall_fmap_ext_1. eapply Forall_impl; [exact HD|].
        intros k (r & Hk). cbn in *. unfold pair_of_key in *.
        by injection Hk as -> _. }
      rewrite Hregions, Hrecs. by apply (fold_count_blocks bl []). }
  rewrite Hcount. unfold rate_loop.
  assert (Hkeys' : dict_keys ((λ b : (cell * cell) * list (list cell), (b.1, length b.2)) <$> bl)
                   = bl.*1).
  { unfold dict_keys. by rewrite <-list_fmap_compose. }
  rewrite Hkeys'.
  rewrite (rate_loop_blocks p bl [] _); [|by rewrite <-Hcells, Hrecs].
  fold G. destruct (traverse G bl) as [res|e] eqn:Hres; [|done]. cbn.
  f_equal. apply traverse_keys in Hres. rewrite <-Hres.
  apply (dict_set_all res _ []). cbn. by rewrite Hres.
Qed.

(** [[20]].  When the table holds one system id and its rows are sorted by
    their keys (system id, region, second), as [pivot_table] delivers them,
    the two loops of the transaction-rate cell compute the grouped mean:
    [cics_trans_df] has one column per region with the mean, over the
    seconds of that region, of every transaction type's count. *)
Theorem cics_trans_sorted_one_system p s :
  Forall (λ k, ∃ region rest, k = Str s :: Str region :: rest) (p_rows p).*1 →
  StronglySorted (λ a b, key_leb a b = true) (p_rows p).*1 →
  cics_trans_table p = grouped_mean p.
Proof.
  intros Hkeys Hsorted. apply (loops_grouped_mean p s).
  - apply Forall_fmap. eapply Forall_impl; [exact Hkeys|].
    intros k (r & rest & ->). by exists r.
  - eapply StronglySorted_fmap; [|exact Hsorted].
    rewrite Forall_forall in Hkeys.
    intros a b (ra & resta & ->)%Hkeys (rb & restb & ->)%Hkeys Hab.
    unfold pair_of_key. cbn. rewrite pair_leb_Str. by eapply key_leb_Str.
Qed.

Lemma cics_trans_sorted_one_system_witness :
  cics_trans_table one_system_pivot = grouped_mean one_system_pivot.
Proof.
  apply (cics_trans_sorted_one_system one_system_pivot "S1").
  - repeat (constructor; [by eexists _, _|]). constructor.
  - repeat (constructor; [|repeat (constructor; [reflexivity|]); constructor]).
    constructor.
Defined.

(** *** The table of the transaction-rate cell *)

Lemma cell_compare_Int (x y : Z) : cell_compare (Int x) (Int y) = Z.compare x y.
Proof.
  unfold cell_compare. cbn. unfold Qcompare. cbn. rewrite !Z.mul_1_r.
  by destruct (x ?= y)%Z.
Qed.

Lemma key_leb_second (s a b : string) (x y : Z) :
  key_leb [Str s; Str a; Int x] [Str s; Str b; Int y] =
    match String.compare a b with
    | Lt => true
    | Eq => (x <=? y)%Z
    | Gt => false
    end.
Proof.
  unfold key_leb, leb_of. cbn [key_compare].
  rewrite !cell_compare_Str, cell_compare_Int, string_compare_refl. cbn [lex].
  destruct (String.compare a b); [|done..]. cbn [lex]. unfold Z.leb.
  by destruct (x ?= y)%Z.
Qed.

Lemma key_leb_second_total (s : string) (k1 k2 : list cell) :
  (∃ a x, k1 = [Str s; Str a; Int x]) → (∃ a x, k2 = [Str s; Str a; Int x]) →
  key_leb k1 k2 = false → key_leb k2 k1 = true.
Proof.
  intros (a & x & ->) (b & y & ->). rewrite !key_leb_second.
  rewrite (String.compare_antisym b a).
  destruct (String.compare a b) eqn:Hab; cbn; [|done..].
  intros H. apply Z.leb_gt in H. apply Z.leb_le. lia.
Qed.

Lemma key_leb_second_trans (s : string) (k1 k2 k3 : list cell) :
  (∃ a x, k1 = [Str s; Str a; Int x]) → (∃ a x, k2 = [Str s; Str a; Int x]) →
  (∃ a x, k3 = [Str s; Str a; Int x]) →
  key_leb k1 k2 = true → key_leb k2 k3 = true → key_leb k1 k3 = true.
Proof.
  intros (a & x & ->) (b & y & ->) (c & z & ->). rewrite !key_leb_second.
  destruct (String.compare a b) eqn:Hab; [|idtac|done].
  - apply String.compare_eq_iff in Hab as ->.
    destruct (String.compare b c); [|done..].
    intros H1 H2. apply Z.leb_le in H1, H2. apply Z.leb_le. lia.
  - intros _. destruct (String.compare b c) eqn:Hbc; [|idtac|done].
    + apply String.compare_eq_iff in Hbc as <-. by rewrite Hab.
    + intros _.
      assert (H : String.leb a c = true).
      { apply (string_leb_trans a b c); unfold String.leb; by rewrite ?Hab, ?Hbc. }
      unfold String.leb in H. destruct (String.compare a c) eqn:Hac; [|done..].
      apply String.compare_eq_iff in Hac as ->.
      rewrite (String.compare_antisym b c), Hab in Hbc. done.
Qed.

Lemma assign_frame_new_rows target source f df df' :
  assign_frame target source (series_apply f) df = Ok df' →
  Forall2 (λ r r', r'.1 = r.1 ∧
                   ∃ c', f (cell_of_row source r) = Ok c' ∧ r'.2 = <[target:=c']> r.2)
    (rows df) (rows df').
Proof.
  unfold assign_frame. intros H. inv_result.
  apply getitem_Ok in Ha as [Hname ->].
  apply series_apply_Ok in Ha0 as [Hidx Hcells].
  rewrite column_values_index in Hidx.
  rewrite setitem_own in H by done. injection H as <-. cbn.
  rewrite column_values_cells in Hcells. revert Hcells. generalize (a0.*2).
  clear. induction (rows df) as [|r rs IH]; intros vs H.
  - apply Forall2_nil_inv_l in H as ->. constructor.
  - rewrite fmap_cons in H. apply Forall2_cons_inv_l in H as (v & vs' & Hv & Hvs & ->).
    cbn. constructor; [|by apply IH]. split; [done|]. by exists v.
Qed.

Lemma cell_trans_rate_table nb nb' :
  cell_trans_rate nb = (nb', Ok tt) →
  ∃ l df df' p0 r,
    globals nb !! "smf110_filtered_tran_df" = Some (VFrame l) ∧ heap nb !! l = Some df ∧
    assign_frame "DATETIME_SECOND" "SMFMNRST" (series_apply second_of) df = Ok df' ∧
    trans_rate_pivot df' = Ok p0 ∧
    rate_loop (fillna0 p0)
      (count_regions (level 0 (fillna0 p0)) (get_level_values 1 (fillna0 p0))) = Ok r ∧
    globals nb' !! "trans_rate_per_region" = Some (VPivot (fillna0 p0)) ∧
    globals nb' !! "cics_trans_df" = Some (VTable r.2).
Proof.
  apply (wp_run_eq _ _ _ _ (λ _ nb', _) (λ _, True)).
  unfold cell_trans_rate.
  apply wp_bind, wp_assign_column; [done|]. intros l df df' Hl Hdf H.
  apply wp_bind, wp_frame_var; [|done]. cbn [globals heap engine].
  intros l' df'' Hl' Hdf''. rewrite Hl in Hl'. injection Hl' as <-.
  assert (Hlen : l < length (heap nb)) by by eapply lookup_lt_Some.
  rewrite list_lookup_insert_eq in Hdf'' by done. injection Hdf'' as <-.
  apply wp_bind, wp_lift; [|done]. intros p0 Hp0.
  apply wp_bind, wp_set_var. cbv zeta.
  do 4 apply wp_bind, wp_set_var.
  apply wp_bind, wp_lift; [|done]. intros r Hr.
  apply wp_bind, wp_set_var. apply wp_set_var. cbn [globals heap engine].
  exists l, df, df', p0, r. split_and!; [done..| |].
  - rewrite !lookup_insert_ne by done. apply lookup_insert_eq.
  - apply lookup_insert_eq.
Qed.

(** [[20]].  When every row of [smf110_filtered_tran_df] has the same system
    id and a string as region, the transaction-rate cell leaves in
    [cics_trans_df] the grouped mean of the table it leaves in
    [trans_rate_per_region]: per region, the mean over its seconds of the
    count of every transaction type. *)
Theorem trans_rate_one_system nb nb' df s :
  cell_trans_rate nb = (nb', Ok tt) →
  frame_of nb "smf110_filtered_tran_df" = Some df →
  Forall (λ r, cell_of_row "SMF_SID" r = Str s ∧ is_str (cell_of_row "SMFMNSPN" r))
    (rows df) →
  ∃ p t,
    globals nb' !! "trans_rate_per_region" = Some (VPivot p) ∧
    globals nb' !! "cics_trans_df" = Some (VTable t) ∧
    grouped_mean p = Ok t.
Proof.
  intros (l & df0 & df' & p0 & r & Hl & Hdf0 & Hassign & Hp0 & Hr & Hgp & Hgt)%cell_trans_rate_table
    Hdf Hrows.
  assert (df0 = df) as ->.
  { apply frame_of_Some in Hdf as (l' & Hl' & Hdf). congruence. }
  exists (fillna0 p0), r.2. split; [done|]. split; [done|].
  assert (Hrows' : Forall (λ r', ∃ a, (∃ z, cell_of_row "DATETIME_SECOND" r' = Int z ∨
                                        cell_of_row "DATETIME_SECOND" r' = Null) ∧
                                 tuple_of_row ["SMF_SID"; "SMFMNSPN"] r' = [Str s; Str a])
                     (rows df')).
  { apply assign_frame_new_rows in Hassign.
    eapply (Forall2_transfer _ _ _ _ _ Hassign Hrows).
    intros r0 [i' m'] (_ & c' & Hc' & Hr') (Hsid & Hspn). cbn in Hr'. subst m'.
    unfold tuple_of_row, cell_of_row in *. cbn.
    rewrite lookup_insert_eq, !lookup_insert_ne by done. rewrite Hsid. cbn.
    destruct (default Null (r0.2 !! "SMFMNSPN")) as [| | | |a|]; try done.
    exists a. split; [|done].
    destruct (default Null (r0.2 !! "SMFMNRST")); cbn in Hc'; try done;
      injection Hc' as <-; eexists; eauto. Unshelve. exact 0%Z. }
  assert (Hkeys : Forall (λ k, ∃ a x, k = [Str s; Str a; Int x]) (p_rows (fillna0 p0)).*1).
  { assert (Hk0 : (p_rows (fillna0 p0)).*1 = (p_rows p0).*1).
    { unfold fillna0. cbn. by rewrite <-list_fmap_compose. }
    rewrite Hk0. unfold trans_rate_pivot in Hp0. inv_result.
    apply pivot_Ok in Hp0 as (_ & Hks & _). rewrite Hks.
    apply Forall_forall. intros k [Hnn Hk]%elem_of_group_keys.
    rewrite <-!list_fmap_compose in Hk. apply list_elem_of_fmap in Hk as (x & -> & Hx).
    apply list_elem_of_In, filter_In in Hx as [Hx%list_elem_of_In _].
    apply list_elem_of_fmap in Hx as (r' & -> & Hr').
    unfold getitem_list in Ha. inv_result. subst a. cbn [rows] in Hr'.
    rewrite Forall_forall in Hrows'. destruct (Hrows' _ Hr') as (a & (z & Hz) & Ht).
    cbn [fst snd compose] in *. unfold tuple_of_row in *. cbn [fmap list_fmap] in *.
    injection Ht as Hsid Hspn. rewrite Hsid, Hspn in *.
    destruct Hz as [Hz|Hz]; rewrite Hz in *; [by exists a, z|].
    cbn in Hnn. done. }
  assert (Heq : cics_trans_table (fillna0 p0) = grouped_mean (fillna0 p0)).
  { apply (loops_grouped_mean _ s).
    - apply Forall_fmap. eapply Forall_impl; [exact Hkeys|].
      intros k (a & x & ->). by exists a.
    - assert (Hsorted : StronglySorted (λ a b, key_leb a b = true) (p_rows (fillna0 p0)).*1).
      { assert (Hk0 : (p_rows (fillna0 p0)).*1 = (p_rows p0).*1).
        { unfold fillna0. cbn. by rewrite <-list_fmap_compose. }
        rewrite Hk0 in *. unfold trans_rate_pivot in Hp0. inv_result.
        apply pivot_Ok in Hp0 as (_ & Hks & _). rewrite Hks in *. unfold group_keys in *.
        apply (sorted_by_on (λ k, ∃ a x, k = [Str s; Str a; Int x])).
        - apply key_leb_second_total.
        - apply key_leb_second_trans.
        - rewrite sorted_by_perm in Hkeys. exact Hkeys. }
      eapply StronglySorted_fmap; [|exact Hsorted].
      rewrite Forall_forall in Hkeys.
      intros a b (ra & xa & ->)%Hkeys (rb & xb & ->)%Hkeys Hab.
      unfold pair_of_key. cbn. rewrite pair_leb_Str. by eapply key_leb_Str. }
  rewrite <-Heq. unfold cics_trans_table. by rewrite Hr.
Qed.

Lemma trans_rate_one_system_witness :
  ∃ p t,
    globals (cell_trans_rate one_system_ready).1 !! "trans_rate_per_region" = Some (VPivot p) ∧
    globals (cell_trans_rate one_system_ready).1 !! "cics_trans_df" = Some (VTable t) ∧
    grouped_mean p = Ok t.
Proof.
  assert (H : cell_trans_rate one_system_ready = ((cell_trans_rate one_system_ready).1, Ok tt))
    by (vm_compute; reflexivity).
  apply (trans_rate_one_system one_system_ready _ one_system_frame "S1" H).
  - by vm_compute.
  - repeat (constructor; [split; [reflexivity|exact I]|]). constructor.
Defined.

(** *** The analysis cells leave [smf110_df] alone *)

Lemma effect_bound_at l T nb nb' :
  effect nb nb' → bound_at "smf110_df" l T nb → bound_at "smf110_df" l T nb'.
Proof.
  intros Heff (Hwf & Hl & HT & Halias).
  assert (Hlt : l < length (heap nb)) by by eapply lookup_lt_Some.
  destruct Heff as [nb x v Hx Hv|nb x G F Hx HG HFG|nb l0 F F' Hl0 HF Hext].
  - assert (x ≠ "smf110_df") by (intros ->; apply Hx; right; left).
    split_and!.
    + intros y l'. cbn. destruct (decide (x = y)) as [->|Hne].
      * rewrite lookup_insert_eq. intros [= ->]. by destruct Hv.
      * rewrite lookup_insert_ne by done. apply Hwf.
    + cbn. by rewrite lookup_insert_ne.
    + done.
    + intros y l'. cbn. destruct (decide (x = y)) as [->|Hne].
      * rewrite lookup_insert_eq. intros [= ->]. by destruct Hv.
      * rewrite lookup_insert_ne by done. apply Halias.
  - split_and!.
    + intros y l'. cbn. rewrite length_app. cbn.
      destruct (decide (y = "smf110_filtered_tran_df")) as [->|Hne].
      * rewrite lookup_insert_eq. intros [= <-]. lia.
      * rewrite lookup_insert_ne by done. intros Hy%Hwf. lia.
    + cbn. by rewrite lookup_insert_ne.
    + cbn. by rewrite lookup_app_l.
    + intros y l'. cbn. destruct (decide (y = "smf110_filtered_tran_df")) as [->|Hne].
      * rewrite lookup_insert_eq. intros [= <-] _. lia.
      * rewrite lookup_insert_ne by done. apply Halias.
  - split_and!.
    + intros y l'. cbn. rewrite length_insert. apply Hwf.
    + done.
    + cbn. rewrite list_lookup_insert_ne; [done|]. by apply (Halias _ _ Hl0).
    + done.
Qed.

Lemma effects_bound_at l T nb nb' :
  rtc effect nb nb' → bound_at "smf110_df" l T nb → bound_at "smf110_df" l T nb'.
Proof. induction 1; eauto using effect_bound_at. Qed.

(** [[8]] to [[21]].  After the data-cleaning cell, the analysis cells, run
    in any order and any number of times, whether they return or raise,
    leave [smf110_df] bound to the same object with the same contents: they
    read it, and what they assign goes to
    [smf110_filtered_tran_df] or to names that hold no frame. *)
Theorem smf110_df_unchanged w nb nb1 cells :
  wf_notebook nb → cell_clean w nb = (nb1, Ok tt) →
  Forall (λ c, c ∈ analysis_cells) cells →
  ∃ l F,
    globals nb1 !! "smf110_df" = Some (VFrame l) ∧ heap nb1 !! l = Some F ∧
    globals (run cells nb1).1 !! "smf110_df" = Some (VFrame l) ∧
    heap (run cells nb1).1 !! l = Some F ∧
    ∀ y l', globals (run cells nb1).1 !! y = Some (VFrame l') → y ≠ "smf110_df" → l' ≠ l.
Proof.
  intros Hwf (l & df & T0 & F & Hl & Hdf & HT0 & HF & ->)%cell_clean_Ok Hcells.
  set (nb1 := {| heap := _; globals := _; engine := _ |}).
  set (n := length (heap nb)).
  assert (Hlen : length (<[l:=T0]> (heap nb)) = n) by by rewrite length_insert.
  assert (Hsmf : heap nb1 !! S n = Some F).
  { unfold nb1. cbn [heap].
    rewrite lookup_app_r by (rewrite length_app, Hlen; cbn; lia).
    rewrite length_app, Hlen. cbn. by replace (S n - (n + 1)) with 0 by lia. }
  assert (Hb : bound_at "smf110_df" (S n) F nb1).
  { split_and!.
    - intros y l'. unfold nb1. cbn. rewrite !length_app, Hlen. cbn.
      destruct (decide (y = "smf110_df")) as [->|?].
      { rewrite lookup_insert_eq. intros [= <-]. lia. }
      rewrite lookup_insert_ne by done.
      destruct (decide (y = "orig_smf110_df")) as [->|?].
      { rewrite lookup_insert_eq. intros [= <-]. lia. }
      rewrite lookup_insert_ne by done. intros Hy%Hwf. fold n in Hy. lia.
    - unfold nb1. cbn. apply lookup_insert_eq.
    - done.
    - intros y l'. unfold nb1. cbn. intros Hy Hne. rewrite lookup_insert_ne in Hy by done.
      destruct (decide (y = "orig_smf110_df")) as [->|?].
      { rewrite lookup_insert_eq in Hy. injection Hy as <-. lia. }
      rewrite lookup_insert_ne in Hy by done. apply Hwf in Hy. fold n in Hy. lia. }
  pose proof (run_analysis_effects cells nb1 Hcells) as Heff.
  destruct (effects_bound_at _ _ _ _ Heff Hb) as (_ & H1 & H2 & H3).
  exists (S n), F. split_and!; try done. unfold nb1. cbn. apply lookup_insert_eq.
Qed.

Lemma smf110_df_unchanged_witness :
  ∃ l F,
    globals sample_cleaned !! "smf110_df" = Some (VFrame l) ∧
    heap sample_cleaned !! l = Some F ∧
    globals (run analysis_cells sample_cleaned).1 !! "smf110_df" = Some (VFrame l) ∧
    heap (run analysis_cells sample_cleaned).1 !! l = Some F ∧
    ∀ y l', globals (run analysis_cells sample_cleaned).1 !! y = Some (VFrame l') →
            y ≠ "smf110_df" → l' ≠ l.
Proof.
  assert (H : cell_clean sample_world sample_loaded = (sample_cleaned, Ok tt))
    by (vm_compute; reflexivity).
  apply (smf110_df_unchanged sample_world sample_loaded sample_cleaned analysis_cells
           sample_loaded_wf H analysis_cells_all).
Defined.

End SMF110Facts.
